(** * Marshall Stanmore II bridge: BLE facade and MQTT command router

    A shallow embedding of [marshallstanmore2/typings.py],
    [marshallstanmore2/ble.py] and [marshallstanmore2/mqtt.py], and the
    properties of the callback registries, the media-info reassembler, the
    LED brightness codec, the connection step and the per-band equalizer
    command that the specification states.

    Conventions.
    - Python [int] is [Z]; [bytes] and [bytearray] are [list byte].
    - Python [str] is a [string] holding the UTF-8 encoding of the text
      (strict UTF-8 decoding is injective, so nothing is lost).
    - A method that can raise or that mutates state is a computation in the
      state-and-exception monad [M S A]; when it raises, the state reached
      so far is kept, as in Python.
    - [OrderedDict] is an association list in insertion order. *)

From Stdlib Require Import ZArith List String Ascii Bool Lia DecimalString Sorted.
From Stdlib Require Import Strings.Byte.
Import ListNotations.
Local Open Scope Z_scope.

Set Implicit Arguments.

(* ================================================================== *)
(** ** Python runtime: exceptions, effects, bytes, text, OrderedDict   *)
(* ================================================================== *)

Module Py.

(** The exception classes the three modules raise or catch.
    [UnicodeDecodeError] is a subclass of [ValueError]; [RuntimeError] is
    what the iteration over a dictionary raises once the dictionary was
    modified under it. *)
Inductive exn : Type :=
| ValueError
| UnicodeDecodeError
| IndexError
| KeyError
| TypeError
| AttributeError
| InvalidVolume
| InvalidDeviceName
| InvalidCallbackID
| InvalidLedBrightness
| SystemExit (code : Z)
| RuntimeError
| TransportError
| HandlerError (tag : nat).

Definition is_ValueError (e : exn) : bool :=
  match e with
  | ValueError | UnicodeDecodeError => true
  | _ => false
  end.

Definition is_KeyError (e : exn) : bool :=
  match e with KeyError => true | _ => false end.

Definition is_InvalidVolume (e : exn) : bool :=
  match e with InvalidVolume => true | _ => false end.

Definition is_InvalidLedBrightness (e : exn) : bool :=
  match e with InvalidLedBrightness => true | _ => false end.

Definition is_InvalidDeviceName (e : exn) : bool :=
  match e with InvalidDeviceName => true | _ => false end.

(** Outcome of running a statement from state [s]: it returns [a] and
    leaves state [s'], or it raises [e] and leaves state [s']. *)
Inductive Result (S A : Type) : Type :=
| Ok (a : A) (s : S)
| Raise (e : exn) (s : S).

Arguments Ok {S A} a s.
Arguments Raise {S A} e s.

Definition M (S A : Type) : Type := S -> Result S A.

Definition ret {S A} (a : A) : M S A := fun s => Ok a s.

Definition bind {S A B} (m : M S A) (k : A -> M S B) : M S B :=
  fun s => match m s with
           | Ok a s' => k a s'
           | Raise e s' => Raise e s'
           end.

Definition raise {S A} (e : exn) : M S A := fun s => Raise e s.

Definition get {S} : M S S := fun s => Ok s s.

Definition put {S} (s : S) : M S unit := fun _ => Ok tt s.

Definition modify {S} (f : S -> S) : M S unit := fun s => Ok tt (f s).

(** [try: body except <classes>: handler]. *)
Definition try_except {S A} (body : M S A) (classes : exn -> bool)
  (handler : exn -> M S A) : M S A :=
  fun s => match body s with
           | Ok a s' => Ok a s'
           | Raise e s' => if classes e then handler e s' else Raise e s'
           end.

(** [try: body finally: cleanup].  The cleanup runs on both exits; an
    exception of the body is raised again after a cleanup that returns. *)
Definition try_finally {S A} (body : M S A) (cleanup : M S unit) : M S A :=
  fun s => match body s with
           | Ok a s' =>
               match cleanup s' with
               | Ok _ s'' => Ok a s''
               | Raise e s'' => Raise e s''
               end
           | Raise e s' =>
               match cleanup s' with
               | Ok _ s'' => Raise e s''
               | Raise e' s'' => Raise e' s''
               end
           end.

(** A value of [option] raised to the monad: [None] raises [e]. *)
Definition or_raise {S A} (o : option A) (e : exn) : M S A :=
  match o with
  | Some a => ret a
  | None => raise e
  end.

(** Run a computation on the second component of a pair of states. *)
Definition on_snd {S1 S2 A} (m : M S2 A) : M (S1 * S2) A :=
  fun s => match m (snd s) with
           | Ok a w => Ok a (fst s, w)
           | Raise e w => Raise e (fst s, w)
           end.

(** The state a computation leaves, on either exit. *)
Definition state_of {S A} (r : Result S A) : S :=
  match r with
  | Ok _ s => s
  | Raise _ s => s
  end.

Definition raised {S A} (r : Result S A) : option exn :=
  match r with
  | Ok _ _ => None
  | Raise e _ => Some e
  end.

End Py.

Import Py.

Declare Scope py_scope.
Delimit Scope py_scope with py.
Notation "x <- m ;; k" := (bind m (fun x => k))
  (at level 61, m at next level, right associativity) : py_scope.
Notation "m ;; k" := (bind m (fun _ => k))
  (at level 61, right associativity) : py_scope.
Local Open Scope py_scope.

Module PyData.

(** [for x in l: body x]. *)
Fixpoint for_each {S T} (l : list T) (body : T -> M S unit) : M S unit :=
  match l with
  | [] => ret tt
  | x :: rest => body x ;; for_each rest body
  end.

Definition bytes : Type := list byte.

Definition int_of_byte (b : byte) : Z := Z.of_N (Byte.to_N b).

(** One element of [bytearray([...])]: [ValueError] outside [range(256)]. *)
Definition byte_of_int (x : Z) : option byte :=
  if (0 <=? x) && (x <? 256) then Byte.of_N (Z.to_N x) else None.

Fixpoint bytearray_of_ints (l : list Z) : option bytes :=
  match l with
  | [] => Some []
  | x :: rest =>
      match byte_of_int x, bytearray_of_ints rest with
      | Some b, Some bs => Some (b :: bs)
      | _, _ => None
      end
  end.

Definition len {T} (l : list T) : Z := Z.of_nat (List.length l).

(** [data[i]] with Python's negative indices; [None] is [IndexError]. *)
Definition getitem {T} (data : list T) (i : Z) : option T :=
  let j := if i <? 0 then i + len data else i in
  if (0 <=? j) && (j <? len data) then nth_error data (Z.to_nat j) else None.

(** A slice bound brought into [0, len]. *)
Definition clamp_index (n i : Z) : Z :=
  let j := if i <? 0 then i + n else i in
  Z.max 0 (Z.min n j).

(** [data[start:stop]]. *)
Definition slice {T} (data : list T) (start stop : Z) : list T :=
  let a := clamp_index (len data) start in
  let b := clamp_index (len data) stop in
  firstn (Z.to_nat (b - a)) (skipn (Z.to_nat a) data).

(** [data[start:]]. *)
Definition slice_from {T} (data : list T) (start : Z) : list T :=
  skipn (Z.to_nat (clamp_index (len data) start)) data.

Definition bytes_eqb (a b : bytes) : bool :=
  if list_eq_dec Byte.byte_eq_dec a b then true else false.

Fixpoint startswith (sub data : bytes) : bool :=
  match sub, data with
  | [], _ => true
  | _ :: _, [] => false
  | s :: sub', d :: data' => Byte.eqb s d && startswith sub' data'
  end.

(** [data.find(sub)]: the lowest index at which [sub] occurs. *)
Fixpoint bytes_find (sub data : bytes) : option Z :=
  if startswith sub data then Some 0
  else match data with
       | [] => None
       | _ :: rest => option_map Z.succ (bytes_find sub rest)
       end.

(** [data.index(sub)]: as [find], but an absent [sub] raises [ValueError]
    (it never returns -1). *)
Definition bytes_index {S} (data sub : bytes) : M S Z :=
  or_raise (bytes_find sub data) ValueError.

(** Strict UTF-8 well-formedness (no overlong forms, no surrogates, nothing
    above U+10FFFF), as a scanner expecting [need] continuation bytes of
    which the next lies in [lo, hi]. *)
Fixpoint utf8_ok (need : nat) (lo hi : Z) (l : bytes) : bool :=
  match l with
  | [] => Nat.eqb need 0
  | b :: rest =>
      let c := int_of_byte b in
      match need with
      | O =>
          if c <? 0x80 then utf8_ok 0 0x80 0xBF rest
          else if (0xC2 <=? c) && (c <=? 0xDF) then utf8_ok 1 0x80 0xBF rest
          else if c =? 0xE0 then utf8_ok 2 0xA0 0xBF rest
          else if c =? 0xED then utf8_ok 2 0x80 0x9F rest
          else if (0xE1 <=? c) && (c <=? 0xEF) then utf8_ok 2 0x80 0xBF rest
          else if c =? 0xF0 then utf8_ok 3 0x90 0xBF rest
          else if (0xF1 <=? c) && (c <=? 0xF3) then utf8_ok 3 0x80 0xBF rest
          else if c =? 0xF4 then utf8_ok 3 0x80 0x8F rest
          else false
      | S n => (lo <=? c) && (c <=? hi) && utf8_ok n 0x80 0xBF rest
      end
  end.

(** [data.decode()]. *)
Definition decode {S} (data : bytes) : M S string :=
  if utf8_ok 0 0x80 0xBF data then ret (string_of_list_byte data)
  else raise UnicodeDecodeError.

(** [str(n)] for an [int]. *)
Definition str_of_int (n : Z) : string :=
  NilZero.string_of_int (Z.to_int n).

Definition is_space (c : Z) : bool :=
  (c =? 32) || ((9 <=? c) && (c <=? 13)).

Definition is_digit (c : Z) : bool := (48 <=? c) && (c <=? 57).

Fixpoint lstrip (l : bytes) : bytes :=
  match l with
  | b :: rest => if is_space (int_of_byte b) then lstrip rest else l
  | [] => []
  end.

(** The digits of a decimal literal after its first digit: digits, each
    optionally preceded by one underscore, then only white space. *)
Fixpoint int_digits (acc : Z) (l : bytes) : option Z :=
  match l with
  | [] => Some acc
  | b :: rest =>
      let c := int_of_byte b in
      if is_digit c then int_digits (10 * acc + (c - 48)) rest
      else if c =? 95 then
        match rest with
        | d :: rest' =>
            let c' := int_of_byte d in
            if is_digit c' then int_digits (10 * acc + (c' - 48)) rest'
            else None
        | [] => None
        end
      else match lstrip l with
           | [] => Some acc
           | _ :: _ => None
           end
  end.

(** [sys.int_info.default_max_str_digits]: CPython converts no decimal
    literal of more digits and raises [ValueError] instead.  The modules
    never change the limit. *)
Definition int_max_str_digits : Z := 4300.

(** The digits of a literal as the limit counts them: leading zeros
    count, underscores, sign and white space do not. *)
Definition count_digits (l : bytes) : Z :=
  Z.of_nat (List.length (filter (fun b => is_digit (int_of_byte b)) l)).

Definition int_unsigned (l : bytes) : option Z :=
  match l with
  | b :: rest =>
      let c := int_of_byte b in
      if is_digit c then
        if count_digits l <=? int_max_str_digits then int_digits (c - 48) rest
        else None
      else None
  | [] => None
  end.

(** [int(value)] for [value : bytes], base 10: white space, an optional
    sign, digits with single underscores between them, white space, and
    at most [int_max_str_digits] digits.  [None] is [ValueError]. *)
Definition int_of_bytes (value : bytes) : option Z :=
  match lstrip value with
  | b :: rest =>
      if Byte.eqb b "-"%byte then option_map Z.opp (int_unsigned rest)
      else if Byte.eqb b "+"%byte then int_unsigned rest
      else int_unsigned (b :: rest)
  | [] => None
  end.

(** [s.lower()] on ASCII text. *)
Definition lower_ascii (c : ascii) : ascii :=
  let n := nat_of_ascii c in
  if (Nat.leb 65 n && Nat.leb n 90)%bool then ascii_of_nat (n + 32) else c.

Fixpoint lower (s : string) : string :=
  match s with
  | EmptyString => EmptyString
  | String c rest => String (lower_ascii c) (lower rest)
  end.

(** [s.split(" ")]: cut at every space; empty pieces are kept.  A space is
    one byte in UTF-8 and that byte occurs in no other character. *)
Fixpoint split_space (s : string) : list string :=
  match s with
  | EmptyString => [EmptyString]
  | String c rest =>
      if Ascii.eqb c " " then EmptyString :: split_space rest
      else match split_space rest with
           | piece :: pieces => String c piece :: pieces
           | [] => [String c EmptyString]
           end
  end.

(** [s.encode("utf-8")]. *)
Definition encode (s : string) : bytes := list_byte_of_string s.

(** [for x in l], collecting what the body returns. *)
Fixpoint map_each {S T U} (l : list T) (body : T -> M S U) : M S (list U) :=
  match l with
  | [] => ret []
  | x :: rest =>
      y <- body x ;;
      ys <- map_each rest body ;;
      ret (y :: ys)
  end.

(** *** OrderedDict with integer keys *)

Definition OrderedDict (T : Type) : Type := list (Z * T).

Definition keys {T} (d : OrderedDict T) : list Z := map fst d.

Definition values {T} (d : OrderedDict T) : list T := map snd d.

Definition contains {T} (d : OrderedDict T) (k : Z) : bool :=
  existsb (Z.eqb k) (keys d).

(** [next(reversed(d))]: the key inserted last; [None] is [StopIteration]. *)
Definition last_key {T} (d : OrderedDict T) : option Z :=
  match rev d with
  | [] => None
  | (k, _) :: _ => Some k
  end.

(** [d[k] = v]: a present key keeps its position, a new key goes last. *)
Fixpoint setitem {T} (d : OrderedDict T) (k : Z) (v : T) : OrderedDict T :=
  match d with
  | [] => [(k, v)]
  | (k', v') :: rest =>
      if k' =? k then (k', v) :: rest else (k', v') :: setitem rest k v
  end.

(** [del d[k]]; [None] is [KeyError]. *)
Definition delitem {T} (d : OrderedDict T) (k : Z) : option (OrderedDict T) :=
  if contains d k then Some (filter (fun kv => negb (fst kv =? k)) d)
  else None.

End PyData.

Import PyData.

(* ================================================================== *)
(** ** typings.py                                                      *)
(* ================================================================== *)

Module Typings.

Record EqProfile : Type := mkEqProfile {
  hz160 : Z;
  hz400 : Z;
  hz1000 : Z;
  hz2500 : Z;
  hz6250 : Z
}.

(** [dataclasses.astuple(self)], which [__iter__] iterates. *)
Definition astuple (p : EqProfile) : list Z :=
  [hz160 p; hz400 p; hz1000 p; hz2500 p; hz6250 p].

Definition band_ok (v : Z) : bool := (0 <=? v) && (v <=? 10).

(** [EqProfile] applied to unpacked arguments: five positional ones ([TypeError] otherwise),
    then [__post_init__] checks every field ([ValueError]). *)
Definition EqProfile_new {S} (args : list Z) : M S EqProfile :=
  match args with
  | [a; b; c; d; e] =>
      if forallb band_ok args then ret (mkEqProfile a b c d e)
      else raise ValueError
  | _ => raise TypeError
  end.

(** [setattr(profile, name, value)] on the slotted dataclass: no check of
    the value, [AttributeError] for a name that is not a field. *)
Definition setattr {S} (p : EqProfile) (name : string) (v : Z) : M S EqProfile :=
  if String.eqb name "hz160" then
    ret (mkEqProfile v (hz400 p) (hz1000 p) (hz2500 p) (hz6250 p))
  else if String.eqb name "hz400" then
    ret (mkEqProfile (hz160 p) v (hz1000 p) (hz2500 p) (hz6250 p))
  else if String.eqb name "hz1000" then
    ret (mkEqProfile (hz160 p) (hz400 p) v (hz2500 p) (hz6250 p))
  else if String.eqb name "hz2500" then
    ret (mkEqProfile (hz160 p) (hz400 p) (hz1000 p) v (hz6250 p))
  else if String.eqb name "hz6250" then
    ret (mkEqProfile (hz160 p) (hz400 p) (hz1000 p) (hz2500 p) v)
  else raise AttributeError.

Definition EqProfile_eqb (p q : EqProfile) : bool :=
  (hz160 p =? hz160 q) && (hz400 p =? hz400 q) && (hz1000 p =? hz1000 q)
  && (hz2500 p =? hz2500 q) && (hz6250 p =? hz6250 q).

Inductive EqPreset : Type :=
| FLAT | ROCK | METAL | POP | HIPHOP | ELECTRONIC | JAZZ.

Definition EqPreset_value (preset : EqPreset) : EqProfile :=
  match preset with
  | FLAT => mkEqProfile 5 5 5 5 5
  | ROCK => mkEqProfile 8 6 3 5 7
  | METAL => mkEqProfile 8 3 5 7 8
  | POP => mkEqProfile 6 7 8 4 5
  | HIPHOP => mkEqProfile 8 7 6 5 5
  | ELECTRONIC => mkEqProfile 7 4 4 7 6
  | JAZZ => mkEqProfile 4 7 5 4 5
  end.

Definition EqPreset_name (preset : EqPreset) : string :=
  match preset with
  | FLAT => "FLAT"
  | ROCK => "ROCK"
  | METAL => "METAL"
  | POP => "POP"
  | HIPHOP => "HIPHOP"
  | ELECTRONIC => "ELECTRONIC"
  | JAZZ => "JAZZ"
  end.

Definition EqPreset_members : list EqPreset :=
  [FLAT; ROCK; METAL; POP; HIPHOP; ELECTRONIC; JAZZ].

(** [EqPreset(profile)]: the member whose value equals [profile];
    [None] is [ValueError]. *)
Definition EqPreset_of_value (profile : EqProfile) : option EqPreset :=
  find (fun m => EqProfile_eqb (EqPreset_value m) profile) EqPreset_members.

Inductive AudioSource : Type := BLUETOOTH | AUX | RCA.

Inductive PlayStatus : Type := PLAYING | PAUSED | STOPPED.

Definition AudioSource_name (s : AudioSource) : string :=
  match s with BLUETOOTH => "BLUETOOTH" | AUX => "AUX" | RCA => "RCA" end.

Definition PlayStatus_name (s : PlayStatus) : string :=
  match s with PLAYING => "PLAYING" | PAUSED => "PAUSED" | STOPPED => "STOPPED" end.

(** [StatusIndex]. *)
Definition SOURCE : Z := 0.
Definition PLAY_STATUS : Z := 1.
Definition INTERATION_SOUND : Z := 3.

Record Status : Type := mkStatus {
  audio_source : AudioSource;
  play_status : PlayStatus;
  interaction_sound_enabled : bool
}.

(** The lookup tables; [None] is [KeyError]. *)
Definition INT_PLAY_STATUS_MAPPING (code : Z) : option PlayStatus :=
  if code =? 0x00 then Some PLAYING
  else if code =? 0x01 then Some PAUSED
  else if code =? 0x02 then Some STOPPED
  else None.

Definition INT_AUD_SRC_MAPPING (code : Z) : option AudioSource :=
  if code =? 0x03 then Some BLUETOOTH
  else if code =? 0x01 then Some AUX
  else if code =? 0x04 then Some RCA
  else None.

Record MediaInfo : Type := mkMediaInfo {
  title : option string;
  artist : option string;
  album : option string
}.

(** [EqPreset[name]] and [AudioSource[name]]: the member of that name;
    [None] is [KeyError]. *)
Definition EqPreset_by_name (name : string) : option EqPreset :=
  find (fun m => String.eqb (EqPreset_name m) name) EqPreset_members.

Definition AudioSource_members : list AudioSource := [BLUETOOTH; AUX; RCA].

Definition AudioSource_by_name (name : string) : option AudioSource :=
  find (fun m => String.eqb (AudioSource_name m) name) AudioSource_members.

Definition AUD_SRC_CMD_MAPPING (source : AudioSource) : Z :=
  match source with
  | BLUETOOTH => 0x0C
  | AUX => 0x0D
  | RCA => 0x0E
  end.

Definition CMD_MAPPING (key : string) : option Z :=
  if String.eqb key "pause" then Some 0x00
  else if String.eqb key "play" then Some 0x01
  else if String.eqb key "previous" then Some 0x02
  else if String.eqb key "next" then Some 0x03
  else if String.eqb key "disable_interation_sound" then Some 0x10
  else if String.eqb key "enable_interation_sound" then Some 0x11
  else None.

End Typings.

Import Typings.

(* ================================================================== *)
(** ** The two transports                                              *)
(* ================================================================== *)

Module Transport.

(** What the bridge does to the outside, in the order it does it. *)
Inductive Event : Type :=
| GattConnect
| GattDisconnect
| GattStartNotify (characteristic : string)
| GattRead (characteristic : string)
| GattWrite (characteristic : string) (data : bytes)
| Published (topic : string) (payload : option string) (retain : bool)
| Slept.

(** The BLE client library ([BleakClient]) as an interface: what a device
    answers on a read, how a write changes it, and the calls that can
    fail.  The repository does not contain it. *)
Class GattClient (Dev : Type) : Type := {
  read_gatt_char : string -> Dev -> bytes;
  write_gatt_char : string -> bytes -> Dev -> Dev;
  start_notify : string -> M Dev unit;
  client_aenter : M Dev unit;
  client_aexit : M Dev unit
}.

(** The device behind the client, and the trace of calls made so far. *)
Record World (Dev : Type) : Type := mkWorld {
  device : Dev;
  trace : list Event
}.

Arguments mkWorld {Dev} device trace.
Arguments device {Dev} w.
Arguments trace {Dev} w.

Definition emit {Dev} (ev : Event) : M (World Dev) unit :=
  modify (fun w => mkWorld (device w) (trace w ++ [ev])).

(** Run a device computation inside the world. *)
Definition on_device {Dev A} (m : M Dev A) : M (World Dev) A :=
  fun w => match m (device w) with
           | Ok a d => Ok a (mkWorld d (trace w))
           | Raise e d => Raise e (mkWorld d (trace w))
           end.

End Transport.

Import Transport.

(* ================================================================== *)
(** ** ble.py: class MarshallStanmore2                                 *)
(* ================================================================== *)

Module Ble.

Definition volume_characteristic : string :=
  "44fa-50b2-d0a3-472e-a939-d80c-f176-38bb".
Definition control_characteristic : string :=
  "4446-cf5f-12f2-4c1e-afe1-b157-9753-5ba8".
Definition led_brightness_characteristic : string :=
  "35e3-b090-1d43-35ae-af35-d254-b153-fc36".
Definition device_name_characteristic : string :=
  "3ba9-1c2e-8b08-4c27-9d4e-4936-a793-fcfb".
Definition eq_characteristic : string :=
  "31fb-b033-1013-bd3e-a249-d856-f156-a319".
Definition pairing_characteristic : string :=
  "4a75-c20f-13bd-44a1-b39d-a70f-86f6-07a2".
Definition media_info_characteristic : string :=
  "95c0-9f26-95a4-4597-a798-b8e4-08f5-ca66".

Definition _media_info_ending_bytes : bytes :=
  [x00; x00; x00; xff; x00; x00; x00; x00].

(** *** Registries, notification handlers, reassembler

    The registered handlers act on a state [W] of their own; they cannot
    reach the registries or the reassembly buffer.  Handlers that call
    back into the registry that dispatches them are in [Reentrant]
    below. *)

Section Callbacks.

Variable W : Type.

Definition VolumeCallback : Type := Z -> M W unit.
Definition MediaInfoCallback : Type := MediaInfo -> M W unit.
Definition DisconnectCallback : Type := unit -> M W unit.
Definition StatusCallback : Type := Status -> M W unit.
Definition EqualizerCallback : Type := EqProfile -> M W unit.

Record MarshallStanmore2 : Type := mkSpeaker {
  _volume_change_callbacks : OrderedDict VolumeCallback;
  _media_info_callbacks : OrderedDict MediaInfoCallback;
  _disconnect_callbacks : OrderedDict DisconnectCallback;
  _status_callbacks : OrderedDict StatusCallback;
  _equalizer_callbacks : OrderedDict EqualizerCallback;
  _media_info_buffer : bytes
}.

(** [__init__]: five empty registries and an empty [BytesIO]. *)
Definition __init__ : MarshallStanmore2 := mkSpeaker [] [] [] [] [] [].

Definition set_volume_change_callbacks d (self : MarshallStanmore2) :=
  mkSpeaker d (_media_info_callbacks self) (_disconnect_callbacks self)
    (_status_callbacks self) (_equalizer_callbacks self)
    (_media_info_buffer self).

Definition set_media_info_callbacks d (self : MarshallStanmore2) :=
  mkSpeaker (_volume_change_callbacks self) d (_disconnect_callbacks self)
    (_status_callbacks self) (_equalizer_callbacks self)
    (_media_info_buffer self).

Definition set_disconnect_callbacks d (self : MarshallStanmore2) :=
  mkSpeaker (_volume_change_callbacks self) (_media_info_callbacks self) d
    (_status_callbacks self) (_equalizer_callbacks self)
    (_media_info_buffer self).

Definition set_status_callbacks d (self : MarshallStanmore2) :=
  mkSpeaker (_volume_change_callbacks self) (_media_info_callbacks self)
    (_disconnect_callbacks self) d (_equalizer_callbacks self)
    (_media_info_buffer self).

Definition set_equalizer_callbacks d (self : MarshallStanmore2) :=
  mkSpeaker (_volume_change_callbacks self) (_media_info_callbacks self)
    (_disconnect_callbacks self) (_status_callbacks self) d
    (_media_info_buffer self).

Definition set_media_info_buffer b (self : MarshallStanmore2) :=
  mkSpeaker (_volume_change_callbacks self) (_media_info_callbacks self)
    (_disconnect_callbacks self) (_status_callbacks self)
    (_equalizer_callbacks self) b.

(** The loop every notification handler ends with:
    [for callback in registry.values(): callback(args)], on handlers that
    make no call to the registry; [dispatch_live] below is the loop on
    handlers that do. *)
Definition dispatch {A} (registry : OrderedDict (A -> M W unit)) (args : A)
  : M W unit :=
  for_each (values registry) (fun callback => callback args).

Definition _on_volume_change (self : MarshallStanmore2) (data : bytes)
  : M W unit :=
  b <- or_raise (getitem data 0) IndexError ;;
  dispatch (_volume_change_callbacks self) (int_of_byte b).

Definition _decode_status {S} (data : bytes) : M S Status :=
  src <- or_raise (getitem data SOURCE) IndexError ;;
  audio_source <- or_raise (INT_AUD_SRC_MAPPING (int_of_byte src)) KeyError ;;
  play <- or_raise (getitem data PLAY_STATUS) IndexError ;;
  play_status <- or_raise (INT_PLAY_STATUS_MAPPING (int_of_byte play)) KeyError ;;
  sound <- or_raise (getitem data INTERATION_SOUND) IndexError ;;
  ret (mkStatus audio_source play_status (int_of_byte sound =? 1)).

Definition _on_status_change (self : MarshallStanmore2) (data : bytes)
  : M W unit :=
  status <- _decode_status data ;;
  dispatch (_status_callbacks self) status.

Definition _on_disconnect (self : MarshallStanmore2) : M W unit :=
  dispatch (_disconnect_callbacks self) tt.

Definition _on_equalizer_change (self : MarshallStanmore2) (data : bytes)
  : M W unit :=
  eq <- EqProfile_new (map int_of_byte data) ;;
  dispatch (_equalizer_callbacks self) eq.

Definition _decode_index {S} (data : bytes) (offset : Z) : M S string :=
  let data_length_pos := offset + 7 in
  let data_start_pos := data_length_pos + 1 in
  data_length <- or_raise (getitem data data_length_pos) IndexError ;;
  decode (slice data data_start_pos (data_start_pos + int_of_byte data_length)).

(** The state of the reassembler's methods: the object and the state of
    the handlers. *)
Definition Self : Type := (MarshallStanmore2 * W)%type.

Definition _handle_media_info : M Self unit :=
  self <- get ;;
  let data := _media_info_buffer (fst self) in
  try_finally
    (title_start_pos <- bytes_index data [x00; x00; x00; x01; x00; x6a; x00] ;;
     title <- (if title_start_pos =? -1 then ret None
               else (t <- _decode_index data title_start_pos ;; ret (Some t))) ;;
     artist_start_pos <- bytes_index data [x00; x00; x00; x02; x00; x6a; x00] ;;
     artist <- (if artist_start_pos =? -1 then ret None
                else (t <- _decode_index data artist_start_pos ;; ret (Some t))) ;;
     album_start_pos <- bytes_index data [x00; x00; x00; x03; x00; x6a; x00] ;;
     album <- (if album_start_pos =? -1 then ret None
               else (t <- _decode_index data album_start_pos ;; ret (Some t))) ;;
     let media_info := mkMediaInfo title artist album in
     on_snd (dispatch (_media_info_callbacks (fst self)) media_info))
    (modify (fun s : Self => (set_media_info_buffer [] (fst s), snd s))).

Definition _on_media_info (data : bytes) : M Self unit :=
  modify (fun s : Self =>
            (set_media_info_buffer (_media_info_buffer (fst s) ++ data) (fst s),
             snd s)) ;;
  if bytes_eqb (slice_from data (-8)) _media_info_ending_bytes
  then _handle_media_info
  else ret tt.

(** [_register_callback] and [_cancel_callback], on the registry that
    [getattr(self, attr)] selects. *)
Definition _register_callback {T} (callback : T) : M (OrderedDict T) Z :=
  callback_dict <- get ;;
  let callback_id :=
    match last_key callback_dict with
    | Some k => k + 1
    | None => 1
    end in
  put (setitem callback_dict callback_id callback) ;;
  ret callback_id.

Definition _cancel_callback {T} (callback_id : Z) : M (OrderedDict T) unit :=
  callback_dict <- get ;;
  match delitem callback_dict callback_id with
  | Some d => put d
  | None => raise InvalidCallbackID
  end.

(** [getattr(self, attr)] for one of the five registry attributes. *)
Definition on_attr {T A} (attr : MarshallStanmore2 -> OrderedDict T)
  (set_attr : OrderedDict T -> MarshallStanmore2 -> MarshallStanmore2)
  (m : M (OrderedDict T) A) : M MarshallStanmore2 A :=
  fun self => match m (attr self) with
              | Ok a d => Ok a (set_attr d self)
              | Raise e d => Raise e (set_attr d self)
              end.

Definition register_disconnect_callback (callback : DisconnectCallback) :=
  on_attr _disconnect_callbacks set_disconnect_callbacks
    (_register_callback callback).

Definition cancel_disconnect_callback (callback_id : Z) :=
  on_attr _disconnect_callbacks set_disconnect_callbacks
    (_cancel_callback callback_id).

Definition register_status_callback (callback : StatusCallback) :=
  on_attr _status_callbacks set_status_callbacks (_register_callback callback).

Definition cancel_status_callback (callback_id : Z) :=
  on_attr _status_callbacks set_status_callbacks (_cancel_callback callback_id).

Definition register_volume_callback (callback : VolumeCallback) :=
  on_attr _volume_change_callbacks set_volume_change_callbacks
    (_register_callback callback).

Definition cancel_volume_callback (callback_id : Z) :=
  on_attr _volume_change_callbacks set_volume_change_callbacks
    (_cancel_callback callback_id).

Definition register_equalizer_callback (callback : EqualizerCallback) :=
  on_attr _equalizer_callbacks set_equalizer_callbacks
    (_register_callback callback).

Definition cancel_equalizer_callback (callback_id : Z) :=
  on_attr _equalizer_callbacks set_equalizer_callbacks
    (_cancel_callback callback_id).

Definition register_media_info_callback (callback : MediaInfoCallback) :=
  on_attr _media_info_callbacks set_media_info_callbacks
    (_register_callback callback).

Definition cancel_media_info_callback (callback_id : Z) :=
  on_attr _media_info_callbacks set_media_info_callbacks
    (_cancel_callback callback_id).

End Callbacks.

(** *** Handlers that call back into their registry

    A registered callback is code of the library's user: it may call
    [register_*_callback] or [cancel_*_callback] on the registry that is
    dispatching it.  [dispatch] above takes handlers that act on the
    outside state [W] alone.  Here a handler is given the IDs registered
    when it is called and reports, next to its outcome on [W], the registry
    calls it made, in order.

    The loop [for callback in registry.values(): callback(args)] iterates
    the live [OrderedDict]: before each step after the first the iterator
    compares the dictionary's modification state with the one it started
    from and raises [RuntimeError] when they differ; it fetches the value
    under the next key at that moment; and once it has handed out the last
    key it ends without a further comparison. *)

Section Reentrant.

Variables W A : Type.

Inductive RegistryCall (H : Type) : Type :=
| CallRegister (callback : H)
| CallCancel (callback_id : Z).

Arguments CallCancel {H} callback_id.

#[local] Set Warnings "-register-all".

Inductive Handler : Type :=
| Handle (run : A -> list Z -> W
                -> Result W unit * list (RegistryCall Handler)).

(** A handler that makes no registry call. *)
Definition plain (callback : A -> M W unit) : Handler :=
  Handle (fun args _ w => (callback args w, [])).

(** [d[k]]; [None] is [KeyError]. *)
Definition dict_get {T} (d : OrderedDict T) (k : Z) : option T :=
  option_map snd (find (fun kv => fst kv =? k) d).

(** The registry after the calls a handler made, and whether its
    modification state changed: it does when a key is added or removed,
    not when a cancel raises [InvalidCallbackID] or a present key is
    assigned again. *)
Fixpoint apply_calls (calls : list (RegistryCall Handler))
  (d : OrderedDict Handler) : OrderedDict Handler * bool :=
  match calls with
  | [] => (d, false)
  | CallRegister callback :: rest =>
      match _register_callback callback d with
      | Ok callback_id d1 =>
          let (d', changed) := apply_calls rest d1 in
          (d', negb (contains d callback_id) || changed)
      | Raise _ d1 => apply_calls rest d1
      end
  | CallCancel callback_id :: rest =>
      match _cancel_callback callback_id d with
      | Ok _ d1 => let (d', _) := apply_calls rest d1 in (d', true)
      | Raise _ d1 => apply_calls rest d1
      end
  end.

(** The iteration from the keys still to hand out. *)
Fixpoint iterate (pending : list Z) (args : A) (d : OrderedDict Handler)
  (w : W) : Result (OrderedDict Handler * W) unit :=
  match pending with
  | [] => Ok tt (d, w)
  | k :: rest =>
      match dict_get d k with
      | None => Raise KeyError (d, w)
      | Some (Handle run) =>
          let (r, calls) := run args (keys d) w in
          let (d', changed) := apply_calls calls d in
          match r with
          | Raise e w' => Raise e (d', w')
          | Ok _ w' =>
              match rest with
              | [] => Ok tt (d', w')
              | _ :: _ =>
                  if changed then Raise RuntimeError (d', w')
                  else iterate rest args d' w'
              end
          end
      end
  end.

(** The loop on the pair of the registry and the outside state. *)
Definition dispatch_live (args : A) : M (OrderedDict Handler * W) unit :=
  fun s => iterate (keys (fst s)) args (fst s) (snd s).

End Reentrant.

Arguments CallCancel {H} callback_id.

(** *** Operations on the connected client *)

Section Client.

Context {Dev : Type} `{GattClient Dev}.

Definition client_read (characteristic : string) : M (World Dev) bytes :=
  emit (GattRead characteristic) ;;
  w <- get ;;
  ret (read_gatt_char characteristic (device w)).

Definition client_write (characteristic : string) (data : bytes)
  : M (World Dev) unit :=
  emit (GattWrite characteristic data) ;;
  modify (fun w => mkWorld (write_gatt_char characteristic data (device w))
                     (trace w)).

Definition client_start_notify (characteristic : string) : M (World Dev) unit :=
  emit (GattStartNotify characteristic) ;;
  on_device (start_notify characteristic).

(** [__aenter__].  The bare [except:] clause awaits the client's
    [__aexit__] and does not raise again, so control reaches
    [return self]. *)
Definition __aenter__ : M (World Dev) unit :=
  emit GattConnect ;;
  on_device client_aenter ;;
  try_except
    (client_start_notify control_characteristic ;;
     client_start_notify volume_characteristic ;;
     client_start_notify media_info_characteristic ;;
     client_start_notify eq_characteristic)
    (fun _ => true)
    (fun _ => emit GattDisconnect ;; on_device client_aexit) ;;
  ret tt.

Definition __aexit__ : M (World Dev) unit :=
  emit GattDisconnect ;;
  on_device client_aexit.

Definition set_volume (volume : Z) : M (World Dev) unit :=
  if negb ((0 <=? volume) && (volume <=? 32)) then raise InvalidVolume
  else
    data <- or_raise (bytearray_of_ints [volume]) ValueError ;;
    client_write volume_characteristic data.

Definition get_volume : M (World Dev) Z :=
  data <- client_read volume_characteristic ;;
  b <- or_raise (getitem data 0) IndexError ;;
  ret (int_of_byte b).

Definition set_led_brightness (brightness : Z) : M (World Dev) unit :=
  if negb ((0 <=? brightness) && (brightness <=? 35))
  then raise InvalidLedBrightness
  else
    let actual_brightness := brightness + 35 in
    data <- or_raise (bytearray_of_ints [actual_brightness]) ValueError ;;
    client_write led_brightness_characteristic data.

Definition get_led_brightness : M (World Dev) Z :=
  data <- client_read led_brightness_characteristic ;;
  b <- or_raise (getitem data 0) IndexError ;;
  ret (int_of_byte b - 35).

Definition set_equaliser_profile (profile : EqProfile) : M (World Dev) unit :=
  data <- or_raise (bytearray_of_ints (astuple profile)) ValueError ;;
  client_write eq_characteristic data.

Definition get_equaliser_profile : M (World Dev) EqProfile :=
  data <- client_read eq_characteristic ;;
  EqProfile_new (map int_of_byte data).

Definition set_equaliser_preset (preset : EqPreset) : M (World Dev) unit :=
  set_equaliser_profile (EqPreset_value preset).

Definition get_equaliser_preset : M (World Dev) (option EqPreset) :=
  profile <- get_equaliser_profile ;;
  ret (EqPreset_of_value profile).

Definition get_status : M (World Dev) Status :=
  data <- client_read control_characteristic ;;
  _decode_status data.

Definition _send_command (cmd_int : Z) : M (World Dev) unit :=
  buffer <- or_raise (bytearray_of_ints [cmd_int]) ValueError ;;
  client_write control_characteristic buffer.

Definition set_source (source : AudioSource) : M (World Dev) unit :=
  let cmd_int := AUD_SRC_CMD_MAPPING source in
  _send_command cmd_int.

Definition next : M (World Dev) unit :=
  cmd_int <- or_raise (CMD_MAPPING "next") KeyError ;;
  _send_command cmd_int.

Definition previous : M (World Dev) unit :=
  cmd_int <- or_raise (CMD_MAPPING "previous") KeyError ;;
  _send_command cmd_int.

Definition play : M (World Dev) unit :=
  cmd_int <- or_raise (CMD_MAPPING "play") KeyError ;;
  _send_command cmd_int.

Definition pause : M (World Dev) unit :=
  cmd_int <- or_raise (CMD_MAPPING "pause") KeyError ;;
  _send_command cmd_int.

Definition set_interaction_sound (enabled : bool) : M (World Dev) unit :=
  let action :=
    (if enabled then "enable_interation_sound"
     else "disable_interation_sound")%string in
  cmd_int <- or_raise (CMD_MAPPING action) KeyError ;;
  _send_command cmd_int.

Definition set_device_name (name : string) : M (World Dev) unit :=
  let encoded := encode name in
  if negb ((0 <? len encoded) && (len encoded <=? 17))
  then raise InvalidDeviceName
  else
    data <- or_raise
              (bytearray_of_ints (0x01 :: len encoded :: map int_of_byte encoded))
              ValueError ;;
    client_write device_name_characteristic data.

Definition get_device_name : M (World Dev) string :=
  data <- client_read device_name_characteristic ;;
  decode (slice_from data 2).

Definition enter_pairing_mode : M (World Dev) unit :=
  data <- or_raise (bytearray_of_ints [0]) ValueError ;;
  client_write pairing_characteristic data.

End Client.

End Ble.

Import Ble.

(* ================================================================== *)
(** ** mqtt.py: class MqttControl                                      *)
(* ================================================================== *)

Module Mqtt.

Definition _preset_to_str (preset : option EqPreset) : string :=
  match preset with
  | Some p => lower (EqPreset_name p)
  | None => "custom"
  end.

Definition _profile_to_str (eq_profile : EqProfile) : string :=
  String.concat " " (map str_of_int (astuple eq_profile)).

(** The configuration fields of [MqttControl]. *)
Record MqttControl : Type := mkMqttControl {
  _topic_prefix : string;
  _mqtt_retain : bool;
  _allow_pairing : bool
}.

Definition topic (self : MqttControl) (topic_name : string) : string :=
  (_topic_prefix self ++ "/" ++ topic_name)%string.

(** The coroutine objects that the event handlers hand to [_add_task]. *)
Inductive Coroutine : Type :=
| Coro_publish (topic : string) (payload : option string) (retain : option bool)
| Coro_publish_eq_profile (eq_profile : EqProfile)
| Coro_publish_eq_preset (eq_preset : option EqPreset)
| Coro_publish_status (status : Status).

(** The tasks of the running event loop, oldest first. *)
Definition Loop : Type := list Coroutine.

Definition _add_task (coro : Coroutine) : M Loop unit :=
  modify (fun loop => loop ++ [coro]).

Definition _sync_publish (self : MqttControl) (topic : string)
  (payload : option string) : M Loop unit :=
  _add_task (Coro_publish topic payload None).

Definition _ble_disconnect_callback (self : MqttControl) (_ : unit)
  : M Loop unit :=
  raise (SystemExit 1).

Definition _ble_equalizer_callback (self : MqttControl) (eq_profile : EqProfile)
  : M Loop unit :=
  _add_task (Coro_publish_eq_profile eq_profile) ;;
  let eq_preset := EqPreset_of_value eq_profile in
  _add_task (Coro_publish_eq_preset eq_preset).

Definition _ble_status_callback (self : MqttControl) (status : Status)
  : M Loop unit :=
  _add_task (Coro_publish_status status).

Definition _ble_volume_callback (self : MqttControl) (volume : Z)
  : M Loop unit :=
  _sync_publish self (topic self "info/volume") (Some (str_of_int volume)).

Definition _ble_media_info_callback (self : MqttControl) (media_info : MediaInfo)
  : M Loop unit :=
  _sync_publish self (topic self "info/media/title") (title media_info) ;;
  _sync_publish self (topic self "info/media/artist") (artist media_info) ;;
  _sync_publish self (topic self "info/media/album") (album media_info).

Definition _init_speaker (self : MqttControl)
  : M (MarshallStanmore2 Loop) unit :=
  register_disconnect_callback (_ble_disconnect_callback self) ;;
  register_equalizer_callback (_ble_equalizer_callback self) ;;
  register_volume_callback (_ble_volume_callback self) ;;
  register_status_callback (_ble_status_callback self) ;;
  register_volume_callback (_ble_volume_callback self) ;;
  register_media_info_callback (_ble_media_info_callback self) ;;
  ret tt.

Record Message : Type := mkMessage {
  message_topic : string;
  message_payload : bytes
}.

Section Router.

Context {Dev : Type} `{GattClient Dev}.

(** [Topic.matches] of the MQTT client library: does the topic of a
    message match a pattern. *)
Variable matches : string -> string -> bool.

Variable self : MqttControl.

Definition _publish (topic : string) (payload : option string)
  (retain : option bool) : M (World Dev) unit :=
  let retain :=
    match retain with
    | Some r => r
    | None => _mqtt_retain self
    end in
  emit (Published topic payload retain).

(** [asyncio.sleep(SLEEP_TIME_BEFORE_PUBLISHING_BACK)]. *)
Definition sleep : M (World Dev) unit := emit Slept.

Definition _publish_eq_preset (eq_preset : option EqPreset)
  : M (World Dev) unit :=
  let preset_name := _preset_to_str eq_preset in
  _publish (topic self "info/eq_preset") (Some preset_name) None.

Definition get_eq_preset : M (World Dev) unit :=
  eq_preset <- get_equaliser_preset ;;
  _publish_eq_preset eq_preset.

Definition _publish_individual_eq (hz_str : string) (value : Z)
  : M (World Dev) unit :=
  _publish (topic self ("info/eq_profile/" ++ hz_str ++ "hz")%string)
    (Some (str_of_int value)) None.

Definition _publish_eq_profile (eq_profile : EqProfile) : M (World Dev) unit :=
  let profile_str := _profile_to_str eq_profile in
  _publish (topic self "info/eq_profile") (Some profile_str) None ;;
  _publish_individual_eq "160" (hz160 eq_profile) ;;
  _publish_individual_eq "400" (hz400 eq_profile) ;;
  _publish_individual_eq "1000" (hz1000 eq_profile) ;;
  _publish_individual_eq "2500" (hz2500 eq_profile) ;;
  _publish_individual_eq "6250" (hz6250 eq_profile).

Definition get_eq_profile : M (World Dev) unit :=
  eq_profile <- get_equaliser_profile ;;
  _publish_eq_profile eq_profile.

Definition _publish_status (status : Status) : M (World Dev) unit :=
  _publish (topic self "info/play_status")
    (Some (lower (PlayStatus_name (play_status status)))) None ;;
  _publish (topic self "info/audio_source")
    (Some (lower (AudioSource_name (audio_source status)))) None ;;
  _publish (topic self "info/interaction_sound_enabled")
    (Some (str_of_int (if interaction_sound_enabled status then 1 else 0))) None.

Definition _set_individual_eq (hz_str : string) (value : bytes)
  : M (World Dev) unit :=
  eq_profile <- get_equaliser_profile ;;
  match int_of_bytes value with
  | None => ret tt
  | Some eq_value =>
      if negb ((0 <=? eq_value) && (eq_value <=? 10)) then ret tt
      else
        eq_profile <- setattr eq_profile ("hz" ++ hz_str)%string eq_value ;;
        set_equaliser_profile eq_profile ;;
        sleep ;;
        get_eq_profile ;;
        get_eq_preset
  end.

Definition set_eq_profile_individual (message : Message) : M (World Dev) unit :=
  if matches (message_topic message) (topic self "command/set_eq_profile/160hz")
  then _set_individual_eq "160" (message_payload message)
  else if matches (message_topic message) (topic self "command/set_eq_profile/400hz")
  then _set_individual_eq "400" (message_payload message)
  else if matches (message_topic message) (topic self "command/set_eq_profile/1000hz")
  then _set_individual_eq "1000" (message_payload message)
  else if matches (message_topic message) (topic self "command/set_eq_profile/2500hz")
  then _set_individual_eq "2500" (message_payload message)
  else if matches (message_topic message) (topic self "command/set_eq_profile/6250hz")
  then _set_individual_eq "6250" (message_payload message)
  else ret tt.

(** What a task of the loop does when the loop runs it. *)
Definition run_coroutine (coro : Coroutine) : M (World Dev) unit :=
  match coro with
  | Coro_publish topic payload retain => _publish topic payload retain
  | Coro_publish_eq_profile eq_profile => _publish_eq_profile eq_profile
  | Coro_publish_eq_preset eq_preset => _publish_eq_preset eq_preset
  | Coro_publish_status status => _publish_status status
  end.

(** The loop starts its tasks in creation order, and an exception stays
    in the task that raised it.  Here each task runs to its end before the
    next one starts; the event loop may switch to another task wherever a
    task awaits, so of the order of the events only the order within one
    task, and the order in which the tasks start, are the program's. *)
Definition run_loop (loop : Loop) : M (World Dev) unit :=
  for_each loop
    (fun coro => try_except (run_coroutine coro) (fun _ => true)
                   (fun _ => ret tt)).

End Router.

End Mqtt.

Import Mqtt.

(* ================================================================== *)
(** ** mqtt.py: the command handlers of MqttControl                    *)
(* ================================================================== *)

(** The handlers carry the names of the facade operations they call, so
    they live in a module of their own. *)
Module Commands.

Section Handlers.

Context {Dev : Type} `{GattClient Dev}.

Variable matches : string -> string -> bool.

(** [int(s)] for [s : str]; [None] is [ValueError].  On text outside ASCII
    it follows the Unicode tables of digits and white space, which are not
    part of this development. *)
Variable int_of_str : string -> option Z.

(** [s.upper()], which follows the Unicode case tables. *)
Variable upper : string -> string.

(** [wakeup].  Its body in [mqtt.py] is not well-formed (the line after
    its [if] is not indented), so it is left open. *)
Variable wakeup : M (World Dev) unit.

Variable self : MqttControl.

Definition get_volume : M (World Dev) unit :=
  volume <- Ble.get_volume ;;
  _publish self (topic self "info/volume") (Some (str_of_int volume)) None.

Definition set_volume (payload : bytes) : M (World Dev) unit :=
  try_except
    (payload_str <- decode payload ;;
     volume <- or_raise (int_of_str payload_str) ValueError ;;
     Ble.set_volume volume ;;
     sleep ;;
     get_volume)
    (fun e => is_ValueError e || is_InvalidVolume e)
    (fun _ => ret tt).

Definition set_eq_preset (name : bytes) : M (World Dev) unit :=
  found <- try_except
             (name_str <- decode name ;;
              preset <- or_raise (EqPreset_by_name (upper name_str)) KeyError ;;
              ret (Some preset))
             (fun e => is_ValueError e || is_KeyError e)
             (fun _ => ret None) ;;
  match found with
  | None => ret tt
  | Some preset =>
      set_equaliser_preset preset ;;
      sleep ;;
      get_eq_preset self ;;
      get_eq_profile self
  end.

Definition set_eq_profile (eq_profile_bytes : bytes) : M (World Dev) unit :=
  parsed <- try_except
              (profile_str <- decode eq_profile_bytes ;;
               let profile_str_split := split_space profile_str in
               if negb (len profile_str_split =? 5) then ret None
               else
                 eq_integers <- map_each profile_str_split
                                  (fun i => or_raise (int_of_str i) ValueError) ;;
                 profile <- EqProfile_new eq_integers ;;
                 ret (Some profile))
              is_ValueError
              (fun _ => ret None) ;;
  match parsed with
  | None => ret tt
  | Some profile =>
      set_equaliser_profile profile ;;
      sleep ;;
      get_eq_profile self ;;
      get_eq_preset self
  end.

Definition get_device_name : M (World Dev) unit :=
  name <- Ble.get_device_name ;;
  _publish self (topic self "info/device_name") (Some name) None.

Definition set_device_name (name_bytes : bytes) : M (World Dev) unit :=
  decoded <- try_except (name_str <- decode name_bytes ;; ret (Some name_str))
               is_ValueError (fun _ => ret None) ;;
  match decoded with
  | None => ret tt
  | Some name_str =>
      accepted <- try_except (Ble.set_device_name name_str ;; ret true)
                    is_InvalidDeviceName (fun _ => ret false) ;;
      if accepted then sleep ;; get_device_name else ret tt
  end.

Definition get_led_brightness : M (World Dev) unit :=
  brightness <- Ble.get_led_brightness ;;
  _publish self (topic self "info/led_brightness")
    (Some (str_of_int brightness)) None.

Definition set_led_brightness (brightness_bytes : bytes) : M (World Dev) unit :=
  accepted <- try_except
                (brightness_int <- or_raise (int_of_bytes brightness_bytes)
                                     ValueError ;;
                 Ble.set_led_brightness brightness_int ;;
                 ret true)
                (fun e => is_ValueError e || is_InvalidLedBrightness e)
                (fun _ => ret false) ;;
  if accepted then sleep ;; get_led_brightness else ret tt.

Definition get_status : M (World Dev) unit :=
  status <- Ble.get_status ;;
  _publish_status self status.

Definition play : M (World Dev) unit := Ble.play.

Definition pause : M (World Dev) unit := Ble.pause.

Definition next : M (World Dev) unit := Ble.next.

Definition previous : M (World Dev) unit := Ble.previous.

Definition set_interaction_sound (enabled_bytes : bytes) : M (World Dev) unit :=
  parsed <- try_except
              (enabled_bytes_str <- decode enabled_bytes ;;
               n <- or_raise (int_of_str enabled_bytes_str) ValueError ;;
               ret (Some (negb (n =? 0))))
              is_ValueError
              (fun _ => ret None) ;;
  match parsed with
  | None => ret tt
  | Some enabled_bool =>
      Ble.set_interaction_sound enabled_bool ;;
      sleep ;;
      get_status
  end.

Definition set_source (source_bytes : bytes) : M (World Dev) unit :=
  found <- try_except
             (source_str <- decode source_bytes ;;
              source <- or_raise (AudioSource_by_name (upper source_str))
                          KeyError ;;
              ret (Some source))
             (fun e => is_ValueError e || is_KeyError e)
             (fun _ => ret None) ;;
  match found with
  | None => ret tt
  | Some source =>
      Ble.set_source source ;;
      sleep ;;
      get_status
  end.

Definition enter_pairing_mode : M (World Dev) unit := Ble.enter_pairing_mode.

(** [message.topic.matches(self.topic(topic_name))]. *)
Definition at_ (message : Message) (topic_name : string) : bool :=
  matches (message_topic message) (topic self topic_name).

Definition _handle_command (message : Message) : M (World Dev) unit :=
  if at_ message "command/set_volume" then set_volume (message_payload message)
  else if at_ message "command/get_volume" then get_volume
  else if at_ message "command/set_eq_preset" then set_eq_preset (message_payload message)
  else if at_ message "command/get_eq_preset" then get_eq_preset self
  else if at_ message "command/set_eq_profile" then set_eq_profile (message_payload message)
  else if at_ message "command/set_eq_profile/+" then set_eq_profile_individual matches self message
  else if at_ message "command/get_eq_profile" then get_eq_profile self
  else if at_ message "command/set_device_name" then set_device_name (message_payload message)
  else if at_ message "command/get_device_name" then get_device_name
  else if at_ message "command/set_led_brightness" then set_led_brightness (message_payload message)
  else if at_ message "command/get_led_brightness" then get_led_brightness
  else if at_ message "command/play" then play
  else if at_ message "command/pause" then pause
  else if at_ message "command/next" then next
  else if at_ message "command/previous" then previous
  else if at_ message "command/set_interaction_sound" then set_interaction_sound (message_payload message)
  else if at_ message "command/get_status" then get_status
  else if at_ message "command/set_source" then set_source (message_payload message)
  else if at_ message "command/wakeup" then wakeup
  else if _allow_pairing self && at_ message "command/enter_pairing_mode"
  then enter_pairing_mode
  else ret tt.

End Handlers.

End Commands.

(* ================================================================== *)
(** ** A simulated speaker                                             *)
(* ================================================================== *)

Module Sim.

(** A device that stores what is written to a characteristic and answers
    a read with what it stores, and that refuses the subscriptions listed
    in [refused]. *)
Record Device : Type := mkDevice {
  connected : bool;
  notifying : list string;
  stored : list (string * bytes);
  refused : list string
}.

Fixpoint lookup (c : string) (l : list (string * bytes)) : bytes :=
  match l with
  | [] => []
  | (c', data) :: rest => if String.eqb c' c then data else lookup c rest
  end.

Definition sim_read (c : string) (d : Device) : bytes := lookup c (stored d).

Definition sim_write (c : string) (data : bytes) (d : Device) : Device :=
  mkDevice (connected d) (notifying d) ((c, data) :: stored d) (refused d).

Definition sim_start_notify (c : string) : M Device unit :=
  fun d =>
    if existsb (String.eqb c) (refused d) then Raise TransportError d
    else Ok tt (mkDevice (connected d) (notifying d ++ [c]) (stored d)
                  (refused d)).

Definition sim_aenter : M Device unit :=
  fun d => Ok tt (mkDevice true (notifying d) (stored d) (refused d)).

Definition sim_aexit : M Device unit :=
  fun d => Ok tt (mkDevice false [] (stored d) (refused d)).

#[global] Instance sim_client : GattClient Device := {
  read_gatt_char := sim_read;
  write_gatt_char := sim_write;
  start_notify := sim_start_notify;
  client_aenter := sim_aenter;
  client_aexit := sim_aexit
}.

(** A speaker that is switched on and not yet connected. *)
Definition fresh (stored : list (string * bytes)) (refused : list string)
  : World Device :=
  mkWorld (mkDevice false [] stored refused) [].

End Sim.

(* ================================================================== *)
(** ** Vocabulary of the stated properties                             *)
(* ================================================================== *)

Module Props.

(** *** Callback registries *)

Inductive RegistryOp (T : Type) : Type :=
| Register (callback : T)
| Cancel (callback_id : Z).

Arguments Cancel {T} callback_id.

Inductive RegistryEvent : Type :=
| Issued (callback_id : Z)
| Cancelled (callback_id : Z)
| Rejected (callback_id : Z).

(** Apply a sequence of register and cancel calls to a registry; a cancel
    that raises [InvalidCallbackID] is recorded and the sequence goes on.
    The result is the registry reached and the history of the calls. *)
Fixpoint run_ops {T} (ops : list (RegistryOp T)) (d : OrderedDict T)
  : OrderedDict T * list RegistryEvent :=
  match ops with
  | [] => (d, [])
  | Register callback :: rest =>
      let r := _register_callback callback d in
      let (d', h) := run_ops rest (state_of r) in
      match r with
      | Ok callback_id _ => (d', Issued callback_id :: h)
      | Raise _ _ => (d', h)
      end
  | Cancel callback_id :: rest =>
      let r := _cancel_callback callback_id d in
      let (d', h) := run_ops rest (state_of r) in
      match r with
      | Ok _ _ => (d', Cancelled callback_id :: h)
      | Raise _ _ => (d', Rejected callback_id :: h)
      end
  end.

(** Some ID is issued, later cancelled, and later issued again. *)
Definition reused_after_cancel (h : list RegistryEvent) : Prop :=
  exists i h1 h2 h3 h4,
    h = h1 ++ Issued i :: h2 ++ Cancelled i :: h3 ++ Issued i :: h4.

(** The keys of a registry are positive and increase along the insertion
    order. *)
Definition registry_wf {T} (d : OrderedDict T) : Prop :=
  StronglySorted Z.lt (keys d) /\ Forall (fun k => 1 <= k) (keys d).

(** *** Dispatch *)

(** Dispatch as the specification words it: every handler is invoked, in
    order, and a handler that raises does not stop the ones after it.
    The result is the state the handlers leave. *)
Fixpoint dispatch_isolated {W A} (handlers : list (A -> M W unit)) (args : A)
  (w : W) : W :=
  match handlers with
  | [] => w
  | h :: rest => dispatch_isolated rest args (state_of (h args w))
  end.

(** The handlers of a list are called in order with the same arguments,
    each on the state the previous one left, and each returns without
    changing the registry [d]. *)
Inductive returns_quietly {W A} (args : A) (d : OrderedDict (Handler W A))
  : list (Handler W A) -> W -> W -> Prop :=
| quiet_nil w : returns_quietly args d [] w w
| quiet_cons run rest w w1 w2 calls :
    run args (keys d) w = (Ok tt w1, calls) ->
    apply_calls calls d = (d, false) ->
    returns_quietly args d rest w1 w2 ->
    returns_quietly args d (Handle run :: rest) w w2.

(** A registry of handlers that make no registry call. *)
Definition lift {W A} (registry : OrderedDict (A -> M W unit))
  : OrderedDict (Handler W A) :=
  map (fun kv => (fst kv, plain (snd kv))) registry.

(** The outcome on the outside state alone. *)
Definition outside {R W} (r : Result (R * W) unit) : Result W unit :=
  match r with
  | Ok a s => Ok a (snd s)
  | Raise e s => Raise e (snd s)
  end.

(** A handler that records its own tag and its argument. *)
Definition recording {A} (tag : nat) (args : A) : M (list (nat * A)) unit :=
  modify (fun log => log ++ [(tag, args)]).

(** A handler that raises. *)
Definition failing {W A} (tag : nat) (_ : A) : M W unit :=
  raise (HandlerError tag).

(** A handler that records its call and cancels a registration of the
    registry that dispatches it. *)
Definition cancelling {A} (tag : nat) (callback_id : Z) (args : A)
  (_ : list Z) (log : list (nat * A))
  : Result (list (nat * A)) unit
    * list (RegistryCall (Handler (list (nat * A)) A)) :=
  (Ok tt (log ++ [(tag, args)]), [CallCancel callback_id]).

(** *** Equalizer bands *)

Inductive Band : Type := B160 | B400 | B1000 | B2500 | B6250.

Definition all_bands : list Band := [B160; B400; B1000; B2500; B6250].

Definition hz_str (b : Band) : string :=
  match b with
  | B160 => "160"
  | B400 => "400"
  | B1000 => "1000"
  | B2500 => "2500"
  | B6250 => "6250"
  end.

Definition band_value (b : Band) (p : EqProfile) : Z :=
  match b with
  | B160 => hz160 p
  | B400 => hz400 p
  | B1000 => hz1000 p
  | B2500 => hz2500 p
  | B6250 => hz6250 p
  end.

Definition Band_eqb (a b : Band) : bool :=
  match a, b with
  | B160, B160 | B400, B400 | B1000, B1000 | B2500, B2500 | B6250, B6250 => true
  | _, _ => false
  end.

(** The command address of a band, under the configured prefix. *)
Definition band_address (self : MqttControl) (b : Band) : string :=
  (_topic_prefix self ++ "/command/set_eq_profile/" ++ hz_str b ++ "hz")%string.

(** The band whose command address is the first that the topic of the
    message matches. *)
Definition addressed_band (matches : string -> string -> bool)
  (self : MqttControl) (message : Message) : option Band :=
  find (fun b => matches (message_topic message) (band_address self b))
    all_bands.

(** The profile with value [v] at one band and the values of [p] at the
    other four. *)
Definition with_band (band : Band) (v : Z) (p : EqProfile) : EqProfile :=
  match band with
  | B160 => mkEqProfile v (hz400 p) (hz1000 p) (hz2500 p) (hz6250 p)
  | B400 => mkEqProfile (hz160 p) v (hz1000 p) (hz2500 p) (hz6250 p)
  | B1000 => mkEqProfile (hz160 p) (hz400 p) v (hz2500 p) (hz6250 p)
  | B2500 => mkEqProfile (hz160 p) (hz400 p) (hz1000 p) v (hz6250 p)
  | B6250 => mkEqProfile (hz160 p) (hz400 p) (hz1000 p) (hz2500 p) v
  end.

(** The byte and the decimal text of a band value. *)
Definition band_byte (v : Z) : byte :=
  match v with
  | 1 => x01 | 2 => x02 | 3 => x03 | 4 => x04 | 5 => x05
  | 6 => x06 | 7 => x07 | 8 => x08 | 9 => x09 | 10 => x0a
  | _ => x00
  end.

Definition band_digits (v : Z) : string :=
  match v with
  | 0 => "0" | 1 => "1" | 2 => "2" | 3 => "3" | 4 => "4" | 5 => "5"
  | 6 => "6" | 7 => "7" | 8 => "8" | 9 => "9" | 10 => "10"
  | _ => ""
  end.

(** The five bytes of a profile on the equalizer characteristic. *)
Definition profile_bytes (p : EqProfile) : bytes :=
  [band_byte (hz160 p); band_byte (hz400 p); band_byte (hz1000 p);
   band_byte (hz2500 p); band_byte (hz6250 p)].

(** The line a profile is published as: its five values in band order,
    in decimal, with one space between them. *)
Definition profile_line (p : EqProfile) : string :=
  (band_digits (hz160 p) ++ " " ++ band_digits (hz400 p) ++ " "
   ++ band_digits (hz1000 p) ++ " " ++ band_digits (hz2500 p) ++ " "
   ++ band_digits (hz6250 p))%string.

Definition has_values (a b c d e : Z) (p : EqProfile) : bool :=
  (hz160 p =? a) && (hz400 p =? b) && (hz1000 p =? c) && (hz2500 p =? d)
  && (hz6250 p =? e).

(** The label a profile is published under: the lower-case name of the
    preset that has exactly its values, or "custom". *)
Definition preset_label (p : EqProfile) : string :=
  if has_values 5 5 5 5 5 p then "flat"
  else if has_values 8 6 3 5 7 p then "rock"
  else if has_values 8 3 5 7 8 p then "metal"
  else if has_values 6 7 8 4 5 p then "pop"
  else if has_values 8 7 6 5 5 p then "hiphop"
  else if has_values 7 4 4 7 6 p then "electronic"
  else if has_values 4 7 5 4 5 p then "jazz"
  else "custom".

(** The events of republishing profile [p], written out: a read, the
    profile line and the five band values at their addresses, a further
    read, and the preset label. *)
Definition republished (self : MqttControl) (p : EqProfile) : list Event :=
  [ GattRead eq_characteristic;
    Published (_topic_prefix self ++ "/info/eq_profile")%string
      (Some (profile_line p))
      (_mqtt_retain self);
    Published (_topic_prefix self ++ "/info/eq_profile/160hz")%string
      (Some (band_digits (hz160 p)))
      (_mqtt_retain self);
    Published (_topic_prefix self ++ "/info/eq_profile/400hz")%string
      (Some (band_digits (hz400 p)))
      (_mqtt_retain self);
    Published (_topic_prefix self ++ "/info/eq_profile/1000hz")%string
      (Some (band_digits (hz1000 p)))
      (_mqtt_retain self);
    Published (_topic_prefix self ++ "/info/eq_profile/2500hz")%string
      (Some (band_digits (hz2500 p)))
      (_mqtt_retain self);
    Published (_topic_prefix self ++ "/info/eq_profile/6250hz")%string
      (Some (band_digits (hz6250 p)))
      (_mqtt_retain self);
    GattRead eq_characteristic;
    Published (_topic_prefix self ++ "/info/eq_preset")%string
      (Some (preset_label p))
      (_mqtt_retain self) ].

(** *** Media info *)

(** The three chunks of the specification's reassembler example. *)
Definition chunk_title : bytes :=
  [x00; x00; x00; x01; x00; x6a; x00; x05] ++ list_byte_of_string "hello".

Definition chunk_artist : bytes :=
  [x00; x00; x00; x02; x00; x6a; x00; x06] ++ list_byte_of_string "artist".

Definition chunk_sentinel : bytes :=
  [x00; x00; x00; xff; x00; x00; x00; x00].

(** The state in which [_on_media_info] tests the chunk: the chunk has
    been appended to the buffer. *)
Definition appended {W} (data : bytes) (s : Self W) : Self W :=
  (set_media_info_buffer (_media_info_buffer (fst s) ++ data) (fst s), snd s).

(** A media-info handler that records what it is given. *)
Definition collect (media_info : MediaInfo) : M (list MediaInfo) unit :=
  modify (fun log => log ++ [media_info]).

(** Feed chunks to the reassembler one after the other, as the transport
    does; an exception of one notification does not reach the next. *)
Fixpoint feed {W} (chunks : list bytes) (s : Self W) : Self W :=
  match chunks with
  | [] => s
  | chunk :: rest => feed rest (state_of (_on_media_info chunk s))
  end.

End Props.

Import Props.

(* ================================================================== *)
(** ** Vocabulary of the further properties                            *)
(* ================================================================== *)

Module Facts.

(** The operations of the facade that send one command code. *)
Inductive Command : Type :=
| DoPlay
| DoPause
| DoNext
| DoPrevious
| DoInteractionSound (enabled : bool)
| DoSource (source : AudioSource).

Definition run_command {Dev} `{GattClient Dev} (c : Command)
  : M (World Dev) unit :=
  match c with
  | DoPlay => play
  | DoPause => pause
  | DoNext => next
  | DoPrevious => previous
  | DoInteractionSound enabled => set_interaction_sound enabled
  | DoSource source => set_source source
  end.

(** The byte each operation is expected to put on the wire. *)
Definition command_byte (c : Command) : byte :=
  match c with
  | DoPause => x00
  | DoPlay => x01
  | DoPrevious => x02
  | DoNext => x03
  | DoInteractionSound false => x10
  | DoInteractionSound true => x11
  | DoSource BLUETOOTH => x0c
  | DoSource AUX => x0d
  | DoSource RCA => x0e
  end.

(** The codes of a status value: the audio source in its first byte and
    the play status in its second. *)
Definition source_of_code (b : byte) : option AudioSource :=
  match b with
  | x03 => Some BLUETOOTH
  | x01 => Some AUX
  | x04 => Some RCA
  | _ => None
  end.

Definition play_of_code (b : byte) : option PlayStatus :=
  match b with
  | x00 => Some PLAYING
  | x01 => Some PAUSED
  | x02 => Some STOPPED
  | _ => None
  end.

(** The command addresses of the router other than
    [command/enter_pairing_mode], in the order it tests them. *)
Definition routed_addresses : list string :=
  [ "command/set_volume"; "command/get_volume"; "command/set_eq_preset";
    "command/get_eq_preset"; "command/set_eq_profile";
    "command/set_eq_profile/+"; "command/get_eq_profile";
    "command/set_device_name"; "command/get_device_name";
    "command/set_led_brightness"; "command/get_led_brightness";
    "command/play"; "command/pause"; "command/next"; "command/previous";
    "command/set_interaction_sound"; "command/get_status";
    "command/set_source"; "command/wakeup" ]%string.

(** The world after one more transport call or publication. *)
Definition logged {Dev} (w : World Dev) (events : list Event) : World Dev :=
  mkWorld (device w) (trace w ++ events).

(** The world after a write of [data] to [characteristic], followed by
    further events. *)
Definition written {Dev} `{GattClient Dev} (w : World Dev)
  (characteristic : string) (data : bytes) (events : list Event) : World Dev :=
  mkWorld (write_gatt_char characteristic data (device w))
    (trace w ++ GattWrite characteristic data :: events).

(** The registry that holds the handlers of [l] under the IDs [i], [i+1],
    and so on. *)
Fixpoint number_from {T} (i : Z) (l : list T) : OrderedDict T :=
  match l with
  | [] => []
  | x :: rest => (i, x) :: number_from (i + 1) rest
  end.

(** The marker of the media-info field [id], and a field: its marker, a
    length byte and the text. *)
Definition field_marker (id : byte) : bytes :=
  [x00; x00; x00; id; x00; x6a; x00].

Definition field (id : byte) (text : bytes) (n : byte) : bytes :=
  field_marker id ++ n :: text.

(** A text a field can carry so that it is read back: its length is in the
    length byte, it is UTF-8 and it holds no zero byte. *)
Definition field_text (text : bytes) (n : byte) : Prop :=
  int_of_byte n = len text
  /\ ~ In x00 text
  /\ utf8_ok 0 0x80 0xBF text = true.

(** The publications of a profile, in full and per band, and of its
    preset name. *)
Definition profile_publications (self : MqttControl) (p : EqProfile)
  : list Event :=
  [ Published (topic self "info/eq_profile") (Some (_profile_to_str p))
      (_mqtt_retain self);
    Published (topic self "info/eq_profile/160hz") (Some (str_of_int (hz160 p)))
      (_mqtt_retain self);
    Published (topic self "info/eq_profile/400hz") (Some (str_of_int (hz400 p)))
      (_mqtt_retain self);
    Published (topic self "info/eq_profile/1000hz") (Some (str_of_int (hz1000 p)))
      (_mqtt_retain self);
    Published (topic self "info/eq_profile/2500hz") (Some (str_of_int (hz2500 p)))
      (_mqtt_retain self);
    Published (topic self "info/eq_profile/6250hz") (Some (str_of_int (hz6250 p)))
      (_mqtt_retain self) ].


(** The same publications written out for a valid profile: the line of
    its five values, each value at the address of its band, and the
    lower-case preset name or "custom". *)
Definition profile_lines (self : MqttControl) (p : EqProfile) : list Event :=
  [ Published (_topic_prefix self ++ "/info/eq_profile")%string
      (Some (profile_line p)) (_mqtt_retain self);
    Published (_topic_prefix self ++ "/info/eq_profile/160hz")%string
      (Some (band_digits (hz160 p))) (_mqtt_retain self);
    Published (_topic_prefix self ++ "/info/eq_profile/400hz")%string
      (Some (band_digits (hz400 p))) (_mqtt_retain self);
    Published (_topic_prefix self ++ "/info/eq_profile/1000hz")%string
      (Some (band_digits (hz1000 p))) (_mqtt_retain self);
    Published (_topic_prefix self ++ "/info/eq_profile/2500hz")%string
      (Some (band_digits (hz2500 p))) (_mqtt_retain self);
    Published (_topic_prefix self ++ "/info/eq_profile/6250hz")%string
      (Some (band_digits (hz6250 p))) (_mqtt_retain self) ].

Definition preset_line (self : MqttControl) (p : EqProfile) : list Event :=
  [ Published (_topic_prefix self ++ "/info/eq_preset")%string
      (Some (preset_label p)) (_mqtt_retain self) ].



(** The three publications of a status. *)
Definition status_events (self : MqttControl) (status : Status) : list Event :=
  [ Published (topic self "info/play_status")
      (Some (lower (PlayStatus_name (play_status status)))) (_mqtt_retain self);
    Published (topic self "info/audio_source")
      (Some (lower (AudioSource_name (audio_source status)))) (_mqtt_retain self);
    Published (topic self "info/interaction_sound_enabled")
      (Some (if interaction_sound_enabled status then "1" else "0")%string)
      (_mqtt_retain self) ].

(** The three publications of a media info; a field that is [None] is
    published without payload. *)
Definition media_info_tasks (self : MqttControl) (media_info : MediaInfo)
  : list Coroutine :=
  [ Coro_publish (topic self "info/media/title") (title media_info) None;
    Coro_publish (topic self "info/media/artist") (artist media_info) None;
    Coro_publish (topic self "info/media/album") (album media_info) None ].

Definition media_info_publications (self : MqttControl) (media_info : MediaInfo)
  : list Event :=
  [ Published (topic self "info/media/title") (title media_info)
      (_mqtt_retain self);
    Published (topic self "info/media/artist") (artist media_info)
      (_mqtt_retain self);
    Published (topic self "info/media/album") (album media_info)
      (_mqtt_retain self) ].

(** No write to the pairing characteristic among the events. *)
Definition no_pairing_write (events : list Event) : Prop :=
  forall data : bytes, ~ In (GattWrite pairing_characteristic data) events.

(** A computation that adds no write to the pairing characteristic to the
    trace, whether it returns or raises. *)
Definition adds_no_pairing_write {Dev A} (m : M (World Dev) A) : Prop :=
  forall w : World Dev,
    no_pairing_write (trace w) -> no_pairing_write (trace (state_of (m w))).

(** [int] and [upper] on ASCII text, where they need no Unicode table:
    decimal digits with sign, underscores and white space; the letters a
    to z. *)
Definition int_of_ascii (s : string) : option Z :=
  int_of_bytes (list_byte_of_string s).

Definition upper_ascii_char (c : ascii) : ascii :=
  let n := nat_of_ascii c in
  if (Nat.leb 97 n && Nat.leb n 122)%bool then ascii_of_nat (n - 32) else c.

Fixpoint upper_ascii (s : string) : string :=
  match s with
  | EmptyString => EmptyString
  | String c rest => String (upper_ascii_char c) (upper_ascii rest)
  end.

(** The facade as [MqttControl.__init__] leaves it. *)
Definition initialised (self : MqttControl) : MarshallStanmore2 Loop :=
  state_of (_init_speaker self (__init__ _)).

End Facts.

Import Facts.

(* ================================================================== *)
(** ** The embedding on the specification's examples                   *)
(* ================================================================== *)

Example decode_status_example :
  _decode_status [x03; x01; xff; x01] tt = Ok (mkStatus BLUETOOTH PAUSED true) tt.
Proof. reflexivity. Qed.

Example decode_status_unknown_source :
  _decode_status [x07; x01; xff; x01] tt = Raise KeyError tt.
Proof. reflexivity. Qed.

Example int_of_bytes_examples :
  map int_of_bytes
    (map list_byte_of_string ["7"; " +1_0 "; "-007"; "1__0"; "7_"; "7 x"; ""; "0x7"])%string
  = [Some 7; Some 10; Some (-7); None; None; None; None; None].
Proof. reflexivity. Qed.

(** The conversion limit: 4300 digits are converted, 4301 are not, and
    leading zeros count. *)
Example int_of_bytes_digit_limit :
  int_of_bytes (repeat x30 4299%nat ++ [x37]) = Some 7
  /\ int_of_bytes (repeat x30 4300%nat ++ [x37]) = None
  /\ int_of_bytes (x2d :: repeat x39 4301%nat) = None.
Proof. vm_compute. repeat split. Qed.

Example decode_examples :
  decode (list_byte_of_string "hello") tt = Ok "hello"%string tt
  /\ decode [xc3; xa9] tt = Ok (string_of_list_byte [xc3; xa9]) tt
  /\ decode [xc3] tt = Raise UnicodeDecodeError tt
  /\ decode [xed; xa0; x80] tt = Raise UnicodeDecodeError tt.
Proof. repeat split. Qed.

Example preset_of_its_value (preset : EqPreset) :
  EqPreset_of_value (EqPreset_value preset) = Some preset.
Proof. destruct preset; reflexivity. Qed.

Example preset_of_custom_profile :
  EqPreset_of_value (mkEqProfile 7 5 5 5 5) = None
  /\ _preset_to_str (EqPreset_of_value (mkEqProfile 7 5 5 5 5)) = "custom"%string
  /\ _preset_to_str (EqPreset_of_value (mkEqProfile 8 6 3 5 7)) = "rock"%string.
Proof. repeat split. Qed.

Example registry_example :
  run_ops [Register tt; Register tt; Register tt; Cancel 2; Cancel 2; Register tt] []
  = ([(1, tt); (3, tt); (4, tt)],
     [Issued 1; Issued 2; Issued 3; Cancelled 2; Rejected 2; Issued 4]).
Proof. reflexivity. Qed.

(** The loop over a registry that its handlers change: a cancel by a
    handler that is not the last ends the dispatch with [RuntimeError]; a
    cancel or a registration by the last handler does not, and the handler
    registered then is not called; a handler that cancels and raises
    leaves with its own exception. *)
Example dispatch_live_examples :
  dispatch_live 7 ([(1, Handle (cancelling 1 2)); (2, plain (recording 2));
                    (3, plain (recording 3))], [])
  = Raise RuntimeError
      ([(1, Handle (cancelling 1 2)); (3, plain (recording 3))], [(1%nat, 7)])
  /\ dispatch_live 7 ([(1, plain (recording 1)); (2, Handle (cancelling 2 1))], [])
     = Ok tt ([(2, Handle (cancelling 2 1))], [(1%nat, 7); (2%nat, 7)])
  /\ dispatch_live 7
       ([(1, plain (recording 1));
         (2, Handle (fun _ _ log => (Ok tt log, [CallRegister (plain (recording 3))])))],
        [])
     = Ok tt
         ([(1, plain (recording 1));
           (2, Handle (fun _ _ log => (Ok tt log, [CallRegister (plain (recording 3))])));
           (3, plain (recording 3))],
          [(1%nat, 7)])
  /\ dispatch_live 7
       ([(1, Handle (fun _ _ log => (Raise (HandlerError 1) log, [CallCancel 2])));
         (2, plain (recording 2))],
        [])
     = Raise (HandlerError 1)
         ([(1, Handle (fun _ _ log => (Raise (HandlerError 1) log, [CallCancel 2])))],
          []).
Proof. repeat split. Qed.

Example no_sentinel_no_dispatch :
  feed [chunk_title; chunk_artist; chunk_title]
    (state_of (register_media_info_callback collect (__init__ _)), [])
  = (set_media_info_buffer (chunk_title ++ chunk_artist ++ chunk_title)
       (state_of (register_media_info_callback collect (__init__ _))), []).
Proof. reflexivity. Qed.

(* ================================================================== *)
(** ** Callback registries                                             *)
(* ================================================================== *)

Section RegistryFacts.

Variable T : Type.

Implicit Types d : OrderedDict T.

Lemma keys_app d1 d2 : keys (d1 ++ d2) = keys d1 ++ keys d2.
Proof. apply map_app. Qed.

Lemma last_key_snoc d k (v : T) : last_key (d ++ [(k, v)]) = Some k.
Proof. unfold last_key. now rewrite rev_app_distr. Qed.

Lemma contains_In d k : contains d k = true <-> In k (keys d).
Proof.
  unfold contains. rewrite existsb_exists. split.
  - intros (x & Hin & Heq). apply Z.eqb_eq in Heq. now subst.
  - intros Hin. exists k. split; [assumption | apply Z.eqb_refl].
Qed.

Lemma setitem_fresh d k (v : T) :
  ~ In k (keys d) -> setitem d k v = d ++ [(k, v)].
Proof.
  induction d as [| [k' v'] d IH]; simpl; intros Hnin.
  - reflexivity.
  - destruct (Z.eqb_spec k' k) as [-> | Hne].
    + exfalso. apply Hnin. now left.
    + f_equal. apply IH. intros Hin. apply Hnin. now right.
Qed.

Lemma sorted_snoc (l : list Z) (x : Z) :
  StronglySorted Z.lt l -> Forall (fun y => y < x) l ->
  StronglySorted Z.lt (l ++ [x]).
Proof.
  induction 1 as [| a l Hs IH Ha]; simpl; intros Hlt.
  - constructor; constructor.
  - inversion Hlt; subst. constructor.
    + now apply IH.
    + apply Forall_app. split; [assumption | now constructor].
Qed.

Lemma sorted_snoc_inv (l : list Z) (x : Z) :
  StronglySorted Z.lt (l ++ [x]) -> Forall (fun y => y < x) l.
Proof.
  induction l as [| a l IH]; simpl; intros Hs.
  - constructor.
  - inversion Hs as [| ? ? Hs' Ha]; subst. constructor.
    + rewrite Forall_forall in Ha. apply Ha. apply in_or_app. right. now left.
    + now apply IH.
Qed.

Lemma keys_filter_incl (f : Z * T -> bool) d k :
  In k (keys (filter f d)) -> In k (keys d).
Proof.
  unfold keys. rewrite !in_map_iff. intros (x & Hx & Hin).
  apply filter_In in Hin. exists x. tauto.
Qed.

Lemma sorted_filter (f : Z * T -> bool) d :
  StronglySorted Z.lt (keys d) -> StronglySorted Z.lt (keys (filter f d)).
Proof.
  induction d as [| [k v] d IH]; simpl; intros Hs.
  - constructor.
  - inversion Hs as [| ? ? Hs' Hk]; subst.
    destruct (f (k, v)); simpl.
    + constructor; [now apply IH |].
      rewrite Forall_forall in *. intros x Hx.
      apply Hk. eapply keys_filter_incl. exact Hx.
    + now apply IH.
Qed.

(** On a well-formed registry [_register_callback] returns an ID above
    every registered one and appends the handler under it. *)
Lemma register_fresh d (callback : T) :
  registry_wf d ->
  exists callback_id,
    _register_callback callback d
      = Ok callback_id (d ++ [(callback_id, callback)])
    /\ Forall (fun k => k < callback_id) (keys d)
    /\ 1 <= callback_id
    /\ (d = [] /\ callback_id = 1 \/ In (callback_id - 1) (keys d))
    /\ registry_wf (d ++ [(callback_id, callback)]).
Proof.
  intros [Hs Hpos].
  assert (Hid : exists callback_id,
             match last_key d with Some k => k + 1 | None => 1 end = callback_id
             /\ Forall (fun k => k < callback_id) (keys d)
             /\ 1 <= callback_id
             /\ (d = [] /\ callback_id = 1 \/ In (callback_id - 1) (keys d))).
  { destruct d as [| x d'] using rev_ind.
    - exists 1. simpl. repeat split; [constructor | lia | now left].
    - destruct x as [k v]. rewrite last_key_snoc. exists (k + 1).
      rewrite keys_app in *. simpl in *.
      apply sorted_snoc_inv in Hs.
      apply Forall_app in Hpos. destruct Hpos as [_ Hk].
      inversion Hk; subst.
      repeat split; [| lia |].
      + apply Forall_app. split.
        * eapply Forall_impl; [| exact Hs]. simpl. intros; lia.
        * constructor; [lia | constructor].
      + right. apply in_or_app. right. left. lia. }
  destruct Hid as (callback_id & Heq & Hlt & Hone & Hlast).
  exists callback_id.
  assert (Hnin : ~ In callback_id (keys d)).
  { intros Hin. rewrite Forall_forall in Hlt. specialize (Hlt _ Hin). lia. }
  repeat split; try assumption.
  - unfold _register_callback, bind, get, put, ret. rewrite Heq.
    now rewrite setitem_fresh.
  - rewrite keys_app. simpl. now apply sorted_snoc.
  - rewrite keys_app. apply Forall_app. split; [assumption |].
    constructor; [assumption | constructor].
Qed.

Lemma cancel_wf d callback_id :
  registry_wf d -> registry_wf (state_of (@_cancel_callback T callback_id d)).
Proof.
  intros [Hs Hpos]. unfold _cancel_callback, bind, get, delitem.
  destruct (contains d callback_id); simpl; [| now split].
  split.
  - now apply sorted_filter.
  - rewrite Forall_forall in *. intros k Hk. apply Hpos.
    eapply keys_filter_incl. exact Hk.
Qed.

Lemma run_ops_wf (ops : list (RegistryOp T)) d :
  registry_wf d -> registry_wf (fst (run_ops ops d)).
Proof.
  revert d. induction ops as [| op ops IH]; intros d Hwf.
  - assumption.
  - destruct op as [callback | callback_id]; cbn [run_ops].
    + destruct (register_fresh callback Hwf) as (i & Heq & _ & _ & _ & Hwf').
      rewrite Heq. cbn [state_of]. specialize (IH _ Hwf').
      destruct (run_ops ops _). exact IH.
    + pose proof (cancel_wf callback_id Hwf) as Hwf'.
      specialize (IH _ Hwf').
      destruct (run_ops ops _).
      destruct (_cancel_callback callback_id d); exact IH.
Qed.

End RegistryFacts.

(** C4, as the code has it.  After any sequence of register and cancel
    calls on a registry that started empty, [_register_callback] returns
    an ID that is positive and strictly greater than every ID registered at
    that moment, and appends the handler under that ID.  The ID is thus
    never one that is still registered.  It is 1 on an empty registry and
    otherwise one more than a registered ID (the greatest), whatever was
    cancelled before. *)
Theorem register_id_above_registered :
  forall (T : Type) (ops : list (RegistryOp T)) (callback : T),
    let d := fst (run_ops ops []) in
    exists callback_id,
      _register_callback callback d
        = Ok callback_id (d ++ [(callback_id, callback)])
      /\ Forall (fun k => k < callback_id) (keys d)
      /\ ~ In callback_id (keys d)
      /\ 1 <= callback_id
      /\ (d = [] /\ callback_id = 1 \/ In (callback_id - 1) (keys d)).
Proof.
  intros T ops callback d.
  assert (Hwf : registry_wf d).
  { apply run_ops_wf. split; constructor. }
  destruct (register_fresh callback Hwf) as (i & Heq & Hlt & Hone & Hlast & _).
  exists i. repeat split; try assumption.
  intros Hin. rewrite Forall_forall in Hlt. specialize (Hlt _ Hin). lia.
Qed.

(** C4, as the specification states it, fails: register, cancel the ID
    just issued, register again, and the same ID 1 is issued twice. *)
Lemma id_reused_after_cancel :
  snd (run_ops [Register tt; Cancel 1; Register tt] [])
    = [Issued 1; Cancelled 1; Issued 1]
  /\ reused_after_cancel
       (snd (run_ops [Register tt; Cancel 1; Register tt] [])).
Proof.
  split; [reflexivity |].
  exists 1, [], [], [], []. reflexivity.
Qed.

(* ================================================================== *)
(** ** Dispatch                                                        *)
(* ================================================================== *)

Section DispatchFacts.

Variables W A : Type.

Implicit Types d : OrderedDict (Handler W A).

Lemma dict_get_unique {T} (before after : OrderedDict T) k (v : T) :
  NoDup (keys (before ++ (k, v) :: after)) ->
  dict_get (before ++ (k, v) :: after) k = Some v.
Proof.
  unfold dict_get. induction before as [| [k' v'] before IH]; simpl; intros Hnd.
  - now rewrite Z.eqb_refl.
  - inversion Hnd as [| x l Hnin Hnd']; subst.
    destruct (Z.eqb_spec k' k) as [-> | Hne].
    + exfalso. apply Hnin. unfold keys in *. rewrite map_app, in_app_iff.
      right. now left.
    + now apply IH.
Qed.

(** Handlers that return without changing the registry are passed over:
    the iteration goes on from the state they leave. *)
Lemma iterate_passes_quiet d (args : A) :
  NoDup (keys d) ->
  forall before done rest w w1,
    d = done ++ before ++ rest ->
    rest <> [] ->
    returns_quietly args d (values before) w w1 ->
    iterate (keys (before ++ rest)) args d w = iterate (keys rest) args d w1.
Proof.
  intros Hnd before.
  induction before as [| [k h] before IH]; intros done rest w w1 Hd Hrest Hq.
  - inversion Hq; subst. reflexivity.
  - simpl in Hq. inversion Hq as [| run hs w0 w2 w3 calls Hrun Hcalls Hq']; subst h.
    subst hs w0 w3.
    assert (Hget : dict_get d k = Some (Handle run)).
    { rewrite Hd in Hnd |- *. simpl. now apply dict_get_unique. }
    change (keys (((k, Handle run) :: before) ++ rest))
      with (k :: keys (before ++ rest)).
    cbn [iterate]. rewrite Hget, Hrun, Hcalls.
    assert (Hnext : iterate (keys (before ++ rest)) args d w2
                    = iterate (keys rest) args d w1).
    { apply (IH (done ++ [(k, Handle run)])); try assumption.
      rewrite <- app_assoc. exact Hd. }
    destruct (keys (before ++ rest)) as [| k' ks] eqn:Hks.
    + exfalso. apply Hrest. unfold keys in Hks.
      apply map_eq_nil in Hks. now destruct (app_eq_nil _ _ Hks).
    + exact Hnext.
Qed.

(** The handler the iteration reaches after handlers that returned
    without changing the registry decides how the dispatch goes on. *)
Lemma dispatch_live_reaches d (args : A) (w : W) :
  NoDup (keys d) ->
  forall before run after w1,
    values d = before ++ Handle run :: after ->
    returns_quietly args d before w w1 ->
    exists k ks,
      List.length ks = List.length after
      /\ dict_get d k = Some (Handle run)
      /\ dispatch_live args (d, w) = iterate (k :: ks) args d w1.
Proof.
  intros Hnd before run after w1 Hsplit Hq.
  unfold values in Hsplit.
  apply map_eq_app in Hsplit. destruct Hsplit as (eb & er & Hd & Hb & Hr).
  destruct er as [| [k h] ea]; [discriminate |].
  simpl in Hr. injection Hr as Hh Ha. subst h.
  exists k, (keys ea). split; [| split].
  - rewrite <- Ha. unfold keys. now rewrite !length_map.
  - rewrite Hd in Hnd |- *. now apply dict_get_unique.
  - unfold dispatch_live. cbn [fst snd]. rewrite Hd at 1.
    apply (@iterate_passes_quiet d args Hnd eb [] ((k, Handle run) :: ea) w w1).
    + exact Hd.
    + discriminate.
    + unfold values. now rewrite Hb.
Qed.

(** On handlers that make no registry call the live loop is [for_each]. *)
Lemma iterate_plain (registry : OrderedDict (A -> M W unit)) (args : A) :
  NoDup (keys registry) ->
  forall done rest w,
    registry = done ++ rest ->
    outside (iterate (keys rest) args (lift registry) w)
    = for_each (values rest) (fun callback => callback args) w.
Proof.
  intros Hnd done rest. revert done.
  induction rest as [| [k h] rest IH]; intros done w Hd.
  - reflexivity.
  - assert (Hget : dict_get (lift registry) k = Some (plain h)).
    { rewrite Hd. unfold lift. rewrite map_app. simpl.
      apply dict_get_unique.
      change ((k, plain h) :: map (fun kv => (fst kv, plain (snd kv))) rest)
        with (map (fun kv : Z * (A -> M W unit) => (fst kv, plain (snd kv)))
                ((k, h) :: rest)).
      rewrite <- map_app, <- Hd. unfold keys. rewrite map_map. simpl.
      exact Hnd. }
    change (keys ((k, h) :: rest)) with (k :: keys rest).
    cbn [iterate]. rewrite Hget. unfold plain at 1.
    cbn [apply_calls values map snd for_each]. unfold bind.
    destruct (h args w) as [[] w' | e w']; [| reflexivity].
    specialize (IH (done ++ [(k, h)]) w').
    rewrite <- app_assoc in IH. specialize (IH Hd).
    destruct (keys rest) as [| k' ks] eqn:Hks.
    + unfold keys in Hks. apply map_eq_nil in Hks. subst rest. reflexivity.
    + exact IH.
Qed.

(** On a registry that register and cancel calls have built, a handler's
    calls either leave the registry as it is or change its modification
    state: no call replaces a handler in place. *)
Lemma calls_keep_or_change (calls : list (RegistryCall (Handler W A))) d :
  registry_wf d ->
  apply_calls calls d = (d, false) \/ snd (apply_calls calls d) = true.
Proof.
  induction calls as [| [callback | callback_id] calls IH]; intros Hwf.
  - now left.
  - right. cbn [apply_calls].
    destruct (register_fresh callback Hwf) as (i & Heq & Hlt & _).
    rewrite Heq.
    assert (Hnin : contains d i = false).
    { destruct (contains d i) eqn:Hc; [| reflexivity].
      apply contains_In in Hc. rewrite Forall_forall in Hlt.
      specialize (Hlt _ Hc). lia. }
    rewrite Hnin. destruct (apply_calls calls (d ++ [(i, callback)])). reflexivity.
  - cbn [apply_calls]. unfold _cancel_callback, bind, get, put, raise.
    destruct (delitem d callback_id) as [d1 |].
    + right. destruct (apply_calls calls d1). reflexivity.
    + now apply IH.
Qed.

End DispatchFacts.

(** C2, as the code has it.  A registry is a dictionary, so its keys are
    distinct.  Dispatch calls the handlers of a registry in insertion
    order, each with the same arguments and on the state the previous one
    left, and it ends at the first handler that raises or that changes the
    registry under the loop:
    - on an empty registry nothing is called;
    - when a handler raises after handlers that returned without changing
      the registry, its exception leaves the dispatch with the state at
      that point and the handlers after it are not called;
    - when a handler that is not the last returns but has registered or
      cancelled a callback on the registry, the dispatch raises
      [RuntimeError] and the handlers after it are not called;
    - when every handler returns and none but the last changes the
      registry, every handler has been called and the dispatch returns;
    - on a registry built by register and cancel calls a handler's calls
      either leave the registry as it is or change it, so the cases above
      are all there are;
    - on handlers that make no registry call this loop is [dispatch], the
      one the five notification handlers run. *)
Theorem dispatch_ends_at_raise_or_change :
  forall (W A : Type) (d : OrderedDict (Handler W A)) (args : A) (w : W),
    NoDup (keys d) ->
    (d = [] -> dispatch_live args (d, w) = Ok tt (d, w))
    /\ (forall before run after w1 e w2 calls,
          values d = before ++ Handle run :: after ->
          returns_quietly args d before w w1 ->
          run args (keys d) w1 = (Raise e w2, calls) ->
          dispatch_live args (d, w)
          = Raise e (fst (apply_calls calls d), w2))
    /\ (forall before run next after w1 w2 calls,
          values d = before ++ Handle run :: next :: after ->
          returns_quietly args d before w w1 ->
          run args (keys d) w1 = (Ok tt w2, calls) ->
          snd (apply_calls calls d) = true ->
          dispatch_live args (d, w)
          = Raise RuntimeError (fst (apply_calls calls d), w2))
    /\ (forall before run w1 w2 calls,
          values d = before ++ [Handle run] ->
          returns_quietly args d before w w1 ->
          run args (keys d) w1 = (Ok tt w2, calls) ->
          dispatch_live args (d, w)
          = Ok tt (fst (apply_calls calls d), w2))
    /\ (registry_wf d ->
        forall calls,
          apply_calls calls d = (d, false)
          \/ snd (apply_calls calls d) = true)
    /\ (forall registry : OrderedDict (A -> M W unit),
          NoDup (keys registry) ->
          dispatch registry args w
          = outside (dispatch_live args (lift registry, w))).
Proof.
  intros W A d args w Hnd. repeat apply conj.
  - intros ->. reflexivity.
  - intros before run after w1 e w2 calls Hsplit Hq Hrun.
    destruct (@dispatch_live_reaches W A d args w Hnd _ _ _ _ Hsplit Hq)
      as (k & ks & _ & Hget & ->).
    cbn [iterate]. rewrite Hget, Hrun.
    now destruct (apply_calls calls d).
  - intros before run next after w1 w2 calls Hsplit Hq Hrun Hchanged.
    destruct (@dispatch_live_reaches W A d args w Hnd _ _ _ _ Hsplit Hq)
      as (k & ks & Hlen & Hget & ->).
    cbn [iterate]. rewrite Hget, Hrun.
    destruct (apply_calls calls d) as [d' changed]. simpl in Hchanged.
    subst changed. destruct ks; [discriminate | reflexivity].
  - intros before run w1 w2 calls Hsplit Hq Hrun.
    destruct (@dispatch_live_reaches W A d args w Hnd _ _ _ _ Hsplit Hq)
      as (k & ks & Hlen & Hget & ->).
    cbn [iterate]. rewrite Hget, Hrun.
    destruct (apply_calls calls d) as [d' changed].
    destruct ks; [reflexivity | discriminate].
  - intros Hwf calls. now apply calls_keep_or_change.
  - intros registry Hreg. unfold dispatch, dispatch_live. cbn [fst snd].
    replace (keys (lift registry)) with (keys registry).
    + symmetry. now apply (@iterate_plain W A registry args Hreg [] registry w).
    + unfold keys, lift. now rewrite map_map.
Qed.

(** The iterator at work: the second of three handlers cancels the first
    one's registration, and the third is not called. *)
Lemma dispatch_ends_at_raise_or_change_witness :
  let d := [(1, plain (recording 1)); (2, Handle (cancelling 2 1));
            (3, plain (recording 3))] in
  NoDup (keys d)
  /\ dispatch_live 7 (d, [])
     = Raise RuntimeError
         ([(2, Handle (cancelling 2 1)); (3, plain (recording 3))],
          [(1%nat, 7); (2%nat, 7)]).
Proof.
  intros d.
  assert (Hnd : NoDup (keys d)).
  { repeat constructor; simpl; intuition discriminate. }
  split; [exact Hnd |].
  apply (proj1 (proj2 (proj2 (dispatch_ends_at_raise_or_change d 7 [] Hnd)))
           [plain (recording 1)] (cancelling 2 1) (plain (recording 3)) []
           [(1%nat, 7)] [(1%nat, 7); (2%nat, 7)] [CallCancel 1]).
  - reflexivity.
  - eapply quiet_cons; [reflexivity | reflexivity | apply quiet_nil].
  - reflexivity.
  - reflexivity.
Defined.

(** C2, as the specification states it, fails: with a handler that raises
    registered before one that records its call, a volume notification
    ends with the exception of the first and the second is never called;
    isolated dispatch would have called it. *)
Lemma raising_handler_blocks_later_handlers :
  let self :=
    state_of (register_volume_callback (recording 2)
                (state_of (register_volume_callback (failing 1)
                             (__init__ _)))) in
  keys (_volume_change_callbacks self) = [1; 2]
  /\ _on_volume_change self [x07] [] = Raise (HandlerError 1) []
  /\ dispatch_isolated (values (_volume_change_callbacks self)) 7 [] = [(2%nat, 7)].
Proof. repeat split. Qed.

(* ================================================================== *)
(** ** Media-info reassembler                                          *)
(* ================================================================== *)

Lemma bytes_eqb_eq (a b : bytes) : bytes_eqb a b = true <-> a = b.
Proof.
  unfold bytes_eqb. destruct (list_eq_dec Byte.byte_eq_dec a b); split;
    congruence.
Qed.

Lemma len_app {T} (a b : list T) : len (a ++ b) = len a + len b.
Proof. unfold len. rewrite length_app. lia. Qed.

(** A chunk that ends with the eight sentinel bytes makes every buffer it
    is appended to end with them. *)
Lemma sentinel_chunk_ends_buffer (buffer data : bytes) :
  slice_from data (-8) = _media_info_ending_bytes ->
  slice_from (buffer ++ data) (-8) = _media_info_ending_bytes.
Proof.
  unfold slice_from, clamp_index.
  change (-8 <? 0) with true. cbv iota. intros Hd.
  assert (Hlen : 8 <= len data).
  { apply (f_equal (@List.length byte)) in Hd.
    rewrite length_skipn in Hd.
    cbn [_media_info_ending_bytes List.length] in Hd.
    unfold len in *. lia. }
  rewrite len_app.
  replace (Z.to_nat (Z.max 0 (Z.min (len buffer + len data)
                               (-8 + (len buffer + len data)))))
    with (List.length buffer + Z.to_nat (Z.max 0 (Z.min (len data)
                                                    (-8 + len data))))%nat
    by (unfold len in *; lia).
  rewrite skipn_app.
  rewrite skipn_all2 by lia.
  replace (List.length buffer + _ - List.length buffer)%nat
    with (Z.to_nat (Z.max 0 (Z.min (len data) (-8 + len data)))) by lia.
  exact Hd.
Qed.

Lemma try_finally_modify_state {S A} (body : M S A) (f : S -> S) (s : S) :
  state_of (try_finally body (modify f) s) = f (state_of (body s)).
Proof. unfold try_finally, modify. now destruct (body s). Qed.

Section ReassemblerFacts.

Variable W : Type.

Implicit Types s : Self W.

Lemma handle_media_info_resets s :
  _media_info_buffer (fst (state_of (_handle_media_info s))) = [].
Proof.
  unfold _handle_media_info, bind, get.
  rewrite try_finally_modify_state. reflexivity.
Qed.

Lemma on_media_info_cases s (data : bytes) :
  (slice_from data (-8) = _media_info_ending_bytes ->
     _on_media_info data s = _handle_media_info (appended data s))
  /\ (slice_from data (-8) <> _media_info_ending_bytes ->
        _on_media_info data s = Ok tt (appended data s)).
Proof.
  unfold _on_media_info, bind, modify. fold (appended data s).
  split; intros Htail.
  - apply bytes_eqb_eq in Htail as Hb. now rewrite Hb.
  - destruct (bytes_eqb _ _) eqn:Hb; [| reflexivity].
    apply bytes_eqb_eq in Hb. contradiction.
Qed.

End ReassemblerFacts.

(** C5, as the code has it.  [_on_media_info] first appends the chunk to
    the buffer; it then runs [_handle_media_info] if and only if the last
    eight bytes of the chunk itself are the sentinel.  When they are, the
    buffer ends with the sentinel too; otherwise the notification returns
    with the chunk appended and nothing else done. *)
Theorem decode_triggered_by_chunk_tail :
  forall (W : Type) (s : Self W) (data : bytes),
    (slice_from data (-8) = _media_info_ending_bytes ->
       _on_media_info data s = _handle_media_info (appended data s)
       /\ slice_from (_media_info_buffer (fst s) ++ data) (-8)
            = _media_info_ending_bytes)
    /\ (slice_from data (-8) <> _media_info_ending_bytes ->
          _on_media_info data s = Ok tt (appended data s)).
Proof.
  intros W s data. destruct (on_media_info_cases s data) as [Hyes Hno].
  split; intros Htail.
  - split; [now apply Hyes | now apply sentinel_chunk_ends_buffer].
  - now apply Hno.
Qed.

Lemma decode_triggered_by_chunk_tail_witness :
  _on_media_info chunk_sentinel (appended chunk_title (__init__ (list MediaInfo), []))
    = _handle_media_info
        (appended chunk_sentinel (appended chunk_title (__init__ _, [])))
  /\ _on_media_info chunk_artist (appended chunk_title (__init__ (list MediaInfo), []))
     = Ok tt (appended chunk_artist (appended chunk_title (__init__ _, []))).
Proof.
  split.
  - apply (proj1 (decode_triggered_by_chunk_tail
                    (appended chunk_title (__init__ (list MediaInfo), []))
                    chunk_sentinel)).
    reflexivity.
  - apply (proj2 (decode_triggered_by_chunk_tail
                    (appended chunk_title (__init__ (list MediaInfo), []))
                    chunk_artist)).
    discriminate.
Defined.

(** C5, as the specification states it, fails: a sentinel that ends the
    buffer but arrives split over two chunks triggers no decode; the buffer
    keeps its eight bytes. *)
Lemma split_sentinel_not_detected :
  let s : Self (list MediaInfo) :=
    (set_media_info_buffer [x00; x00; x00; xff] (__init__ _), []) in
  let data := [x00; x00; x00; x00] in
  slice_from (_media_info_buffer (fst s) ++ data) (-8) = _media_info_ending_bytes
  /\ _on_media_info data s = Ok tt (appended data s)
  /\ _on_media_info data s <> _handle_media_info (appended data s).
Proof. repeat split. discriminate. Qed.

(** C6.  Whatever [_handle_media_info] does, return or raise, it leaves an
    empty buffer; so does every notification whose chunk ends with the
    sentinel. *)
Theorem buffer_reset_after_handling :
  forall (W : Type) (s : Self W),
    _media_info_buffer (fst (state_of (_handle_media_info s))) = []
    /\ forall data : bytes,
         slice_from data (-8) = _media_info_ending_bytes ->
         _media_info_buffer (fst (state_of (_on_media_info data s))) = [].
Proof.
  intros W s. split.
  - apply handle_media_info_resets.
  - intros data Htail.
    destruct (on_media_info_cases s data) as [Hyes _].
    rewrite (Hyes Htail). apply handle_media_info_resets.
Qed.

Lemma buffer_reset_after_handling_witness :
  let s : Self (list MediaInfo) :=
    feed [chunk_title; chunk_artist]
      (state_of (register_media_info_callback collect (__init__ _)), []) in
  slice_from chunk_sentinel (-8) = _media_info_ending_bytes
  /\ _media_info_buffer (fst (state_of (_on_media_info chunk_sentinel s))) = [].
Proof.
  intros s. split; [reflexivity |].
  apply (proj2 (buffer_reset_after_handling s)). reflexivity.
Defined.

(** C1 on the specification's own example.  The buffer holds a title
    field, an artist field and the sentinel, and no album marker.
    [bytes.index] raises [ValueError] for the absent album marker, so no
    [MediaInfo] is built and the registered handler is never called; the
    buffer is reset.  With an album field added the same run delivers one
    [MediaInfo]. *)
Theorem absent_marker_raises_ValueError :
  let self := state_of (register_media_info_callback collect (__init__ _)) in
  let chunk_album :=
    [x00; x00; x00; x03; x00; x6a; x00; x02] ++ list_byte_of_string "lp" in
  _on_media_info chunk_sentinel (feed [chunk_title; chunk_artist] (self, []))
    = Raise ValueError (self, [])
  /\ _on_media_info chunk_sentinel
       (feed [chunk_title; chunk_artist; chunk_album] (self, []))
     = Ok tt (self, [mkMediaInfo (Some "hello"%string) (Some "artist"%string)
                       (Some "lp"%string)]).
Proof. split; reflexivity. Qed.

(* ================================================================== *)
(** ** LED brightness                                                  *)
(* ================================================================== *)

Lemma byte_of_int_some (x : Z) :
  0 <= x < 256 -> exists b, byte_of_int x = Some b /\ int_of_byte b = x.
Proof.
  intros Hx. unfold byte_of_int.
  replace ((0 <=? x) && (x <? 256)) with true
    by (symmetry; apply andb_true_iff; split; [apply Z.leb_le | apply Z.ltb_lt]; lia).
  destruct (Byte.of_N (Z.to_N x)) as [b |] eqn:Hb.
  - exists b. split; [reflexivity |].
    apply Byte.to_of_N in Hb. unfold int_of_byte. rewrite Hb. lia.
  - apply Byte.of_N_None_iff in Hb. lia.
Qed.

Lemma int_of_byte_range (b : byte) : 0 <= int_of_byte b <= 255.
Proof.
  unfold int_of_byte. pose proof (Byte.to_N_bounded b). lia.
Qed.

Section LedFacts.

Context {Dev : Type} `{GattClient Dev}.

Lemma get_led_brightness_reads (w : World Dev) (b : byte) (rest : bytes) :
  read_gatt_char led_brightness_characteristic (device w) = b :: rest ->
  get_led_brightness w
    = Ok (int_of_byte b - 35)
        (mkWorld (device w)
           (trace w ++ [GattRead led_brightness_characteristic])).
Proof.
  intros Hread.
  unfold get_led_brightness, client_read, bind, emit, modify, get, ret.
  simpl. now rewrite Hread.
Qed.

(** C8.  For a brightness in [0, 35] the set operation writes the single
    byte brightness + 35, and the get operation on a device that answers
    with that byte returns the brightness.  For a brightness outside
    [0, 35] the set operation raises [InvalidLedBrightness] and leaves the
    device and the trace of transport calls as they were. *)
Theorem led_brightness_roundtrip :
  forall (brightness : Z) (w : World Dev),
    (0 <= brightness <= 35 ->
       exists b : byte,
         int_of_byte b = brightness + 35
         /\ set_led_brightness brightness w
            = Ok tt
                (mkWorld
                   (write_gatt_char led_brightness_characteristic [b] (device w))
                   (trace w ++ [GattWrite led_brightness_characteristic [b]]))
         /\ forall (w' : World Dev) (rest : bytes),
              read_gatt_char led_brightness_characteristic (device w') = b :: rest ->
              get_led_brightness w'
                = Ok brightness
                    (mkWorld (device w')
                       (trace w' ++ [GattRead led_brightness_characteristic])))
    /\ (~ 0 <= brightness <= 35 ->
          set_led_brightness brightness w = Raise InvalidLedBrightness w).
Proof.
  intros brightness w. split; intros Hb.
  - destruct (@byte_of_int_some (brightness + 35)) as (b & Hsome & Hint);
      [lia |].
    exists b. split; [exact Hint | split].
    + unfold set_led_brightness.
      replace ((0 <=? brightness) && (brightness <=? 35)) with true
        by (symmetry; apply andb_true_iff; split; apply Z.leb_le; lia).
      cbn [negb]. unfold bind, or_raise. cbn [bytearray_of_ints].
      rewrite Hsome. reflexivity.
    + intros w' rest Hread.
      rewrite (get_led_brightness_reads _ Hread). f_equal. lia.
  - unfold set_led_brightness.
    replace ((0 <=? brightness) && (brightness <=? 35)) with false;
      [reflexivity |].
    symmetry. apply andb_false_iff.
    destruct (Z.leb_spec 0 brightness); [right | left; reflexivity].
    apply Z.leb_gt. lia.
Qed.

(** C10.  The get operation returns the first byte of what the device
    answers, minus 35, whatever that byte is; for a byte below 35 the
    result is negative. *)
Theorem get_led_brightness_unvalidated :
  forall (w : World Dev) (b : byte) (rest : bytes),
    read_gatt_char led_brightness_characteristic (device w) = b :: rest ->
    exists brightness,
      get_led_brightness w
        = Ok brightness
            (mkWorld (device w)
               (trace w ++ [GattRead led_brightness_characteristic]))
      /\ brightness = int_of_byte b - 35
      /\ -35 <= brightness <= 220
      /\ (int_of_byte b < 35 -> brightness < 0).
Proof.
  intros w b rest Hread. exists (int_of_byte b - 35).
  pose proof (int_of_byte_range b).
  repeat split; try lia.
  now apply get_led_brightness_reads with (rest := rest).
Qed.

End LedFacts.

Lemma led_brightness_roundtrip_witness :
  let w := Sim.fresh [] [] in
  (0 <= 20 <= 35
   /\ exists b : byte,
        int_of_byte b = 20 + 35
        /\ set_led_brightness 20 w
           = Ok tt
               (mkWorld
                  (write_gatt_char led_brightness_characteristic [b] (device w))
                  (trace w ++ [GattWrite led_brightness_characteristic [b]]))
        /\ forall (w' : World Sim.Device) (rest : bytes),
             read_gatt_char led_brightness_characteristic (device w') = b :: rest ->
             get_led_brightness w'
               = Ok 20
                   (mkWorld (device w')
                      (trace w' ++ [GattRead led_brightness_characteristic])))
  /\ (~ 0 <= 36 <= 35
      /\ set_led_brightness 36 w = Raise InvalidLedBrightness w).
Proof.
  intros w. split; split.
  - lia.
  - apply (proj1 (led_brightness_roundtrip 20 w)). lia.
  - lia.
  - apply (proj2 (led_brightness_roundtrip 36 w)). lia.
Defined.

Lemma get_led_brightness_unvalidated_witness :
  let w := Sim.fresh [(led_brightness_characteristic, [x0a])] [] in
  read_gatt_char led_brightness_characteristic (device w) = [x0a]
  /\ exists brightness,
       get_led_brightness w
         = Ok brightness
             (mkWorld (device w) [GattRead led_brightness_characteristic])
       /\ brightness = int_of_byte x0a - 35
       /\ -35 <= brightness <= 220
       /\ (int_of_byte x0a < 35 -> brightness < 0).
Proof.
  intros w. split; [reflexivity |].
  apply (get_led_brightness_unvalidated w (b := x0a) (rest := [])).
  reflexivity.
Defined.

(* ================================================================== *)
(** ** Connection step                                                 *)
(* ================================================================== *)

(** C3 on a speaker that refuses the media-info subscription.  The status
    and volume subscriptions are made, the third fails, the client is
    closed, which drops the subscriptions made; and then [__aenter__]
    returns normally, as a successful entry does, instead of raising. *)
Theorem aenter_returns_after_failed_subscription :
  __aenter__ (Sim.fresh [] [media_info_characteristic])
  = Ok tt
      (mkWorld (Sim.mkDevice false [] [] [media_info_characteristic])
         [GattConnect;
          GattStartNotify control_characteristic;
          GattStartNotify volume_characteristic;
          GattStartNotify media_info_characteristic;
          GattDisconnect])
  /\ __aenter__ (Sim.fresh [] [])
     = Ok tt
         (mkWorld
            (Sim.mkDevice true
               [control_characteristic; volume_characteristic;
                media_info_characteristic; eq_characteristic] [] [])
            [GattConnect;
             GattStartNotify control_characteristic;
             GattStartNotify volume_characteristic;
             GattStartNotify media_info_characteristic;
             GattStartNotify eq_characteristic]).
Proof. split; reflexivity. Qed.

(* ================================================================== *)
(** ** Command router: event handlers                                  *)
(* ================================================================== *)

(** C9.  [_init_speaker] on a new facade leaves the volume registry with
    two entries, IDs 1 and 2, both [_ble_volume_callback], and every other
    registry with its one handler.  A volume notification therefore adds
    two identical publish tasks to the loop, and running them publishes
    the volume to [info/volume] twice. *)
Theorem volume_published_twice :
  forall (self : MqttControl),
    let speaker := state_of (_init_speaker self (__init__ _)) in
    _volume_change_callbacks speaker
      = [(1, _ble_volume_callback self); (2, _ble_volume_callback self)]
    /\ _disconnect_callbacks speaker = [(1, _ble_disconnect_callback self)]
    /\ _equalizer_callbacks speaker = [(1, _ble_equalizer_callback self)]
    /\ _status_callbacks speaker = [(1, _ble_status_callback self)]
    /\ _media_info_callbacks speaker = [(1, _ble_media_info_callback self)]
    /\ forall (Dev : Type) (client : GattClient Dev) (b : byte) (rest : bytes)
              (loop : Loop) (w : World Dev),
         let payload := Some (str_of_int (int_of_byte b)) in
         let task := Coro_publish (topic self "info/volume") payload None in
         let published :=
           Published (topic self "info/volume") payload (_mqtt_retain self) in
         _on_volume_change speaker (b :: rest) loop
           = Ok tt (loop ++ [task; task])
         /\ run_loop self [task; task] w
            = Ok tt (mkWorld (device w) (trace w ++ [published; published])).
Proof.
  intros self speaker. repeat split.
  - unfold _on_volume_change, dispatch, bind, or_raise. cbn.
    unfold _ble_volume_callback, _sync_publish, _add_task, modify, ret.
    now rewrite <- app_assoc.
  - unfold run_loop, run_coroutine, _publish, try_except, bind, emit, modify,
      ret. cbn. now rewrite <- app_assoc.
Qed.

(* ================================================================== *)
(** ** Command router: per-band equalizer command                      *)
(* ================================================================== *)

Lemma count_digits_cons (b : byte) (l : bytes) :
  count_digits (b :: l)
  = (if is_digit (int_of_byte b) then 1 else 0) + count_digits l.
Proof.
  unfold count_digits. cbn [filter].
  destruct (is_digit (int_of_byte b)); cbn [List.length]; lia.
Qed.

Lemma count_digits_lstrip (l : bytes) : count_digits (lstrip l) = count_digits l.
Proof.
  induction l as [| b l IH]; [reflexivity |].
  cbn [lstrip]. destruct (is_space (int_of_byte b)) eqn:Hspace; [| reflexivity].
  rewrite IH, count_digits_cons.
  replace (is_digit (int_of_byte b)) with false; [reflexivity |].
  unfold is_space, is_digit in *. lia.
Qed.

(** [int] converts no literal of more digits than the limit, however it
    is signed, padded or grouped. *)
Lemma int_of_bytes_over_limit (value : bytes) :
  int_max_str_digits < count_digits value -> int_of_bytes value = None.
Proof.
  intros Hover. rewrite <- count_digits_lstrip in Hover.
  unfold int_of_bytes. destruct (lstrip value) as [| b rest]; [reflexivity |].
  assert (Hunsigned : forall l, int_max_str_digits < count_digits l ->
                                int_unsigned l = None).
  { intros [| c l] Hl; [reflexivity |]. unfold int_unsigned.
    destruct (is_digit (int_of_byte c)); [| reflexivity].
    replace (count_digits (c :: l) <=? int_max_str_digits) with false;
      [reflexivity |].
    symmetry. apply Z.leb_gt. exact Hl. }
  destruct (Byte.eqb b "-"%byte) eqn:Hminus.
  - apply Byte.byte_dec_bl in Hminus. subst b. rewrite count_digits_cons in Hover.
    cbn in Hover. now rewrite Hunsigned.
  - destruct (Byte.eqb b "+"%byte) eqn:Hplus.
    + apply Byte.byte_dec_bl in Hplus. subst b. rewrite count_digits_cons in Hover.
      cbn in Hover. now apply Hunsigned.
    + now apply Hunsigned.
Qed.

Lemma bytearray_of_bands (l : list Z) :
  forallb band_ok l = true ->
  exists data, bytearray_of_ints l = Some data /\ map int_of_byte data = l.
Proof.
  induction l as [| x l IH]; simpl; intros Hok.
  - exists []. now split.
  - apply andb_true_iff in Hok. destruct Hok as [Hx Hl].
    destruct (IH Hl) as (data & Hdata & Hmap).
    unfold band_ok in Hx. apply andb_true_iff in Hx.
    destruct Hx as [H0 H10]. apply Z.leb_le in H0, H10.
    destruct (@byte_of_int_some x) as (b & Hb & Hint); [lia |].
    exists (b :: data). rewrite Hb, Hdata. simpl. now rewrite Hint, Hmap.
Qed.

Lemma EqProfile_new_astuple {S} (p : EqProfile) (s : S) :
  forallb band_ok (astuple p) = true ->
  EqProfile_new (astuple p) s = Ok p s.
Proof.
  intros Hok. unfold EqProfile_new. cbn [astuple]. cbn [astuple] in Hok.
  rewrite Hok. now destruct p.
Qed.

Lemma band_byte_ok (v : Z) :
  0 <= v <= 10 ->
  byte_of_int v = Some (band_byte v)
  /\ int_of_byte (band_byte v) = v
  /\ str_of_int v = band_digits v.
Proof.
  intros Hv.
  assert (Hcases : In v [0; 1; 2; 3; 4; 5; 6; 7; 8; 9; 10]) by (cbn; lia).
  cbn [In] in Hcases.
  repeat (destruct Hcases as [<- | Hcases]; [repeat split |]).
  contradiction.
Qed.

Lemma band_ok_bounds (v : Z) : band_ok v = true -> 0 <= v <= 10.
Proof.
  unfold band_ok. rewrite andb_true_iff, !Z.leb_le. tauto.
Qed.

(** A valid profile goes on the wire as [profile_bytes] and is published
    as [profile_line]. *)
Lemma profile_bytes_ok (p : EqProfile) :
  forallb band_ok (astuple p) = true ->
  bytearray_of_ints (astuple p) = Some (profile_bytes p)
  /\ map int_of_byte (profile_bytes p) = astuple p
  /\ _profile_to_str p = profile_line p
  /\ map str_of_int (astuple p) = map band_digits (astuple p).
Proof.
  intros Hok. cbn [astuple forallb] in Hok.
  repeat (apply andb_true_iff in Hok; destruct Hok as [?Hband Hok]).
  apply band_ok_bounds, band_byte_ok in Hband, Hband0, Hband1, Hband2, Hband3.
  destruct Hband as (B1 & I1 & S1), Hband0 as (B2 & I2 & S2),
    Hband1 as (B3 & I3 & S3), Hband2 as (B4 & I4 & S4),
    Hband3 as (B5 & I5 & S5).
  unfold _profile_to_str, profile_bytes, profile_line.
  cbn [astuple bytearray_of_ints map String.concat].
  rewrite B1, B2, B3, B4, B5, I1, I2, I3, I4, I5, S1, S2, S3, S4, S5.
  repeat split.
Qed.

Lemma has_values_eqb (a b c d e : Z) (p : EqProfile) :
  EqProfile_eqb (mkEqProfile a b c d e) p = has_values a b c d e p.
Proof.
  unfold EqProfile_eqb, has_values. cbn [hz160 hz400 hz1000 hz2500 hz6250].
  now rewrite (Z.eqb_sym a), (Z.eqb_sym b), (Z.eqb_sym c), (Z.eqb_sym d),
    (Z.eqb_sym e).
Qed.

(** The text of the preset lookup is the label. *)
Lemma preset_label_ok (p : EqProfile) :
  _preset_to_str (EqPreset_of_value p) = preset_label p.
Proof.
  unfold EqPreset_of_value, EqPreset_members, preset_label.
  cbn [find EqPreset_value]. rewrite !has_values_eqb.
  repeat match goal with
         | |- context [has_values ?a ?b ?c ?d ?e p] =>
             destruct (has_values a b c d e p)
         end;
    reflexivity.
Qed.

Lemma with_band_bands (band : Band) (v : Z) (p : EqProfile) :
  forall b,
    band_value b (with_band band v p)
    = if Band_eqb b band then v else band_value b p.
Proof. destruct band; intros []; reflexivity. Qed.

Lemma setattr_with_band {S} (band : Band) (v : Z) (p : EqProfile) (s : S) :
  setattr p ("hz" ++ hz_str band)%string v s = Ok (with_band band v p) s.
Proof. destruct band; reflexivity. Qed.

Section EqualizerFacts.

Context {Dev : Type} `{GattClient Dev}.

Variable matches : string -> string -> bool.

Variable self : MqttControl.

Lemma get_equaliser_profile_ok (p : EqProfile) (w : World Dev) :
  map int_of_byte (read_gatt_char eq_characteristic (device w)) = astuple p ->
  forallb band_ok (astuple p) = true ->
  get_equaliser_profile w
    = Ok p (mkWorld (device w) (trace w ++ [GattRead eq_characteristic])).
Proof.
  intros Hread Hok.
  unfold get_equaliser_profile, client_read, bind, emit, modify, get, ret.
  cbn [device trace]. rewrite Hread. now apply EqProfile_new_astuple.
Qed.

Lemma set_equaliser_profile_ok (p : EqProfile) (w : World Dev) :
  forallb band_ok (astuple p) = true ->
  exists data,
    map int_of_byte data = astuple p
    /\ set_equaliser_profile p w
       = Ok tt (mkWorld (write_gatt_char eq_characteristic data (device w))
                  (trace w ++ [GattWrite eq_characteristic data])).
Proof.
  intros Hok. destruct (@bytearray_of_bands _ Hok) as (data & Hdata & Hmap).
  exists data. split; [exact Hmap |].
  unfold set_equaliser_profile, bind, or_raise. rewrite Hdata.
  reflexivity.
Qed.

(** Republishing: the profile line, the band values and the preset label
    are those of the profile the device answers with. *)
Lemma republish_ok (p : EqProfile) (w : World Dev) :
  map int_of_byte (read_gatt_char eq_characteristic (device w)) = astuple p ->
  forallb band_ok (astuple p) = true ->
  bind (get_eq_profile self) (fun _ => get_eq_preset self) w
    = Ok tt (mkWorld (device w) (trace w ++ republished self p)).
Proof.
  intros Hread Hok.
  destruct (profile_bytes_ok p Hok) as (_ & _ & Hline & Hdigits).
  cbn [astuple map] in Hdigits.
  injection Hdigits as D1 D2 D3 D4 D5.
  unfold bind, get_eq_profile, get_eq_preset, get_equaliser_preset, bind.
  rewrite (@get_equaliser_profile_ok p w Hread Hok).
  unfold _publish_eq_profile, _publish_individual_eq, _publish_eq_preset,
    _publish, bind, emit, modify, ret.
  cbn [device trace].
  rewrite (@get_equaliser_profile_ok p (mkWorld (device w) _) Hread Hok).
  cbn [device trace].
  rewrite Hline, D1, D2, D3, D4, D5, preset_label_ok.
  unfold republished. rewrite <- !app_assoc. reflexivity.
Qed.

Lemma band_ok_after (band : Band) (v : Z) (p p' : EqProfile) :
  forallb band_ok (astuple p) = true ->
  0 <= v <= 10 ->
  (forall b, band_value b p' = if Band_eqb b band then v else band_value b p) ->
  forallb band_ok (astuple p') = true.
Proof.
  intros Hok Hv Hp'. cbn [astuple forallb] in *.
  assert (Hvok : band_ok v = true).
  { unfold band_ok. apply andb_true_iff. split; apply Z.leb_le; lia. }
  repeat (apply andb_true_iff in Hok; destruct Hok as [? Hok]).
  pose proof (Hp' B160) as E1. pose proof (Hp' B400) as E2.
  pose proof (Hp' B1000) as E3. pose proof (Hp' B2500) as E4.
  pose proof (Hp' B6250) as E5. cbn [band_value] in *.
  rewrite E1, E2, E3, E4, E5.
  destruct band; cbn [Band_eqb];
    repeat match goal with
           | Hx : band_ok _ = true |- _ => rewrite Hx; clear Hx
           end;
    reflexivity.
Qed.

(** The handler on a valid value: a read, the write of the updated
    profile, the pause, and the republication of what the device then
    answers with. *)
Lemma set_individual_eq_effect (band : Band) (payload : bytes) (v : Z)
  (p q : EqProfile) (w : World Dev) :
  map int_of_byte (read_gatt_char eq_characteristic (device w)) = astuple p ->
  forallb band_ok (astuple p) = true ->
  int_of_bytes payload = Some v ->
  0 <= v <= 10 ->
  map int_of_byte
    (read_gatt_char eq_characteristic
       (write_gatt_char eq_characteristic
          (profile_bytes (with_band band v p)) (device w))) = astuple q ->
  forallb band_ok (astuple q) = true ->
  _set_individual_eq self (hz_str band) payload w
  = Ok tt
      (mkWorld
         (write_gatt_char eq_characteristic
            (profile_bytes (with_band band v p)) (device w))
         (trace w
          ++ [GattRead eq_characteristic;
              GattWrite eq_characteristic (profile_bytes (with_band band v p));
              Slept]
          ++ republished self q)).
Proof.
  intros Hread Hok Hparse Hv Hback Hq.
  pose proof (@band_ok_after band v p (with_band band v p) Hok Hv
                (with_band_bands band v p)) as Hok'.
  destruct (profile_bytes_ok _ Hok') as (Hbytes & _).
  unfold _set_individual_eq.
  unfold bind at 1. rewrite (@get_equaliser_profile_ok p w Hread Hok).
  rewrite Hparse.
  replace ((0 <=? v) && (v <=? 10)) with true
    by (symmetry; apply andb_true_iff; split; apply Z.leb_le; lia).
  cbn [negb].
  unfold bind at 1. rewrite setattr_with_band.
  unfold bind at 1. unfold set_equaliser_profile at 1, bind at 1, or_raise.
  rewrite Hbytes. unfold ret at 1, client_write, bind at 1, emit at 1,
    modify at 1, modify at 1.
  cbn [device trace].
  unfold bind at 1. unfold sleep at 1, emit at 1, modify at 1.
  cbn [device trace].
  rewrite republish_ok with (p := q).
  - cbn [device trace]. rewrite <- !app_assoc. reflexivity.
  - exact Hback.
  - exact Hq.
Qed.

Lemma set_eq_profile_individual_routes (band : Band) (message : Message) :
  addressed_band matches self message = Some band ->
  set_eq_profile_individual matches self message
    = _set_individual_eq self (hz_str band) (message_payload message).
Proof.
  unfold addressed_band, set_eq_profile_individual, all_bands, band_address,
    topic.
  cbn [find hz_str String.append].
  repeat match goal with
         | |- context [matches ?a ?b] => destruct (matches a b)
         end;
    intros Hband; inversion Hband; reflexivity.
Qed.

(** C7.  Let the device answer a read of the equalizer characteristic
    with a valid profile [p], and let a message addressed to one band
    carry a payload that reads as an integer [v] in [0, 10].  The handler
    reads the profile and writes back five bytes: [v] at the addressed
    band and the values of [p] at the other four.  It waits, and it
    republishes what the device answers with after that write, a valid
    profile [q]: the five values of [q] in one line, each value at the
    address of its band, and, after a further read, the lower-case name
    of the preset with the values of [q], or "custom".  On a device that
    answers with the bytes just written, [q] is the updated profile.
    A payload of more digits than [int] converts is not such a payload,
    whatever its value: at the same address the handler then stops after
    its first read. *)
Theorem per_band_command_updates_one_band :
  forall (band : Band) (message : Message) (v : Z) (p : EqProfile)
         (w : World Dev),
    addressed_band matches self message = Some band ->
    map int_of_byte (read_gatt_char eq_characteristic (device w)) = astuple p ->
    forallb band_ok (astuple p) = true ->
    int_of_bytes (message_payload message) = Some v ->
    0 <= v <= 10 ->
    let updated := with_band band v p in
    let data := profile_bytes updated in
    let answering := write_gatt_char eq_characteristic data (device w) in
    let outcome (q : EqProfile) : Result (World Dev) unit :=
      Ok tt
        (mkWorld answering
           (trace w
            ++ [GattRead eq_characteristic;
                GattWrite eq_characteristic data;
                Slept]
            ++ republished self q)) in
    (forall b,
       band_value b updated = if Band_eqb b band then v else band_value b p)
    /\ map int_of_byte data = astuple updated
    /\ (forall q : EqProfile,
          map int_of_byte (read_gatt_char eq_characteristic answering)
          = astuple q ->
          forallb band_ok (astuple q) = true ->
          set_eq_profile_individual matches self message w = outcome q)
    /\ (read_gatt_char eq_characteristic answering = data ->
        set_eq_profile_individual matches self message w = outcome updated)
    /\ (forall long : bytes,
          int_max_str_digits < count_digits long ->
          set_eq_profile_individual matches self
            (mkMessage (message_topic message) long) w
          = Ok tt (mkWorld (device w) (trace w ++ [GattRead eq_characteristic]))).
Proof.
  intros band message v p w Haddr Hread Hok Hparse Hv updated data answering
    outcome.
  assert (Hlong : forall long : bytes,
             int_max_str_digits < count_digits long ->
             set_eq_profile_individual matches self
               (mkMessage (message_topic message) long) w
             = Ok tt (mkWorld (device w)
                        (trace w ++ [GattRead eq_characteristic]))).
  { intros long Hover.
    rewrite (@set_eq_profile_individual_routes band
               (mkMessage (message_topic message) long) Haddr).
    cbn [message_payload]. unfold _set_individual_eq, bind.
    rewrite (@get_equaliser_profile_ok p w Hread Hok).
    now rewrite (int_of_bytes_over_limit long Hover). }
  pose proof (@band_ok_after band v p updated Hok Hv
                (with_band_bands band v p)) as Hok'.
  destruct (profile_bytes_ok updated Hok') as (_ & Hbytes & _).
  assert (Hany : forall q : EqProfile,
             map int_of_byte (read_gatt_char eq_characteristic answering)
             = astuple q ->
             forallb band_ok (astuple q) = true ->
             set_eq_profile_individual matches self message w = outcome q).
  { intros q Hback Hq.
    rewrite (@set_eq_profile_individual_routes band message Haddr).
    now apply set_individual_eq_effect with (p := p). }
  split; [apply with_band_bands | split; [exact Hbytes | split; [| split]]].
  - exact Hany.
  - intros Hkept. apply Hany; [| exact Hok'].
    rewrite Hkept. exact Hbytes.
  - exact Hlong.
Qed.

End EqualizerFacts.

(** The specification's example: payload [7] at
    [stanmore2/command/set_eq_profile/160hz], on a simulated speaker set
    to the FLAT profile.  The speaker answers with what was written, and
    the profile 7 5 5 5 5 is no preset. *)
Lemma per_band_command_updates_one_band_witness :
  let self := mkMqttControl "stanmore2" false true in
  let message :=
    mkMessage "stanmore2/command/set_eq_profile/160hz" (list_byte_of_string "7") in
  let p := EqPreset_value FLAT in
  let w := Sim.fresh [(eq_characteristic, [x05; x05; x05; x05; x05])] [] in
  let data := [x07; x05; x05; x05; x05] in
  addressed_band String.eqb self message = Some B160
  /\ map int_of_byte (read_gatt_char eq_characteristic (device w)) = astuple p
  /\ forallb band_ok (astuple p) = true
  /\ int_of_bytes (message_payload message) = Some 7
  /\ 0 <= 7 <= 10
  /\ read_gatt_char eq_characteristic
       (write_gatt_char eq_characteristic data (device w)) = data
  /\ int_max_str_digits < count_digits (repeat x30 4300%nat ++ [x37])
  /\ set_eq_profile_individual String.eqb self
       (mkMessage (message_topic message) (repeat x30 4300%nat ++ [x37])) w
     = Ok tt (mkWorld (device w) [GattRead eq_characteristic])
  /\ set_eq_profile_individual String.eqb self message w
     = Ok tt
         (mkWorld (write_gatt_char eq_characteristic data (device w))
            [ GattRead eq_characteristic;
              GattWrite eq_characteristic data;
              Slept;
              GattRead eq_characteristic;
              Published "stanmore2/info/eq_profile" (Some "7 5 5 5 5"%string) false;
              Published "stanmore2/info/eq_profile/160hz" (Some "7"%string) false;
              Published "stanmore2/info/eq_profile/400hz" (Some "5"%string) false;
              Published "stanmore2/info/eq_profile/1000hz" (Some "5"%string) false;
              Published "stanmore2/info/eq_profile/2500hz" (Some "5"%string) false;
              Published "stanmore2/info/eq_profile/6250hz" (Some "5"%string) false;
              GattRead eq_characteristic;
              Published "stanmore2/info/eq_preset" (Some "custom"%string) false ]).
Proof.
  intros self message p w data.
  assert (Hover : int_max_str_digits < count_digits (repeat x30 4300%nat ++ [x37]))
    by (vm_compute; reflexivity).
  assert (Hv : 0 <= 7 <= 10) by lia.
  pose proof (@per_band_command_updates_one_band Sim.Device Sim.sim_client
                String.eqb self B160 message 7 p w
                eq_refl eq_refl eq_refl eq_refl Hv)
    as (_ & _ & _ & Hkept & Hlong).
  split; [reflexivity | split; [reflexivity | split; [reflexivity |]]].
  split; [reflexivity | split; [exact Hv | split; [reflexivity |]]].
  split; [exact Hover | split].
  - exact (Hlong _ Hover).
  - exact (Hkept eq_refl).
Defined.

(* ================================================================== *)
(** ** Further properties: bytes and indices                           *)
(* ================================================================== *)

Lemma getitem_nat {T} (data : list T) (n : nat) :
  getitem data (Z.of_nat n) = nth_error data n.
Proof.
  unfold getitem, len.
  replace (Z.of_nat n <? 0) with false by (symmetry; apply Z.ltb_ge; lia).
  replace (0 <=? Z.of_nat n) with true by (symmetry; apply Z.leb_le; lia).
  rewrite Nat2Z.id. cbn [andb].
  destruct (Z.ltb_spec (Z.of_nat n) (Z.of_nat (List.length data))).
  - reflexivity.
  - symmetry. apply nth_error_None. lia.
Qed.

Lemma byte_of_int_of_byte (b : byte) : byte_of_int (int_of_byte b) = Some b.
Proof.
  unfold byte_of_int, int_of_byte.
  pose proof (Byte.to_N_bounded b) as Hb.
  replace ((0 <=? Z.of_N (Byte.to_N b)) && (Z.of_N (Byte.to_N b) <? 256))
    with true
    by (symmetry; apply andb_true_iff; split;
        [apply Z.leb_le | apply Z.ltb_lt]; lia).
  rewrite N2Z.id. apply Byte.of_to_N.
Qed.

Lemma bytearray_of_bytes (l : bytes) :
  bytearray_of_ints (map int_of_byte l) = Some l.
Proof.
  induction l as [| b l IH]; simpl; [reflexivity |].
  now rewrite byte_of_int_of_byte, IH.
Qed.

Lemma int_of_byte_inj (a b : byte) : int_of_byte a = int_of_byte b -> a = b.
Proof.
  intros Heq.
  pose proof (byte_of_int_of_byte a) as Ha.
  rewrite Heq, byte_of_int_of_byte in Ha. congruence.
Qed.

(* ================================================================== *)
(** ** Further properties: the facade's operations                     *)
(* ================================================================== *)

Section FacadeFacts.

Context {Dev : Type} `{GattClient Dev}.

(** X1.  Volume.  In [0, 32] the set operation writes the volume as one
    byte and nothing else; the get operation returns the first byte the
    device answers with, so it returns a volume just set; on an empty
    answer it raises [IndexError].  Outside [0, 32] the set operation
    raises [InvalidVolume] before any transport call. *)
Theorem volume_roundtrip :
  forall (volume : Z) (w : World Dev),
    (0 <= volume <= 32 ->
       exists b : byte,
         int_of_byte b = volume
         /\ Ble.set_volume volume w = Ok tt (written w volume_characteristic [b] [])
         /\ forall (w' : World Dev) (rest : bytes),
              read_gatt_char volume_characteristic (device w') = b :: rest ->
              Ble.get_volume w'
                = Ok volume (logged w' [GattRead volume_characteristic]))
    /\ (~ 0 <= volume <= 32 -> Ble.set_volume volume w = Raise InvalidVolume w)
    /\ (read_gatt_char volume_characteristic (device w) = [] ->
          Ble.get_volume w
            = Raise IndexError (logged w [GattRead volume_characteristic])).
Proof.
  intros volume w. split; [| split]; intros Hv.
  - destruct (@byte_of_int_some volume) as (b & Hsome & Hint); [lia |].
    exists b. split; [exact Hint | split].
    + unfold Ble.set_volume.
      replace ((0 <=? volume) && (volume <=? 32)) with true
        by (symmetry; apply andb_true_iff; split; apply Z.leb_le; lia).
      cbn [negb]. unfold bind, or_raise. cbn [bytearray_of_ints].
      rewrite Hsome. reflexivity.
    + intros w' rest Hread.
      unfold Ble.get_volume, client_read, bind, emit, modify, get, ret.
      cbn [device trace]. rewrite Hread. cbn. now rewrite Hint.
  - unfold Ble.set_volume.
    replace ((0 <=? volume) && (volume <=? 32)) with false; [reflexivity |].
    symmetry. apply andb_false_iff.
    destruct (Z.leb_spec 0 volume); [right | left; reflexivity].
    apply Z.leb_gt. lia.
  - unfold Ble.get_volume, client_read, bind, emit, modify, get, ret.
    cbn [device trace]. now rewrite Hv.
Qed.

Lemma slice_from_header {T} (a b : T) (l : list T) :
  l <> [] -> slice_from (a :: b :: l) 2 = l.
Proof.
  intros Hl. unfold slice_from, clamp_index, len.
  destruct l as [| c l]; [contradiction |].
  cbn [List.length].
  replace (Z.to_nat _) with 2%nat; [reflexivity |].
  change (2 <? 0) with false. cbv iota. lia.
Qed.

(** X2.  Device name.  If the UTF-8 encoding of the name has 1 to 17
    bytes, the set operation writes the byte 1, the length and the encoded
    name, and the get operation on a device answering with these bytes
    returns the name.  An empty name, or one longer than 17 bytes, raises
    [InvalidDeviceName] before any transport call. *)
Theorem device_name_roundtrip :
  forall (name : string) (w : World Dev),
    (0 < len (encode name) <= 17 ->
       exists n : byte,
         int_of_byte n = len (encode name)
         /\ Ble.set_device_name name w
            = Ok tt (written w device_name_characteristic
                       (x01 :: n :: encode name) [])
         /\ (utf8_ok 0 0x80 0xBF (encode name) = true ->
             forall w' : World Dev,
               read_gatt_char device_name_characteristic (device w')
                 = x01 :: n :: encode name ->
               Ble.get_device_name w'
                 = Ok name (logged w' [GattRead device_name_characteristic])))
    /\ (~ 0 < len (encode name) <= 17 ->
          Ble.set_device_name name w = Raise InvalidDeviceName w).
Proof.
  intros name w. split; intros Hn.
  - destruct (@byte_of_int_some (len (encode name))) as (n & Hsome & Hint);
      [lia |].
    exists n. split; [exact Hint | split].
    + unfold Ble.set_device_name.
      replace ((0 <? len (encode name)) && (len (encode name) <=? 17)) with true
        by (symmetry; apply andb_true_iff; split;
            [apply Z.ltb_lt | apply Z.leb_le]; lia).
      cbn [negb]. unfold bind, or_raise. cbn [bytearray_of_ints].
      rewrite Hsome, bytearray_of_bytes. reflexivity.
    + intros Hutf w' Hread.
      unfold Ble.get_device_name, client_read, bind, emit, modify, get, ret.
      cbn [device trace]. rewrite Hread.
      rewrite slice_from_header.
      * unfold decode. rewrite Hutf. unfold ret, encode.
        now rewrite string_of_list_byte_of_string.
      * intros Hnil. rewrite Hnil in Hn. cbn in Hn. lia.
  - unfold Ble.set_device_name.
    replace ((0 <? len (encode name)) && (len (encode name) <=? 17)) with false;
      [reflexivity |].
    symmetry. apply andb_false_iff.
    destruct (Z.ltb_spec 0 (len (encode name))); [right | left; reflexivity].
    apply Z.leb_gt. lia.
Qed.

(** X3.  Command codes.  Each of play, pause, next, previous, the
    interaction-sound switch and the source selection performs exactly one
    transport call, a write of one byte to the control characteristic, and
    no two of these operations send the same byte. *)
Theorem commands_send_one_distinct_byte :
  forall (c : Command) (w : World Dev),
    run_command c w = Ok tt (written w control_characteristic [command_byte c] [])
    /\ forall c' : Command, command_byte c = command_byte c' -> c = c'.
Proof.
  intros c w. split.
  - destruct c as [| | | | [] | []]; reflexivity.
  - intros c'.
    destruct c as [| | | | [] | []]; destruct c' as [| | | | [] | []];
      intros Heq; try reflexivity; discriminate Heq.
Qed.

End FacadeFacts.

Lemma volume_roundtrip_witness :
  let w := Sim.fresh [(volume_characteristic, [])] [] in
  (0 <= 32 <= 32
   /\ exists b : byte,
        int_of_byte b = 32
        /\ Ble.set_volume 32 w = Ok tt (written w volume_characteristic [b] [])
        /\ forall (w' : World Sim.Device) (rest : bytes),
             read_gatt_char volume_characteristic (device w') = b :: rest ->
             Ble.get_volume w'
               = Ok 32 (logged w' [GattRead volume_characteristic]))
  /\ (~ 0 <= 33 <= 32 /\ Ble.set_volume 33 w = Raise InvalidVolume w)
  /\ (read_gatt_char volume_characteristic (device w) = []
      /\ Ble.get_volume w
         = Raise IndexError (logged w [GattRead volume_characteristic])).
Proof.
  intros w. split; [split | split; split].
  - lia.
  - apply (proj1 (volume_roundtrip 32 w)). lia.
  - lia.
  - apply (proj1 (proj2 (volume_roundtrip 33 w))). lia.
  - reflexivity.
  - apply (proj2 (proj2 (volume_roundtrip 0 w))). reflexivity.
Defined.

Lemma device_name_roundtrip_witness :
  let w := Sim.fresh [] [] in
  (0 < len (encode "Kitchen") <= 17
   /\ exists n : byte,
        int_of_byte n = len (encode "Kitchen")
        /\ Ble.set_device_name "Kitchen" w
           = Ok tt (written w device_name_characteristic
                      (x01 :: n :: encode "Kitchen") [])
        /\ (utf8_ok 0 0x80 0xBF (encode "Kitchen") = true ->
            forall w' : World Sim.Device,
              read_gatt_char device_name_characteristic (device w')
                = x01 :: n :: encode "Kitchen" ->
              Ble.get_device_name w'
                = Ok "Kitchen"%string
                    (logged w' [GattRead device_name_characteristic])))
  /\ (~ 0 < len (encode "") <= 17
      /\ Ble.set_device_name "" w = Raise InvalidDeviceName w).
Proof.
  intros w. split; split.
  - cbn. lia.
  - apply (proj1 (device_name_roundtrip "Kitchen" w)). cbn. lia.
  - cbn. lia.
  - apply (proj2 (device_name_roundtrip "" w)). cbn. lia.
Defined.

(* ================================================================== *)
(** ** Further properties: status and equalizer codecs                 *)
(* ================================================================== *)

Lemma source_of_code_ok (b : byte) :
  INT_AUD_SRC_MAPPING (int_of_byte b) = source_of_code b.
Proof. destruct b; reflexivity. Qed.

Lemma play_of_code_ok (b : byte) :
  INT_PLAY_STATUS_MAPPING (int_of_byte b) = play_of_code b.
Proof. destruct b; reflexivity. Qed.

Lemma sound_flag_ok (b : byte) : (int_of_byte b =? 1) = Byte.eqb b x01.
Proof. destruct b; reflexivity. Qed.

(** X4.  Status decoding, case by case on the value.  The source is taken
    from the first byte (3 Bluetooth, 1 AUX, 4 RCA), the play status from
    the second (0 playing, 1 paused, 2 stopped), and the interaction-sound
    flag is set exactly when the fourth byte is 1; the third byte and
    everything after the fourth are ignored.  An empty value raises
    [IndexError]; an unknown source code raises [KeyError] whatever
    follows; with a known source, a value of one byte raises [IndexError]
    and an unknown play-status code raises [KeyError]; with both codes
    known, a value of two or three bytes raises [IndexError] and a value
    of four or more bytes is decoded.  The state is never changed. *)
Theorem decode_status_cases :
  forall (S : Type) (s : S),
    _decode_status [] s = Raise IndexError s
    /\ (forall b0 rest,
          source_of_code b0 = None ->
          _decode_status (b0 :: rest) s = Raise KeyError s)
    /\ (forall b0 source,
          source_of_code b0 = Some source ->
          _decode_status [b0] s = Raise IndexError s)
    /\ (forall b0 b1 rest source,
          source_of_code b0 = Some source ->
          play_of_code b1 = None ->
          _decode_status (b0 :: b1 :: rest) s = Raise KeyError s)
    /\ (forall b0 b1 source play,
          source_of_code b0 = Some source ->
          play_of_code b1 = Some play ->
          _decode_status [b0; b1] s = Raise IndexError s
          /\ forall b2, _decode_status [b0; b1; b2] s = Raise IndexError s)
    /\ (forall b0 b1 b2 b3 rest source play,
          source_of_code b0 = Some source ->
          play_of_code b1 = Some play ->
          _decode_status (b0 :: b1 :: b2 :: b3 :: rest) s
          = Ok (mkStatus source play (Byte.eqb b3 x01)) s).
Proof.
  intros S s. unfold _decode_status, bind, or_raise, ret, raise.
  change SOURCE with (Z.of_nat 0). change PLAY_STATUS with (Z.of_nat 1).
  change INTERATION_SOUND with (Z.of_nat 3).
  repeat apply conj.
  - reflexivity.
  - intros b0 rest Hsrc. rewrite !getitem_nat. cbn [nth_error].
    now rewrite source_of_code_ok, Hsrc.
  - intros b0 source Hsrc. rewrite !getitem_nat. cbn [nth_error].
    now rewrite source_of_code_ok, Hsrc.
  - intros b0 b1 rest source Hsrc Hplay. rewrite !getitem_nat.
    cbn [nth_error]. rewrite source_of_code_ok, Hsrc.
    now rewrite play_of_code_ok, Hplay.
  - intros b0 b1 source play Hsrc Hplay.
    split; [| intros b2]; rewrite !getitem_nat; cbn [nth_error];
      rewrite source_of_code_ok, Hsrc, play_of_code_ok, Hplay; reflexivity.
  - intros b0 b1 b2 b3 rest source play Hsrc Hplay. rewrite !getitem_nat.
    cbn [nth_error]. rewrite source_of_code_ok, Hsrc.
    rewrite play_of_code_ok, Hplay. now rewrite sound_flag_ok.
Qed.

(** A status value of a paused Bluetooth stream, and values cut short or
    with a code outside the tables. *)
Lemma decode_status_cases_witness :
  _decode_status [x03; x01; xff; x01; x00; x00] tt
    = Ok (mkStatus BLUETOOTH PAUSED true) tt
  /\ _decode_status [x04; x02; x00; x02] tt = Ok (mkStatus RCA STOPPED false) tt
  /\ _decode_status [x03; x01; xff] tt = Raise IndexError tt
  /\ _decode_status [x03; x03; xff; x01] tt = Raise KeyError tt
  /\ _decode_status [x00; x01; xff; x01] tt = Raise KeyError tt.
Proof.
  destruct (decode_status_cases tt) as (_ & Hsrc & _ & Hplay & Hshort & Hok).
  split; [| split; [| split; [| split]]].
  - exact (Hok x03 x01 xff x01 [x00; x00] BLUETOOTH PAUSED eq_refl eq_refl).
  - exact (Hok x04 x02 x00 x02 [] RCA STOPPED eq_refl eq_refl).
  - exact (proj2 (Hshort x03 x01 BLUETOOTH PAUSED eq_refl eq_refl) xff).
  - exact (Hplay x03 x03 [xff; x01] BLUETOOTH eq_refl eq_refl).
  - exact (Hsrc x00 [x01; xff; x01] eq_refl).
Defined.

Lemma EqProfile_eqb_eq (p q : EqProfile) : EqProfile_eqb p q = true <-> p = q.
Proof.
  unfold EqProfile_eqb. destruct p, q; cbn [hz160 hz400 hz1000 hz2500 hz6250].
  rewrite !andb_true_iff, !Z.eqb_eq. split.
  - intros ((((-> & ->) & ->) & ->) & ->). reflexivity.
  - intros Heq. inversion Heq. tauto.
Qed.

(** X5.  Presets.  A profile is recognised as a preset exactly when it is
    that preset's profile, and the seven presets have seven different
    profiles. *)
Theorem preset_lookup_by_value :
  forall (preset : EqPreset) (profile : EqProfile),
    (EqPreset_of_value profile = Some preset <-> profile = EqPreset_value preset)
    /\ forall other : EqPreset,
         EqPreset_value other = EqPreset_value preset <-> other = preset.
Proof.
  intros preset profile. split; [split |].
  - intros Hfind. unfold EqPreset_of_value in Hfind.
    apply find_some in Hfind. destruct Hfind as [_ Heq].
    apply EqProfile_eqb_eq in Heq. now symmetry.
  - intros ->. destruct preset; reflexivity.
  - intros other. split.
    + destruct other, preset; intros Heq; try reflexivity; discriminate Heq.
    + now intros ->.
Qed.

Section EqualizerCodec.

Context {Dev : Type} `{GattClient Dev}.

(** X6.  Reading the equalizer.  The read returns a profile exactly when
    the device answers with five bytes, none above 10, and the profile then
    has these five values in order.  An answer of another length raises
    [TypeError]; five bytes with one above 10 raise [ValueError]. *)
Theorem get_equaliser_profile_cases :
  forall w : World Dev,
    let data := read_gatt_char eq_characteristic (device w) in
    match get_equaliser_profile w with
    | Ok p w' =>
        w' = logged w [GattRead eq_characteristic]
        /\ astuple p = map int_of_byte data
        /\ Forall (fun b => int_of_byte b <= 10) data
    | Raise e w' =>
        w' = logged w [GattRead eq_characteristic]
        /\ (e = TypeError /\ List.length data <> 5%nat
            \/ e = ValueError /\ List.length data = 5%nat
               /\ exists b, In b data /\ 10 < int_of_byte b)
    end.
Proof.
  intros w data.
  unfold get_equaliser_profile, client_read, bind, emit, modify, get, ret.
  cbn [device trace]. fold data.
  destruct data as [| a [| b [| c [| d [| e [| f rest]]]]]];
    try (cbn; split; [reflexivity | left; split; [reflexivity | discriminate]]).
  unfold EqProfile_new. cbn [map].
  destruct (forallb band_ok _) eqn:Hok.
  - cbn. split; [reflexivity | split; [reflexivity |]].
    rewrite forallb_forall in Hok.
    repeat constructor;
      match goal with
      | |- int_of_byte ?x <= 10 =>
          specialize (Hok (int_of_byte x));
          unfold band_ok in Hok; rewrite andb_true_iff, !Z.leb_le in Hok;
          apply Hok; cbn; tauto
      end.
  - cbn. split; [reflexivity | right]. split; [reflexivity | split; [reflexivity |]].
    cbn [forallb] in Hok. unfold band_ok in Hok.
    pose proof (int_of_byte_range a). pose proof (int_of_byte_range b).
    pose proof (int_of_byte_range c). pose proof (int_of_byte_range d).
    pose proof (int_of_byte_range e).
    repeat (apply andb_false_iff in Hok;
            destruct Hok as [Hok | Hok];
            [apply andb_false_iff in Hok;
             destruct Hok as [Hok | Hok];
             [apply Z.leb_gt in Hok; lia
             | apply Z.leb_gt in Hok; eexists; split; [| exact Hok]; cbn; tauto]
            |]).
    discriminate Hok.
Qed.

(** X7.  Writing the equalizer.  For a profile with every band in
    [0, 10] the set operation writes its five values as five bytes, in the
    order 160, 400, 1000, 2500, 6250 Hz, and the get operation on a device
    answering with these bytes returns the same profile. *)
Theorem equaliser_profile_roundtrip :
  forall (p : EqProfile) (w : World Dev),
    forallb band_ok (astuple p) = true ->
    exists data : bytes,
      map int_of_byte data = [hz160 p; hz400 p; hz1000 p; hz2500 p; hz6250 p]
      /\ set_equaliser_profile p w = Ok tt (written w eq_characteristic data [])
      /\ forall w' : World Dev,
           read_gatt_char eq_characteristic (device w') = data ->
           get_equaliser_profile w'
             = Ok p (logged w' [GattRead eq_characteristic]).
Proof.
  intros p w Hok.
  destruct (@set_equaliser_profile_ok _ _ p w Hok) as (data & Hmap & Hset).
  exists data. split; [exact Hmap | split; [exact Hset |]].
  intros w' Hread. apply get_equaliser_profile_ok; [| exact Hok].
  now rewrite Hread.
Qed.

(** X8.  Preset round trip.  On a device that answers a read of the
    equalizer characteristic with what was last written, selecting a preset
    and then asking for the preset returns that preset; writing a valid
    profile that is no preset's and asking returns none. *)
Theorem equaliser_preset_roundtrip :
  (forall (data : bytes) (dev : Dev),
     read_gatt_char eq_characteristic
       (write_gatt_char eq_characteristic data dev) = data) ->
  forall w : World Dev,
    (forall preset : EqPreset,
       exists data : bytes,
         map int_of_byte data = astuple (EqPreset_value preset)
         /\ bind (set_equaliser_preset preset) (fun _ => get_equaliser_preset) w
            = Ok (Some preset)
                (written w eq_characteristic data [GattRead eq_characteristic]))
    /\ (forall p : EqProfile,
          forallb band_ok (astuple p) = true ->
          (forall preset, p <> EqPreset_value preset) ->
          exists data : bytes,
            map int_of_byte data = astuple p
            /\ bind (set_equaliser_profile p) (fun _ => get_equaliser_preset) w
               = Ok None
                   (written w eq_characteristic data [GattRead eq_characteristic])).
Proof.
  intros Hlaw w.
  assert (Hgen : forall p : EqProfile,
             forallb band_ok (astuple p) = true ->
             exists data : bytes,
               map int_of_byte data = astuple p
               /\ bind (set_equaliser_profile p) (fun _ => get_equaliser_preset) w
                  = Ok (EqPreset_of_value p)
                      (written w eq_characteristic data
                         [GattRead eq_characteristic])).
  { intros p Hok.
    destruct (@set_equaliser_profile_ok _ _ p w Hok) as (data & Hmap & Hset).
    exists data. split; [exact Hmap |].
    unfold bind at 1. rewrite Hset.
    unfold get_equaliser_preset, bind.
    rewrite (@get_equaliser_profile_ok _ _ p); [| | exact Hok].
    - unfold ret, written. cbn [device trace].
      now rewrite <- app_assoc.
    - cbn [device]. now rewrite Hlaw. }
  split.
  - intros preset.
    destruct (Hgen (EqPreset_value preset)) as (data & Hmap & Hrun);
      [now destruct preset |].
    exists data. split; [exact Hmap |].
    unfold set_equaliser_preset. rewrite Hrun.
    now destruct preset.
  - intros p Hok Hnone.
    destruct (Hgen p Hok) as (data & Hmap & Hrun).
    exists data. split; [exact Hmap |]. rewrite Hrun.
    destruct (EqPreset_of_value p) as [preset |] eqn:Hfind; [| reflexivity].
    exfalso. apply (Hnone preset).
    unfold EqPreset_of_value in Hfind. apply find_some in Hfind.
    destruct Hfind as [_ Heq]. apply EqProfile_eqb_eq in Heq. now symmetry.
Qed.

End EqualizerCodec.

Lemma equaliser_profile_roundtrip_witness :
  let p := mkEqProfile 0 10 5 3 7 in
  let w := Sim.fresh [] [] in
  forallb band_ok (astuple p) = true
  /\ exists data : bytes,
       map int_of_byte data = [hz160 p; hz400 p; hz1000 p; hz2500 p; hz6250 p]
       /\ set_equaliser_profile p w = Ok tt (written w eq_characteristic data [])
       /\ forall w' : World Sim.Device,
            read_gatt_char eq_characteristic (device w') = data ->
            get_equaliser_profile w'
              = Ok p (logged w' [GattRead eq_characteristic]).
Proof.
  intros p w. split; [reflexivity |].
  apply (equaliser_profile_roundtrip p w). reflexivity.
Defined.

Lemma equaliser_preset_roundtrip_witness :
  let w := Sim.fresh [] [] in
  let p := mkEqProfile 7 5 5 5 5 in
  (forall (data : bytes) (dev : Sim.Device),
     read_gatt_char eq_characteristic
       (write_gatt_char eq_characteristic data dev) = data)
  /\ (exists data : bytes,
        map int_of_byte data = astuple (EqPreset_value JAZZ)
        /\ bind (set_equaliser_preset JAZZ) (fun _ => get_equaliser_preset) w
           = Ok (Some JAZZ)
               (written w eq_characteristic data [GattRead eq_characteristic]))
  /\ forallb band_ok (astuple p) = true
  /\ (forall preset, p <> EqPreset_value preset)
  /\ exists data : bytes,
       map int_of_byte data = astuple p
       /\ bind (set_equaliser_profile p) (fun _ => get_equaliser_preset) w
          = Ok None
              (written w eq_characteristic data [GattRead eq_characteristic]).
Proof.
  intros w p.
  assert (Hlaw : forall (data : bytes) (dev : Sim.Device),
             read_gatt_char eq_characteristic
               (write_gatt_char eq_characteristic data dev) = data)
    by (intros; reflexivity).
  assert (Hcustom : forall preset, p <> EqPreset_value preset)
    by (intros []; discriminate).
  split; [exact Hlaw |].
  split; [apply (proj1 (equaliser_preset_roundtrip Hlaw w) JAZZ) |].
  split; [reflexivity |].
  split; [exact Hcustom |].
  apply (proj2 (equaliser_preset_roundtrip Hlaw w) p); [reflexivity | exact Hcustom].
Defined.

(* ================================================================== *)
(** ** Further properties: registries                                  *)
(* ================================================================== *)

Section RegistryMore.

Variable T : Type.

Implicit Types d : OrderedDict T.

Lemma sorted_split (l1 l2 : list Z) (x : Z) :
  StronglySorted Z.lt (l1 ++ x :: l2) ->
  Forall (fun y => y < x) l1 /\ Forall (fun y => x < y) l2.
Proof.
  induction l1 as [| a l1 IH]; simpl; intros Hs.
  - inversion Hs; subst. split; [constructor | assumption].
  - inversion Hs as [| ? ? Hs' Ha]; subst.
    destruct (IH Hs') as [H1 H2]. split; [| assumption].
    constructor; [| assumption].
    rewrite Forall_forall in Ha. apply Ha. apply in_or_app. right. now left.
Qed.

Lemma filter_keeps d (k : Z) :
  Forall (fun y => y <> k) (keys d) ->
  filter (fun kv : Z * T => negb (fst kv =? k)) d = d.
Proof.
  induction d as [| [k' v'] d IH]; simpl; intros Hne; [reflexivity |].
  inversion Hne; subst.
  destruct (Z.eqb_spec k' k); [contradiction |]. simpl. f_equal. now apply IH.
Qed.

Lemma cancel_absent d (k : Z) :
  ~ In k (keys d) -> _cancel_callback k d = Raise InvalidCallbackID d.
Proof.
  intros Hnin. unfold _cancel_callback, bind, get, delitem.
  destruct (contains d k) eqn:Hc; [| reflexivity].
  apply contains_In in Hc. contradiction.
Qed.

Lemma cancel_present d1 d2 (k : Z) (v : T) :
  registry_wf (d1 ++ (k, v) :: d2) ->
  _cancel_callback k (d1 ++ (k, v) :: d2) = Ok tt (d1 ++ d2)
  /\ ~ In k (keys (d1 ++ d2)).
Proof.
  intros [Hs _]. rewrite keys_app in Hs. cbn [keys map fst] in Hs.
  destruct (@sorted_split _ _ _ Hs) as [H1 H2].
  assert (Hne1 : Forall (fun y => y <> k) (keys d1))
    by (eapply Forall_impl; [| exact H1]; simpl; intros; lia).
  assert (Hne2 : Forall (fun y => y <> k) (keys d2))
    by (eapply Forall_impl; [| exact H2]; simpl; intros; lia).
  split.
  - unfold _cancel_callback, bind, get, delitem.
    replace (contains (d1 ++ (k, v) :: d2) k) with true.
    + unfold put. rewrite filter_app. cbn [filter fst].
      rewrite Z.eqb_refl. cbn [negb].
      now rewrite !filter_keeps.
    + symmetry. apply contains_In. rewrite keys_app. apply in_or_app.
      right. now left.
  - rewrite keys_app. intros Hin. apply in_app_or in Hin.
    rewrite Forall_forall in Hne1, Hne2.
    destruct Hin as [Hin | Hin]; [now apply (Hne1 _ Hin) | now apply (Hne2 _ Hin)].
Qed.

(** X9.  Cancelling.  In a registry reached from the empty one by
    register and cancel calls, cancelling a registered ID removes exactly
    its entry and leaves the other entries, their IDs and their order as
    they were; cancelling the same ID again raises [InvalidCallbackID].
    Cancelling an ID that is not registered raises [InvalidCallbackID] and
    leaves the registry as it was. *)
Theorem cancel_removes_one_entry :
  forall (ops : list (RegistryOp T)) (d1 d2 : OrderedDict T) (k : Z) (v : T),
    fst (run_ops ops []) = d1 ++ (k, v) :: d2 ->
    _cancel_callback k (d1 ++ (k, v) :: d2) = Ok tt (d1 ++ d2)
    /\ _cancel_callback k (d1 ++ d2) = Raise InvalidCallbackID (d1 ++ d2)
    /\ forall k' : Z,
         ~ In k' (keys (d1 ++ (k, v) :: d2)) ->
         _cancel_callback k' (d1 ++ (k, v) :: d2)
           = Raise InvalidCallbackID (d1 ++ (k, v) :: d2).
Proof.
  intros ops d1 d2 k v Hd.
  assert (Hwf : registry_wf (d1 ++ (k, v) :: d2)).
  { rewrite <- Hd. apply run_ops_wf. split; constructor. }
  destruct (@cancel_present _ _ _ _ Hwf) as [Hok Hnin].
  split; [exact Hok | split].
  - now apply cancel_absent.
  - intros k' Hk'. now apply cancel_absent.
Qed.

(** X10.  Register, then cancel.  In a registry reached from the empty
    one, registering a handler and cancelling the ID that was returned
    gives back the registry as it was before. *)
Theorem register_then_cancel_restores :
  forall (ops : list (RegistryOp T)) (callback : T),
    let d := fst (run_ops ops []) in
    exists callback_id,
      _register_callback callback d
        = Ok callback_id (d ++ [(callback_id, callback)])
      /\ _cancel_callback callback_id (d ++ [(callback_id, callback)]) = Ok tt d.
Proof.
  intros ops callback d.
  assert (Hwf : registry_wf d) by (apply run_ops_wf; split; constructor).
  destruct (register_fresh callback Hwf) as (i & Heq & _ & _ & _ & Hwf').
  exists i. split; [exact Heq |].
  destruct (@cancel_present d [] i callback Hwf') as [Hok _].
  now rewrite app_nil_r in Hok.
Qed.

Lemma number_from_app (i : Z) (a b : list T) :
  number_from i (a ++ b) = number_from i a ++ number_from (i + len a) b.
Proof.
  revert i. induction a as [| x a IH]; intros i; simpl.
  - f_equal. unfold len. simpl. lia.
  - rewrite IH. do 3 f_equal. unfold len. cbn [List.length]. lia.
Qed.

Lemma number_from_keys (i : Z) (l : list T) :
  Forall (fun k => i <= k < i + len l) (keys (number_from i l)).
Proof.
  revert i. induction l as [| x l IH]; intros i; simpl; constructor.
  - unfold len. cbn [List.length]. lia.
  - eapply Forall_impl; [| apply IH]. simpl. unfold len. cbn [List.length].
    intros; lia.
Qed.

Lemma number_from_values (i : Z) (l : list T) : values (number_from i l) = l.
Proof.
  revert i. induction l as [| x l IH]; intros i; simpl; [reflexivity |].
  f_equal. apply IH.
Qed.

Lemma register_on_numbered (pre : list T) (callback : T) :
  _register_callback callback (number_from 1 pre)
  = Ok (1 + len pre) (number_from 1 (pre ++ [callback])).
Proof.
  assert (Hid : match last_key (number_from 1 pre) with
                | Some k => k + 1
                | None => 1
                end = 1 + len pre).
  { destruct pre as [| x pre'] using rev_ind; [reflexivity |].
    rewrite number_from_app. cbn [number_from]. rewrite last_key_snoc.
    unfold len. rewrite length_app. cbn [List.length]. lia. }
  unfold _register_callback, bind, get, put, ret. rewrite Hid.
  rewrite setitem_fresh.
  - rewrite number_from_app. reflexivity.
  - intros Hin. pose proof (number_from_keys 1 pre) as Hk.
    rewrite Forall_forall in Hk. specialize (Hk _ Hin). lia.
Qed.

Lemma run_registrations (callbacks pre : list T) :
  run_ops (map (@Register T) callbacks) (number_from 1 pre)
  = (number_from 1 (pre ++ callbacks),
     map Issued (keys (number_from (1 + len pre) callbacks))).
Proof.
  revert pre. induction callbacks as [| cb callbacks IH]; intros pre.
  - cbn. now rewrite app_nil_r.
  - cbn [map run_ops]. rewrite register_on_numbered. cbn [state_of].
    rewrite IH. rewrite <- app_assoc. cbn [app number_from keys map fst].
    replace (1 + len (pre ++ [cb])) with (1 + len pre + 1); [reflexivity |].
    unfold len. rewrite length_app. cbn [List.length]. lia.
Qed.

(** X11.  Registering in a row.  Registering handlers one after the
    other on a new registry issues the IDs 1, 2, 3, ... in that order, and a
    dispatch then calls the handlers in the order they were registered. *)
Theorem registrations_count_from_one :
  forall (callbacks : list T),
    run_ops (map (@Register T) callbacks) []
    = (number_from 1 callbacks, map Issued (keys (number_from 1 callbacks)))
    /\ values (fst (run_ops (map (@Register T) callbacks) [])) = callbacks.
Proof.
  intros callbacks.
  pose proof (run_registrations callbacks []) as Hrun.
  cbn [number_from app] in Hrun. change (1 + len []) with 1 in Hrun.
  split; [exact Hrun |].
  rewrite Hrun. apply number_from_values.
Qed.

End RegistryMore.

Lemma cancel_removes_one_entry_witness :
  fst (run_ops [Register 10%nat; Register 20%nat; Register 30%nat] [])
    = [(1, 10%nat)] ++ (2, 20%nat) :: [(3, 30%nat)]
  /\ _cancel_callback 2 ([(1, 10%nat)] ++ (2, 20%nat) :: [(3, 30%nat)])
     = Ok tt ([(1, 10%nat)] ++ [(3, 30%nat)])
  /\ _cancel_callback 2 ([(1, 10%nat)] ++ [(3, 30%nat)])
     = Raise InvalidCallbackID ([(1, 10%nat)] ++ [(3, 30%nat)])
  /\ forall k' : Z,
       ~ In k' (keys ([(1, 10%nat)] ++ (2, 20%nat) :: [(3, 30%nat)])) ->
       _cancel_callback k' ([(1, 10%nat)] ++ (2, 20%nat) :: [(3, 30%nat)])
         = Raise InvalidCallbackID ([(1, 10%nat)] ++ (2, 20%nat) :: [(3, 30%nat)]).
Proof.
  split; [reflexivity |].
  apply (cancel_removes_one_entry
           [Register 10%nat; Register 20%nat; Register 30%nat]
           [(1, 10%nat)] [(3, 30%nat)] 2 20%nat).
  reflexivity.
Defined.

(* ================================================================== *)
(** ** Further properties: media info                                  *)
(* ================================================================== *)

Section ReassemblerMore.

Variable W : Type.

Implicit Types s : Self W.

Lemma appended_nil s : appended [] s = s.
Proof.
  destruct s as [[a b c d e buffer] w]. unfold appended, set_media_info_buffer.
  cbn. now rewrite app_nil_r.
Qed.

Lemma appended_appended (a b : bytes) s :
  appended b (appended a s) = appended (a ++ b) s.
Proof.
  unfold appended, set_media_info_buffer. cbn. now rewrite app_assoc.
Qed.

Lemma feed_without_sentinel (chunks : list bytes) s :
  Forall (fun chunk => slice_from chunk (-8) <> _media_info_ending_bytes) chunks ->
  feed chunks s = appended (List.concat chunks) s.
Proof.
  revert s. induction chunks as [| chunk chunks IH]; intros s Hno.
  - cbn. now rewrite appended_nil.
  - inversion Hno as [| ? ? Hchunk Hrest]; subst. cbn [feed List.concat].
    destruct (on_media_info_cases s chunk) as [_ Hkeep].
    rewrite (Hkeep Hchunk). cbn [state_of].
    rewrite (IH _ Hrest). apply appended_appended.
Qed.

(** X12.  Chunking.  As long as no chunk ends with the eight sentinel
    bytes, the notifications only accumulate: the buffer is the old buffer
    followed by the chunks in order, and no handler is called.  When a
    chunk that ends with the sentinel follows, the message handled is that
    whole buffer, however it was cut into chunks. *)
Theorem chunks_accumulate_until_sentinel :
  forall (chunks : list bytes) (last : bytes) (s : Self W),
    Forall (fun chunk => slice_from chunk (-8) <> _media_info_ending_bytes)
      chunks ->
    feed chunks s = appended (List.concat chunks) s
    /\ snd (feed chunks s) = snd s
    /\ (slice_from last (-8) = _media_info_ending_bytes ->
        _on_media_info last (feed chunks s)
          = _handle_media_info (appended (List.concat chunks ++ last) s)).
Proof.
  intros chunks last s Hno.
  rewrite (feed_without_sentinel s Hno).
  split; [reflexivity | split; [reflexivity |]].
  intros Hlast.
  destruct (on_media_info_cases (appended (List.concat chunks) s) last) as [Hyes _].
  rewrite (Hyes Hlast). now rewrite appended_appended.
Qed.

End ReassemblerMore.

Lemma chunks_accumulate_until_sentinel_witness :
  let s : Self (list MediaInfo) :=
    (state_of (register_media_info_callback collect (__init__ _)), []) in
  let chunks := [firstn 5 chunk_title; skipn 5 chunk_title; chunk_artist;
                 [x00; x00; x00; xff]] in
  let last := [x00; x00; x00; x03; x00; x6a; x00; x00] ++ chunk_sentinel in
  Forall (fun chunk => slice_from chunk (-8) <> _media_info_ending_bytes) chunks
  /\ slice_from last (-8) = _media_info_ending_bytes
  /\ feed chunks s = appended (List.concat chunks) s
  /\ snd (feed chunks s) = snd s
  /\ _on_media_info last (feed chunks s)
     = _handle_media_info (appended (List.concat chunks ++ last) s).
Proof.
  intros s chunks last.
  assert (Hno : Forall (fun chunk =>
                          slice_from chunk (-8) <> _media_info_ending_bytes)
                  chunks)
    by (repeat constructor; discriminate).
  destruct (chunks_accumulate_until_sentinel last s Hno) as (Hfeed & Hsnd & Hlast).
  split; [exact Hno |].
  split; [reflexivity |].
  split; [exact Hfeed |].
  split; [exact Hsnd |].
  apply Hlast. reflexivity.
Defined.

Lemma firstn_beyond {T} (l : list T) (n : Z) :
  firstn (Z.to_nat (Z.min (len l) n)) l = firstn (Z.to_nat n) l.
Proof.
  unfold len. destruct (Z.le_gt_cases n (Z.of_nat (List.length l))).
  - now rewrite Z.min_r by lia.
  - rewrite Z.min_l by lia. rewrite Nat2Z.id.
    rewrite firstn_all. symmetry. apply firstn_all2. lia.
Qed.

Lemma decode_index_at_marker (S : Type) (before marker rest : bytes)
  (n : byte) (s : S) :
  List.length marker = 7%nat ->
  _decode_index (before ++ marker ++ n :: rest) (len before) s
    = decode (firstn (Z.to_nat (int_of_byte n)) rest) s
  /\ _decode_index (before ++ marker) (len before) s = Raise IndexError s.
Proof.
  intros Hm.
  assert (Hpos : len before + 7 = Z.of_nat (List.length (before ++ marker)))
    by (unfold len; rewrite length_app; lia).
  split.
  - unfold _decode_index, bind, or_raise.
    rewrite Hpos, getitem_nat.
    rewrite app_assoc, nth_error_app2 by lia.
    rewrite Nat.sub_diag. cbn [nth_error ret].
    unfold slice.
    pose proof (int_of_byte_range n) as Hn.
    set (data := (before ++ marker) ++ n :: rest).
    assert (Hlen : len data = Z.of_nat (List.length (before ++ marker)) + 1 + len rest).
    { unfold data, len. rewrite length_app. cbn [List.length]. lia. }
    assert (Hrest : 0 <= len rest) by (unfold len; lia).
    set (start := Z.of_nat (List.length (before ++ marker)) + 1).
    assert (Ha : clamp_index (len data) start = start).
    { unfold clamp_index.
      replace (start <? 0) with false by (symmetry; apply Z.ltb_ge; lia).
      lia. }
    assert (Hb : clamp_index (len data) (start + int_of_byte n)
                 = start + Z.min (len rest) (int_of_byte n)).
    { unfold clamp_index.
      replace (start + int_of_byte n <? 0) with false
        by (symmetry; apply Z.ltb_ge; lia).
      lia. }
    rewrite Ha, Hb.
    replace (start + Z.min (len rest) (int_of_byte n) - start)
      with (Z.min (len rest) (int_of_byte n)) by lia.
    replace (skipn (Z.to_nat start) data) with rest.
    + now rewrite firstn_beyond.
    + unfold data, start.
      replace (Z.to_nat (Z.of_nat (List.length (before ++ marker)) + 1))
        with (List.length (before ++ marker) + 1)%nat by lia.
      rewrite skipn_app. rewrite skipn_all2 by lia.
      replace (List.length (before ++ marker) + 1
               - List.length (before ++ marker))%nat with 1%nat by lia.
      reflexivity.
  - unfold _decode_index, bind, or_raise.
    rewrite Hpos, getitem_nat.
    replace (nth_error (before ++ marker) (List.length (before ++ marker)))
      with (@None byte); [reflexivity |].
    symmetry. apply nth_error_None. lia.
Qed.

(** X13.  A field.  At a marker of seven bytes that is followed by a
    length byte, [_decode_index] decodes the bytes after the length byte,
    as many as the length byte says or, when fewer remain, those that
    remain.  At a marker that ends the buffer it raises [IndexError]. *)
Theorem decode_index_reads_field :
  forall (S : Type) (before marker rest : bytes) (n : byte) (s : S),
    List.length marker = 7%nat ->
    _decode_index (before ++ marker ++ n :: rest) (len before) s
      = decode (firstn (Z.to_nat (int_of_byte n)) rest) s
    /\ _decode_index (before ++ marker) (len before) s = Raise IndexError s.
Proof.
  intros S before marker rest n s Hm. now apply decode_index_at_marker.
Qed.

Lemma decode_index_reads_field_witness :
  List.length [x00; x00; x00; x01; x00; x6a; x00] = 7%nat
  /\ _decode_index
       (chunk_artist ++ [x00; x00; x00; x01; x00; x6a; x00] ++ x09 :: list_byte_of_string "hello")
       (len chunk_artist) tt
     = decode (firstn (Z.to_nat (int_of_byte x09)) (list_byte_of_string "hello")) tt
  /\ _decode_index (chunk_artist ++ [x00; x00; x00; x01; x00; x6a; x00])
       (len chunk_artist) tt
     = Raise IndexError tt.
Proof.
  split; [reflexivity |].
  apply (decode_index_reads_field chunk_artist
           [x00; x00; x00; x01; x00; x6a; x00] (list_byte_of_string "hello")
           x09 tt).
  reflexivity.
Defined.

Lemma bytes_find_cons (sub : bytes) (a : byte) (l : bytes) :
  startswith sub (a :: l) = false ->
  bytes_find sub (a :: l) = option_map Z.succ (bytes_find sub l).
Proof. intros Hno. cbn [bytes_find]. now rewrite Hno. Qed.

Lemma bytes_find_here (sub data : bytes) :
  startswith sub data = true -> bytes_find sub data = Some 0.
Proof. intros Hyes. destruct data; cbn [bytes_find]; now rewrite Hyes. Qed.

Lemma bytes_find_skip (sub before rest : bytes) :
  (forall p, (p < List.length before)%nat ->
             startswith sub (skipn p (before ++ rest)) = false) ->
  bytes_find sub (before ++ rest)
  = option_map (Z.add (len before)) (bytes_find sub rest).
Proof.
  induction before as [| a before IH]; intros Hno.
  - cbn [app]. destruct (bytes_find sub rest); reflexivity.
  - cbn [app]. rewrite bytes_find_cons by (apply (Hno 0%nat); cbn; lia).
    rewrite IH.
    + destruct (bytes_find sub rest); cbn [option_map]; [| reflexivity].
      f_equal. unfold len. cbn [List.length]. lia.
    + intros p Hp. apply (Hno (S p)). cbn. lia.
Qed.

Lemma startswith_marker (id : byte) (rest : bytes) :
  startswith (field_marker id) (field_marker id ++ rest) = true.
Proof.
  unfold field_marker. cbn [app startswith].
  rewrite (Byte.byte_dec_lb (eq_refl id)). reflexivity.
Qed.

Lemma eqb_x00_false (c : byte) : c <> x00 -> Byte.eqb x00 c = false.
Proof.
  intros Hc. destruct (Byte.eqb x00 c) eqn:He; [| reflexivity].
  apply Byte.byte_dec_bl in He. congruence.
Qed.

(** The marker of field [j] does not begin inside a field [i] that is
    followed by three zero bytes, when [i] differs from [j]. *)
Lemma no_marker_inside_field (i j n k : byte) (text rest : bytes) :
  i <> j -> i <> x00 -> j <> x00 -> field_text text n ->
  forall p, (p < List.length (field i text n))%nat ->
    startswith (field_marker j)
      (skipn p (field i text n ++ x00 :: x00 :: x00 :: k :: rest)) = false.
Proof.
  intros Hij Hi Hj (Hn & Hzero & _) p Hp.
  assert (Hji : Byte.eqb j i = false).
  { destruct (Byte.eqb j i) eqn:He; [| reflexivity].
    apply Byte.byte_dec_bl in He. congruence. }
  assert (Hj0 : Byte.eqb j x00 = false).
  { destruct (Byte.eqb j x00) eqn:He; [| reflexivity].
    apply Byte.byte_dec_bl in He. congruence. }
  pose proof (eqb_x00_false Hi) as Hi0.
  assert (Hn0 : text <> [] -> Byte.eqb x00 n = false).
  { intros Htext. apply eqb_x00_false. intros ->.
    destruct text; [contradiction |]. unfold len in Hn. cbn in Hn. lia. }
  unfold field, field_marker in *. cbn [app List.length] in *.
  destruct p as [| [| [| [| [| [| [| [| q]]]]]]]]; cbn [skipn startswith].
  9: { assert (Hq : (q < List.length text)%nat) by lia.
       rewrite skipn_app.
       destruct (skipn q text) as [| c tail] eqn:Hskip.
       - apply (f_equal (@List.length byte)) in Hskip.
         rewrite length_skipn in Hskip. cbn in Hskip. lia.
       - cbn [app startswith]. rewrite eqb_x00_false; [reflexivity |].
         intros ->. apply Hzero.
         rewrite <- (firstn_skipn q text). apply in_or_app. right.
         rewrite Hskip. now left. }
  all: try (destruct text as [| c text];
            [cbn [app startswith] | rewrite Hn0 by discriminate]).
  all: rewrite ?Hji, ?Hj0, ?Hi0;
    change (Byte.eqb x00 x6a) with false;
    cbn [andb]; rewrite ?andb_false_r; reflexivity.
Qed.

Lemma firstn_text (text more : bytes) (n : byte) :
  int_of_byte n = len text ->
  firstn (Z.to_nat (int_of_byte n)) (text ++ more) = text.
Proof.
  intros ->. unfold len. rewrite Nat2Z.id.
  rewrite firstn_app, Nat.sub_diag, firstn_all. cbn. apply app_nil_r.
Qed.

Lemma extract_field (S B : Type) (data before after text : bytes)
  (id n : byte) (K : option string -> M S B) (s : S) :
  data = before ++ field id text n ++ after ->
  field_text text n ->
  bytes_find (field_marker id) data = Some (len before) ->
  bind (bytes_index data (field_marker id))
    (fun pos =>
       bind (if pos =? -1 then ret None
             else bind (_decode_index data pos) (fun t => ret (Some t)))
         K) s
  = K (Some (string_of_list_byte text)) s.
Proof.
  intros Hdata (Hn & _ & Hutf) Hfind.
  unfold bind at 1. unfold bytes_index, or_raise. rewrite Hfind. unfold ret at 1.
  replace (len before =? -1) with false
    by (symmetry; apply Z.eqb_neq; unfold len; lia).
  unfold bind. rewrite Hdata. unfold field.
  rewrite <- (app_assoc (field_marker id)). cbn [app].
  rewrite (proj1 (@decode_index_at_marker S before (field_marker id)
                    (text ++ after) n s eq_refl)).
  rewrite (@firstn_text text after n Hn). unfold decode. rewrite Hutf.
  reflexivity.
Qed.

Lemma find_three_markers (t1 t2 t3 tail : bytes) (n1 n2 n3 : byte) :
  field_text t1 n1 -> field_text t2 n2 -> field_text t3 n3 ->
  let data := field x01 t1 n1 ++ field x02 t2 n2 ++ field x03 t3 n3 ++ tail in
  bytes_find (field_marker x01) data = Some (len (@nil byte))
  /\ bytes_find (field_marker x02) data = Some (len (field x01 t1 n1))
  /\ bytes_find (field_marker x03) data
     = Some (len (field x01 t1 n1 ++ field x02 t2 n2)).
Proof.
  intros H1 H2 H3 data. unfold data.
  assert (Hhere : forall id text n rest,
             bytes_find (field_marker id) (field id text n ++ rest) = Some 0).
  { intros id text n rest. apply bytes_find_here. unfold field.
    rewrite <- app_assoc. apply startswith_marker. }
  split; [apply Hhere | split].
  - rewrite bytes_find_skip.
    + rewrite Hhere. cbn [option_map]. f_equal; lia.
    + intros p Hp.
      apply (@no_marker_inside_field x01 x02 n1 x02 t1
               (x00 :: x6a :: x00 :: n2 :: t2 ++ field x03 t3 n3 ++ tail));
        [discriminate | discriminate | discriminate | exact H1 | exact Hp].
  - rewrite bytes_find_skip.
    + rewrite bytes_find_skip.
      * rewrite Hhere. cbn [option_map]. f_equal; rewrite ?len_app; lia.
      * intros p Hp.
        apply (@no_marker_inside_field x02 x03 n2 x03 t2
                 (x00 :: x6a :: x00 :: n3 :: t3 ++ tail));
          [discriminate | discriminate | discriminate | exact H2 | exact Hp].
    + intros p Hp.
      apply (@no_marker_inside_field x01 x03 n1 x02 t1
               (x00 :: x6a :: x00 :: n2 :: t2 ++ field x03 t3 n3 ++ tail));
        [discriminate | discriminate | discriminate | exact H1 | exact Hp].
Qed.

Section ThreeFields.

Variable W : Type.

(** X14.  A complete message.  Let the buffer hold a title field, an
    artist field and an album field, in this order, each a marker, a length
    byte and a UTF-8 text of that length without zero bytes, followed by
    anything (the sentinel, say).  Then handling builds the [MediaInfo] of
    the three texts and dispatches it to the registered handlers, and the
    buffer is empty afterwards; an exception of a handler leaves the
    handling with the buffer empty as well. *)
Theorem three_fields_decoded :
  forall (self : MarshallStanmore2 W) (w : W) (t1 t2 t3 tail : bytes)
         (n1 n2 n3 : byte),
    field_text t1 n1 -> field_text t2 n2 -> field_text t3 n3 ->
    let data := field x01 t1 n1 ++ field x02 t2 n2 ++ field x03 t3 n3 ++ tail in
    let media_info :=
      mkMediaInfo (Some (string_of_list_byte t1)) (Some (string_of_list_byte t2))
        (Some (string_of_list_byte t3)) in
    _handle_media_info (set_media_info_buffer data self, w)
    = match dispatch (_media_info_callbacks self) media_info w with
      | Ok _ w' => Ok tt (set_media_info_buffer [] self, w')
      | Raise e w' => Raise e (set_media_info_buffer [] self, w')
      end.
Proof.
  intros self w t1 t2 t3 tail n1 n2 n3 H1 H2 H3 data media_info.
  destruct (find_three_markers tail H1 H2 H3) as (Hf1 & Hf2 & Hf3).
  fold data in Hf1, Hf2, Hf3.
  unfold _handle_media_info. unfold bind at 1. unfold get.
  cbn [fst snd _media_info_buffer set_media_info_buffer].
  change [x00; x00; x00; x01; x00; x6a; x00] with (field_marker x01).
  change [x00; x00; x00; x02; x00; x6a; x00] with (field_marker x02).
  change [x00; x00; x00; x03; x00; x6a; x00] with (field_marker x03).
  unfold try_finally.
  rewrite (@extract_field _ _ data [] (field x02 t2 n2 ++ field x03 t3 n3 ++ tail)
             t1 x01 n1); [| reflexivity | exact H1 | exact Hf1].
  rewrite (@extract_field _ _ data (field x01 t1 n1) (field x03 t3 n3 ++ tail)
             t2 x02 n2); [| reflexivity | exact H2 | exact Hf2].
  rewrite (@extract_field _ _ data (field x01 t1 n1 ++ field x02 t2 n2) tail
             t3 x03 n3);
    [| unfold data; now rewrite <- app_assoc | exact H3 | exact Hf3].
  unfold on_snd. cbn [fst snd]. fold media_info.
  change (_media_info_callbacks (set_media_info_buffer data self))
    with (_media_info_callbacks self).
  destruct (dispatch (_media_info_callbacks self) media_info w) as [[] w' | e w'];
    reflexivity.
Qed.

End ThreeFields.

Lemma three_fields_decoded_witness :
  let self := state_of (register_media_info_callback collect (__init__ _)) in
  let t1 := list_byte_of_string "hello" in
  let t2 := list_byte_of_string "artist" in
  let t3 : bytes := [] in
  let data := field x01 t1 x05 ++ field x02 t2 x06 ++ field x03 t3 x00
              ++ chunk_sentinel in
  let media_info :=
    mkMediaInfo (Some (string_of_list_byte t1)) (Some (string_of_list_byte t2))
      (Some (string_of_list_byte t3)) in
  field_text t1 x05 /\ field_text t2 x06 /\ field_text t3 x00
  /\ _handle_media_info (set_media_info_buffer data self, [])
     = match dispatch (_media_info_callbacks self) media_info [] with
       | Ok _ w' => Ok tt (set_media_info_buffer [] self, w')
       | Raise e w' => Raise e (set_media_info_buffer [] self, w')
       end.
Proof.
  intros self t1 t2 t3 data media_info.
  assert (H1 : field_text t1 x05).
  { repeat split. intros Hin. cbn in Hin.
    repeat (destruct Hin as [Hin | Hin]; [discriminate Hin |]). exact Hin. }
  assert (H2 : field_text t2 x06).
  { repeat split. intros Hin. cbn in Hin.
    repeat (destruct Hin as [Hin | Hin]; [discriminate Hin |]). exact Hin. }
  assert (H3 : field_text t3 x00).
  { repeat split. intros Hin. exact Hin. }
  split; [exact H1 | split; [exact H2 | split; [exact H3 |]]].
  apply (@three_fields_decoded _ self [] t1 t2 t3 chunk_sentinel x05 x06 x00 H1 H2 H3).
Defined.

(* ================================================================== *)
(** ** Further properties: command handlers                             *)
(* ================================================================== *)


Lemma range_test_false (lo hi x : Z) :
  ~ lo <= x <= hi -> (lo <=? x) && (x <=? hi) = false.
Proof.
  intros Hx. apply andb_false_iff.
  destruct (Z.leb_spec lo x); [right | left; reflexivity].
  apply Z.leb_gt. lia.
Qed.

Section CommandFacts.

Context {Dev : Type} `{GattClient Dev}.

Variable matches : string -> string -> bool.
Variable int_of_str : string -> option Z.
Variable upper : string -> string.
Variable wakeup : M (World Dev) unit.
Variable self : MqttControl.







Lemma decode_ok {S} (data : bytes) (s : S) :
  utf8_ok 0 0x80 0xBF data = true ->
  decode data s = Ok (string_of_list_byte data) s.
Proof. intros Hutf. unfold decode. now rewrite Hutf. Qed.

Lemma decode_fails {S} (data : bytes) (s : S) :
  utf8_ok 0 0x80 0xBF data = false ->
  decode data s = Raise UnicodeDecodeError s.
Proof. intros Hutf. unfold decode. now rewrite Hutf. Qed.








(** X18.  A per-band command with a bad value.  The handler reads the
    profile from the device before it looks at the payload.  With a payload
    that [int] rejects, or a value outside [0, 10], that read is all it
    does: it returns, or raises, as the read does, and nothing is written
    or published. *)
Theorem per_band_command_bad_value :
  forall (hz_str : string) (payload : bytes) (w : World Dev),
    int_of_bytes payload = None
    \/ (exists v, int_of_bytes payload = Some v /\ ~ 0 <= v <= 10) ->
    _set_individual_eq self hz_str payload w
    = bind get_equaliser_profile (fun _ => ret tt) w.
Proof.
  intros hz_str payload w Hbad. unfold _set_individual_eq, bind.
  destruct (get_equaliser_profile w) as [p w' | e w']; [| reflexivity].
  destruct Hbad as [Hnone | (v & Hparse & Hrange)].
  - now rewrite Hnone.
  - rewrite Hparse. now rewrite range_test_false by exact Hrange.
Qed.







(** *** What is published can be sent back *)








(** X21.  Routing.  Take a message whose topic matches none of the
    nineteen command addresses that the router tests before
    [command/enter_pairing_mode]: a topic that is no command at all, or
    the pairing address itself.  If the topic does not match the pairing
    address either, or pairing is not allowed, the router does nothing:
    no transport call, no publication.  If pairing is allowed and the
    topic matches, the router performs one write of a zero byte to the
    pairing characteristic. *)
Theorem unmatched_command_ignored :
  forall (message : Message) (w : World Dev),
    (forall name : string,
       In name routed_addresses ->
       matches (message_topic message) (topic self name) = false) ->
    let handled :=
      Commands._handle_command matches int_of_str upper wakeup self message w in
    let pairing :=
      matches (message_topic message) (topic self "command/enter_pairing_mode") in
    (_allow_pairing self = false -> handled = Ok tt w)
    /\ (pairing = false -> handled = Ok tt w)
    /\ (_allow_pairing self = true -> pairing = true ->
        handled = Ok tt (written w pairing_characteristic [x00] [])).
Proof.
  intros message w Hnone handled pairing.
  assert (Hgate : handled
                  = if _allow_pairing self && pairing
                    then Commands.enter_pairing_mode w else Ok tt w).
  { unfold handled, pairing, Commands._handle_command, Commands.at_.
    repeat match goal with
           | |- context [matches (message_topic message) (topic self ?name)] =>
               rewrite (Hnone name)
                 by (cbn [In routed_addresses];
                     repeat first [left; reflexivity | right])
           end.
    now destruct (_allow_pairing self && _). }
  rewrite Hgate. repeat split.
  - now intros ->.
  - intros ->. now rewrite andb_false_r.
  - now intros -> ->.
Qed.

(** *** No pairing unless allowed *)

Lemma quiet_ret (A : Type) (a : A) : adds_no_pairing_write (Dev := Dev) (ret a).
Proof. intros w Hw. exact Hw. Qed.

Lemma quiet_raise (A : Type) (e : exn) :
  adds_no_pairing_write (Dev := Dev) (A := A) (raise e).
Proof. intros w Hw. exact Hw. Qed.

Lemma quiet_bind (A B : Type) (m : M (World Dev) A) (k : A -> M (World Dev) B) :
  adds_no_pairing_write m -> (forall a, adds_no_pairing_write (k a)) ->
  adds_no_pairing_write (bind m k).
Proof.
  intros Hm Hk w Hw. specialize (Hm w Hw). unfold bind.
  destruct (m w) as [a w' | e w']; [| exact Hm]. now apply Hk.
Qed.

Lemma quiet_try_except (A : Type) (body : M (World Dev) A)
  (classes : exn -> bool) (handler : exn -> M (World Dev) A) :
  adds_no_pairing_write body -> (forall e, adds_no_pairing_write (handler e)) ->
  adds_no_pairing_write (try_except body classes handler).
Proof.
  intros Hbody Hhandler w Hw. specialize (Hbody w Hw). unfold try_except.
  destruct (body w) as [a w' | e w']; [exact Hbody |].
  destruct (classes e); [now apply Hhandler | exact Hbody].
Qed.

Lemma quiet_or_raise (A : Type) (o : option A) (e : exn) :
  adds_no_pairing_write (Dev := Dev) (or_raise o e).
Proof. destruct o; [apply quiet_ret | apply quiet_raise]. Qed.

Lemma quiet_decode (data : bytes) : adds_no_pairing_write (Dev := Dev) (decode data).
Proof.
  unfold decode. destruct (utf8_ok _ _ _ _); [apply quiet_ret | apply quiet_raise].
Qed.

Lemma quiet_emit (ev : Event) :
  (forall data, ev <> GattWrite pairing_characteristic data) ->
  adds_no_pairing_write (Dev := Dev) (emit ev).
Proof.
  intros Hev w Hw data Hin. cbn in Hin. apply in_app_or in Hin.
  destruct Hin as [Hin | [Hin | []]]; [now apply (Hw data) | now apply (Hev data)].
Qed.

Lemma quiet_read (c : string) : adds_no_pairing_write (client_read c).
Proof.
  unfold client_read. apply quiet_bind; [apply quiet_emit; discriminate |].
  intros _. apply quiet_bind; [| intros; apply quiet_ret].
  intros w Hw. exact Hw.
Qed.

Lemma quiet_write (c : string) (data : bytes) :
  c <> pairing_characteristic -> adds_no_pairing_write (client_write c data).
Proof.
  intros Hc. unfold client_write. apply quiet_bind.
  - apply quiet_emit. intros d Heq. inversion Heq. contradiction.
  - intros _ w Hw. exact Hw.
Qed.

Lemma quiet_publish (topic : string) (payload : option string)
  (retain : option bool) :
  adds_no_pairing_write (Dev := Dev) (_publish self topic payload retain).
Proof. unfold _publish. apply quiet_emit. discriminate. Qed.

Lemma quiet_sleep : adds_no_pairing_write (Dev := Dev) sleep.
Proof. unfold sleep. apply quiet_emit. discriminate. Qed.

Lemma quiet_EqProfile_new (args : list Z) :
  adds_no_pairing_write (Dev := Dev) (EqProfile_new args).
Proof.
  unfold EqProfile_new.
  destruct args as [| a [| b [| c [| d [| e [| f rest]]]]]];
    try apply quiet_raise.
  destruct (forallb _ _); [apply quiet_ret | apply quiet_raise].
Qed.

Lemma quiet_map_each (A B : Type) (l : list A) (body : A -> M (World Dev) B) :
  (forall a, adds_no_pairing_write (body a)) ->
  adds_no_pairing_write (map_each l body).
Proof.
  intros Hbody. induction l as [| a l IH]; cbn [map_each].
  - apply quiet_ret.
  - apply quiet_bind; [apply Hbody | intros y].
    apply quiet_bind; [exact IH | intros ys; apply quiet_ret].
Qed.

(** One step of the proof that a handler is quiet. *)
Ltac quiet_step :=
  first
    [ apply quiet_ret
    | apply quiet_raise
    | apply quiet_or_raise
    | apply quiet_decode
    | apply quiet_read
    | apply quiet_write; discriminate
    | apply quiet_publish
    | apply quiet_sleep
    | apply quiet_EqProfile_new
    | apply quiet_map_each; intros ?
    | apply quiet_try_except; [| intros ?]
    | apply quiet_bind; [| intros ?]
    | match goal with
      | |- adds_no_pairing_write (if ?c then _ else _) => destruct c
      | |- adds_no_pairing_write (match ?o with Some _ => _ | None => _ end) =>
          destruct o
      end ].

Ltac quiet := repeat quiet_step.

Lemma quiet_get_profile : adds_no_pairing_write get_equaliser_profile.
Proof. unfold get_equaliser_profile. quiet. Qed.

Lemma quiet_set_profile (p : EqProfile) :
  adds_no_pairing_write (set_equaliser_profile p).
Proof. unfold set_equaliser_profile. quiet. Qed.

Lemma quiet_get_eq_profile : adds_no_pairing_write (get_eq_profile self).
Proof.
  unfold get_eq_profile, _publish_eq_profile, _publish_individual_eq.
  apply quiet_bind; [apply quiet_get_profile | intros p]. quiet.
Qed.

Lemma quiet_get_eq_preset : adds_no_pairing_write (get_eq_preset self).
Proof.
  unfold get_eq_preset, get_equaliser_preset, _publish_eq_preset.
  apply quiet_bind; [| intros p; quiet].
  apply quiet_bind; [apply quiet_get_profile | intros p; quiet].
Qed.

Lemma quiet_get_status : adds_no_pairing_write (Commands.get_status self).
Proof.
  unfold Commands.get_status, Ble.get_status, _decode_status, _publish_status.
  quiet.
Qed.

Lemma quiet_send_command (cmd_int : Z) :
  adds_no_pairing_write (_send_command cmd_int).
Proof. unfold _send_command. quiet. Qed.

Lemma quiet_individual_eq (hz_str : string) (payload : bytes) :
  adds_no_pairing_write (_set_individual_eq self hz_str payload).
Proof.
  unfold _set_individual_eq.
  apply quiet_bind; [apply quiet_get_profile | intros p].
  destruct (int_of_bytes payload) as [v |]; [| quiet].
  destruct (negb _); [quiet |].
  apply quiet_bind; [unfold setattr; quiet | intros p'].
  apply quiet_bind; [apply quiet_set_profile | intros _].
  apply quiet_bind; [apply quiet_sleep | intros _].
  apply quiet_bind; [apply quiet_get_eq_profile | intros _].
  apply quiet_get_eq_preset.
Qed.

(** X22.  Pairing is gated.  With pairing not allowed, no command
    message makes the router write to the pairing characteristic, whatever
    its topic and payload, and whether its handler returns or raises;
    provided [wakeup], which is left open, makes no such write. *)
Theorem pairing_needs_permission :
  _allow_pairing self = false ->
  adds_no_pairing_write wakeup ->
  forall message : Message,
    adds_no_pairing_write
      (Commands._handle_command matches int_of_str upper wakeup self message).
Proof.
  intros Hallow Hwakeup message.
  unfold Commands._handle_command. rewrite Hallow. cbn [andb].
  repeat match goal with
         | |- adds_no_pairing_write (if ?c then _ else _) =>
             destruct c; [| try apply quiet_ret]
         end.
  - unfold Commands.set_volume, Commands.get_volume, Ble.set_volume,
      Ble.get_volume. quiet.
  - unfold Commands.get_volume, Ble.get_volume. quiet.
  - unfold Commands.set_eq_preset.
    apply quiet_bind; [quiet | intros [preset |]; [| quiet]].
    unfold set_equaliser_preset.
    apply quiet_bind; [apply quiet_set_profile | intros _].
    apply quiet_bind; [apply quiet_sleep | intros _].
    apply quiet_bind; [apply quiet_get_eq_preset | intros _].
    apply quiet_get_eq_profile.
  - apply quiet_get_eq_preset.
  - unfold Commands.set_eq_profile.
    apply quiet_bind; [quiet | intros [profile |]; [| quiet]].
    apply quiet_bind; [apply quiet_set_profile | intros _].
    apply quiet_bind; [apply quiet_sleep | intros _].
    apply quiet_bind; [apply quiet_get_eq_profile | intros _].
    apply quiet_get_eq_preset.
  - unfold set_eq_profile_individual.
    repeat match goal with
           | |- adds_no_pairing_write (if ?c then _ else _) =>
               destruct c; [apply quiet_individual_eq |]
           end.
    apply quiet_ret.
  - apply quiet_get_eq_profile.
  - unfold Commands.set_device_name, Commands.get_device_name,
      Ble.set_device_name, Ble.get_device_name. quiet.
  - unfold Commands.get_device_name, Ble.get_device_name. quiet.
  - unfold Commands.set_led_brightness, Commands.get_led_brightness,
      Ble.set_led_brightness, Ble.get_led_brightness. quiet.
  - unfold Commands.get_led_brightness, Ble.get_led_brightness. quiet.
  - unfold Commands.play, play. quiet.
  - unfold Commands.pause, pause. quiet.
  - unfold Commands.next, next. quiet.
  - unfold Commands.previous, previous. quiet.
  - unfold Commands.set_interaction_sound, set_interaction_sound.
    apply quiet_bind; [quiet | intros [enabled |]; [| quiet]].
    apply quiet_bind; [| intros _].
    + apply quiet_bind; [quiet | intros c; apply quiet_send_command].
    + apply quiet_bind; [apply quiet_sleep | intros _; apply quiet_get_status].
  - apply quiet_get_status.
  - unfold Commands.set_source, set_source.
    apply quiet_bind; [quiet | intros [source |]; [| quiet]].
    apply quiet_bind; [apply quiet_send_command | intros _].
    apply quiet_bind; [apply quiet_sleep | intros _; apply quiet_get_status].
  - exact Hwakeup.
Qed.

(** *** Status query, source and interaction sound *)

Lemma decode_status_any_state (S : Type) (data : bytes) (s : S) :
  _decode_status data s
  = match _decode_status data tt with
    | Ok status _ => Ok status s
    | Raise e _ => Raise e s
    end.
Proof.
  unfold _decode_status, bind, or_raise, ret, raise.
  destruct (getitem data SOURCE) as [b0 |]; [| reflexivity].
  destruct (INT_AUD_SRC_MAPPING (int_of_byte b0)); [| reflexivity].
  destruct (getitem data PLAY_STATUS) as [b1 |]; [| reflexivity].
  destruct (INT_PLAY_STATUS_MAPPING (int_of_byte b1)); [| reflexivity].
  destruct (getitem data INTERATION_SOUND); reflexivity.
Qed.

Lemma publish_status_events (status : Status) (w : World Dev) :
  _publish_status self status w = Ok tt (logged w (status_events self status)).
Proof.
  unfold _publish_status, _publish, bind, emit, modify, logged, status_events.
  cbn [device trace].
  destruct (interaction_sound_enabled status); rewrite <- ?app_assoc; reflexivity.
Qed.

(** X28.  The status query.  It makes one read of the control
    characteristic.  If the answer decodes to a status, it publishes the
    play status, the audio source and the interaction-sound flag, in this
    order; if it does not decode, the decoding error leaves the handler and
    nothing is published. *)
Theorem status_query :
  forall w : World Dev,
    let data := read_gatt_char control_characteristic (device w) in
    (forall status : Status,
       _decode_status data tt = Ok status tt ->
       Commands.get_status self w
         = Ok tt (logged w (GattRead control_characteristic
                            :: status_events self status)))
    /\ (forall e : exn,
          _decode_status data tt = Raise e tt ->
          Commands.get_status self w
            = Raise e (logged w [GattRead control_characteristic])).
Proof.
  intros w data. split.
  - intros status Hdecode.
    unfold Commands.get_status, Ble.get_status, client_read.
    unfold bind, emit, modify, get, ret. cbn [device trace]. fold data.
    rewrite decode_status_any_state, Hdecode.
    rewrite publish_status_events. unfold logged. cbn [device trace].
    now rewrite <- app_assoc.
  - intros e Hdecode.
    unfold Commands.get_status, Ble.get_status, client_read.
    unfold bind, emit, modify, get, ret. cbn [device trace]. fold data.
    now rewrite decode_status_any_state, Hdecode.
Qed.

(** X29.  Source and interaction sound.  A UTF-8 payload whose
    upper-case form names a source makes the handler write that source's
    command byte, pause and then do what the status query does.  A UTF-8
    payload that [int] reads as a number does the same with the byte that
    switches the interaction sound on when the number is not zero and off
    when it is zero.  A payload that is not UTF-8, names no source, or is
    rejected by [int], is dropped without any transport call. *)
Theorem source_and_sound_commands :
  forall (payload : bytes) (w : World Dev),
    (forall source : AudioSource,
       utf8_ok 0 0x80 0xBF payload = true ->
       AudioSource_by_name (upper (string_of_list_byte payload)) = Some source ->
       Commands.set_source upper self payload w
         = Commands.get_status self
             (written w control_characteristic
                [command_byte (DoSource source)] [Slept]))
    /\ (utf8_ok 0 0x80 0xBF payload = false
        \/ AudioSource_by_name (upper (string_of_list_byte payload)) = None ->
        Commands.set_source upper self payload w = Ok tt w)
    /\ (forall n : Z,
          utf8_ok 0 0x80 0xBF payload = true ->
          int_of_str (string_of_list_byte payload) = Some n ->
          Commands.set_interaction_sound int_of_str self payload w
            = Commands.get_status self
                (written w control_characteristic
                   [command_byte (DoInteractionSound (negb (n =? 0)))] [Slept]))
    /\ (utf8_ok 0 0x80 0xBF payload = false
        \/ int_of_str (string_of_list_byte payload) = None ->
        Commands.set_interaction_sound int_of_str self payload w = Ok tt w).
Proof.
  intros payload w. split; [| split; [| split]].
  - intros source Hutf Hname.
    unfold Commands.set_source, try_except. unfold bind at 1 2.
    rewrite (@decode_ok _ payload _ Hutf). unfold bind at 1.
    rewrite Hname. cbn [or_raise ret].
    destruct source; cbn; unfold written; cbn; rewrite <- ?app_assoc;
      reflexivity.
  - intros [Hutf | Hname];
      unfold Commands.set_source, try_except; unfold bind at 1 2.
    + now rewrite (@decode_fails _ payload _ Hutf).
    + destruct (utf8_ok 0 0x80 0xBF payload) eqn:Hutf.
      * rewrite (@decode_ok _ payload _ Hutf). unfold bind at 1.
        now rewrite Hname.
      * now rewrite (@decode_fails _ payload _ Hutf).
  - intros n Hutf Hparse.
    unfold Commands.set_interaction_sound, try_except. unfold bind at 1 2.
    rewrite (@decode_ok _ payload _ Hutf). unfold bind at 1.
    rewrite Hparse. cbn [or_raise ret].
    destruct (n =? 0); cbn; unfold written; cbn; rewrite <- ?app_assoc;
      reflexivity.
  - intros [Hutf | Hparse];
      unfold Commands.set_interaction_sound, try_except; unfold bind at 1 2.
    + now rewrite (@decode_fails _ payload _ Hutf).
    + destruct (utf8_ok 0 0x80 0xBF payload) eqn:Hutf.
      * rewrite (@decode_ok _ payload _ Hutf). unfold bind at 1.
        now rewrite Hparse.
      * now rewrite (@decode_fails _ payload _ Hutf).
Qed.
End CommandFacts.

(* ================================================================== *)
(** ** Further properties: device events on the bus                    *)
(* ================================================================== *)

Section EventFacts.

Context {Dev : Type} `{GattClient Dev}.

Variable self : MqttControl.

Lemma run_publish_eq_profile (p : EqProfile) (w : World Dev) :
  _publish_eq_profile self p w = Ok tt (logged w (profile_publications self p)).
Proof.
  unfold _publish_eq_profile, _publish_individual_eq, _publish, bind, emit,
    modify, logged, profile_publications.
  cbn [device trace]. rewrite <- !app_assoc. reflexivity.
Qed.

Lemma band_above_ten (l : bytes) :
  (exists b, In b l /\ 10 < int_of_byte b) ->
  forallb band_ok (map int_of_byte l) = false.
Proof.
  intros (b & Hin & Hb).
  destruct (forallb band_ok (map int_of_byte l)) eqn:Hall; [| reflexivity].
  rewrite forallb_forall in Hall.
  specialize (Hall (int_of_byte b) (in_map int_of_byte l b Hin)).
  unfold band_ok in Hall. apply andb_true_iff in Hall.
  destruct Hall as [_ Hle]. apply Z.leb_le in Hle. lia.
Qed.

(** X23.  An equalizer notification.  Five bytes, none above 10, are
    decoded to a profile, and the router's handler queues two tasks: one
    for the profile and, after it, one for the preset found for it.  The
    profile task publishes the line of the five values and then each value
    at the address of its band, in band order; the preset task publishes
    the lower-case name of the preset or "custom"; both use the
    configured retain flag.  The two tasks run concurrently, and nothing
    is stated on how their publications interleave.  Any other
    notification raises before the handler is called and queues
    nothing. *)
Theorem equalizer_event_published :
  forall (data : bytes) (loop : Loop) (w : World Dev),
    (forall p : EqProfile,
       map int_of_byte data = astuple p ->
       forallb band_ok (astuple p) = true ->
       _on_equalizer_change (initialised self) data loop
       = Ok tt (loop ++ [Coro_publish_eq_profile p;
                         Coro_publish_eq_preset (EqPreset_of_value p)])
       /\ run_coroutine self (Coro_publish_eq_profile p) w
          = Ok tt (logged w (profile_lines self p))
       /\ run_coroutine self (Coro_publish_eq_preset (EqPreset_of_value p)) w
          = Ok tt (logged w (preset_line self p)))
    /\ (List.length data <> 5%nat \/ (exists b, In b data /\ 10 < int_of_byte b) ->
        exists e, _on_equalizer_change (initialised self) data loop = Raise e loop).
Proof.
  intros data loop w. split.
  - intros p Hdata Hok. split; [| split].
    + unfold _on_equalizer_change, bind. rewrite Hdata.
      rewrite (EqProfile_new_astuple p loop Hok).
      unfold initialised. cbn. now rewrite <- app_assoc.
    + cbn [run_coroutine]. rewrite run_publish_eq_profile.
      destruct (profile_bytes_ok p Hok) as (_ & _ & Hline & Hdigits).
      cbn [astuple map] in Hdigits. injection Hdigits as D1 D2 D3 D4 D5.
      unfold profile_publications, profile_lines.
      now rewrite Hline, D1, D2, D3, D4, D5.
    + cbn [run_coroutine].
      unfold _publish_eq_preset, _publish, emit, modify, logged, preset_line.
      now rewrite preset_label_ok.
  - intros Hbad. unfold _on_equalizer_change, bind, EqProfile_new.
    destruct data as [| a [| b [| c [| d [| e [| f rest]]]]]];
      try (eexists; reflexivity).
    destruct Hbad as [Hlen | Habove]; [now contradiction Hlen |].
    pose proof (@band_above_ten [a; b; c; d; e] Habove) as Hfalse.
    cbn [map] in *. rewrite Hfalse.
    eexists; reflexivity.
Qed.

(** X24.  A status notification.  A value that decodes to a status makes
    the router's handler queue one task, and running it publishes the play
    status and the audio source by their lower-case names and the
    interaction-sound flag as "1" or "0".  A value that does not decode
    raises before the handler is called and queues nothing. *)
Theorem status_event_published :
  forall (data : bytes) (loop : Loop) (w : World Dev),
    (forall status : Status,
       _decode_status data loop = Ok status loop ->
       _on_status_change (initialised self) data loop
         = Ok tt (loop ++ [Coro_publish_status status])
       /\ run_loop self [Coro_publish_status status] w
          = Ok tt (logged w (status_events self status)))
    /\ (forall e : exn,
          _decode_status data loop = Raise e loop ->
          _on_status_change (initialised self) data loop = Raise e loop).
Proof.
  intros data loop w. split.
  - intros status Hdecode. split.
    + unfold _on_status_change, bind. rewrite Hdecode. reflexivity.
    + unfold run_loop. cbn [for_each run_coroutine].
      unfold _publish_status, _publish, try_except, bind, emit, modify, ret,
        logged, status_events.
      cbn [device trace].
      destruct (interaction_sound_enabled status);
        rewrite <- ?app_assoc; reflexivity.
  - intros e Hdecode. unfold _on_status_change, bind. now rewrite Hdecode.
Qed.

(** X25.  Media info and disconnect.  A media info makes the router's
    handler queue three tasks, and running them publishes title, artist and
    album, each with the text it has or with no payload when it is [None].
    A disconnect makes the router's handler raise [SystemExit] with code 1,
    and nothing is queued. *)
Theorem media_info_and_disconnect_events :
  forall (media_info : MediaInfo) (loop : Loop) (w : World Dev),
    dispatch (_media_info_callbacks (initialised self)) media_info loop
      = Ok tt (loop ++ media_info_tasks self media_info)
    /\ run_loop self (media_info_tasks self media_info) w
       = Ok tt (logged w (media_info_publications self media_info))
    /\ _on_disconnect (initialised self) loop = Raise (SystemExit 1) loop.
Proof.
  intros media_info loop w. repeat split.
  - unfold initialised, media_info_tasks. cbn. now rewrite <- !app_assoc.
  - unfold run_loop, media_info_tasks. cbn [for_each run_coroutine].
    unfold _publish, try_except, bind, emit, modify, ret, logged,
      media_info_publications.
    cbn [device trace]. now rewrite <- ?app_assoc.
Qed.

End EventFacts.

(* ================================================================== *)
(** ** The further properties on a simulated speaker                   *)
(* ================================================================== *)





Lemma per_band_command_bad_value_witness :
  let self := mkMqttControl "stanmore2" false false in
  let w := Sim.fresh [(eq_characteristic, [x05; x05; x05; x05; x05])] [] in
  (exists v, int_of_bytes (list_byte_of_string "11") = Some v /\ ~ 0 <= v <= 10)
  /\ _set_individual_eq self "160" (list_byte_of_string "11") w
     = bind get_equaliser_profile (fun _ => ret tt) w
  /\ _set_individual_eq self "160" (list_byte_of_string "11") w
     = Ok tt (logged w [GattRead eq_characteristic]).
Proof.
  intros self w.
  assert (Hbad : exists v,
             int_of_bytes (list_byte_of_string "11") = Some v /\ ~ 0 <= v <= 10)
    by (exists 11; split; [reflexivity | lia]).
  split; [exact Hbad | split].
  - apply (@per_band_command_bad_value _ _ self "160" (list_byte_of_string "11") w).
    right. exact Hbad.
  - reflexivity.
Defined.



(** With topics compared for equality: a topic that is no command is
    ignored whether pairing is allowed or not, and the pairing address is
    ignored unless pairing is allowed. *)
Lemma unmatched_command_ignored_witness :
  let off := mkMqttControl "stanmore2" false false in
  let on := mkMqttControl "stanmore2" false true in
  let unknown := mkMessage "stanmore2/command/unknown" [x01] in
  let pairing := mkMessage "stanmore2/command/enter_pairing_mode" [] in
  let w := Sim.fresh [] [] in
  (forall name : string,
     In name routed_addresses ->
     String.eqb (message_topic unknown) (topic on name) = false)
  /\ (forall name : string,
        In name routed_addresses ->
        String.eqb (message_topic pairing) (topic on name) = false)
  /\ Commands._handle_command String.eqb int_of_ascii upper_ascii (ret tt)
       on unknown w = Ok tt w
  /\ Commands._handle_command String.eqb int_of_ascii upper_ascii (ret tt)
       off pairing w = Ok tt w
  /\ Commands._handle_command String.eqb int_of_ascii upper_ascii (ret tt)
       on pairing w = Ok tt (written w pairing_characteristic [x00] []).
Proof.
  intros off on unknown pairing w.
  assert (Hunknown : forall name : string,
             In name routed_addresses ->
             String.eqb (message_topic unknown) (topic on name) = false).
  { intros name Hin. cbn [In routed_addresses] in Hin.
    repeat (destruct Hin as [<- | Hin]; [reflexivity |]). contradiction. }
  assert (Hpairing : forall name : string,
             In name routed_addresses ->
             String.eqb (message_topic pairing) (topic on name) = false).
  { intros name Hin. cbn [In routed_addresses] in Hin.
    repeat (destruct Hin as [<- | Hin]; [reflexivity |]). contradiction. }
  split; [exact Hunknown | split; [exact Hpairing | split; [| split]]].
  - apply (proj1 (proj2 (unmatched_command_ignored String.eqb int_of_ascii
                           upper_ascii (ret tt) on unknown w Hunknown))).
    reflexivity.
  - apply (proj1 (unmatched_command_ignored String.eqb int_of_ascii upper_ascii
                    (ret tt) off pairing w Hpairing)).
    reflexivity.
  - apply (proj2 (proj2 (unmatched_command_ignored String.eqb int_of_ascii
                           upper_ascii (ret tt) on pairing w Hpairing)));
      reflexivity.
Defined.

Lemma pairing_needs_permission_witness :
  let self := mkMqttControl "stanmore2" false false in
  let message := mkMessage "stanmore2/command/enter_pairing_mode" [] in
  let w := Sim.fresh [] [] in
  _allow_pairing self = false
  /\ adds_no_pairing_write (Dev := Sim.Device) (ret tt)
  /\ no_pairing_write (trace w)
  /\ no_pairing_write
       (trace (state_of
                 (Commands._handle_command String.eqb int_of_ascii upper_ascii
                    (ret tt) self message w))).
Proof.
  intros self message w.
  assert (Hwakeup : adds_no_pairing_write (Dev := Sim.Device) (ret tt))
    by (intros w' Hw'; exact Hw').
  assert (Hw : no_pairing_write (trace w)) by (intros data []).
  split; [reflexivity | split; [exact Hwakeup | split; [exact Hw |]]].
  apply (pairing_needs_permission String.eqb int_of_ascii upper_ascii self
           eq_refl Hwakeup message w Hw).
Defined.

Lemma equalizer_event_published_witness :
  let self := mkMqttControl "stanmore2" true false in
  let w := Sim.fresh [] [] in
  let p := mkEqProfile 8 6 3 5 7 in
  (map int_of_byte [x08; x06; x03; x05; x07] = astuple p
   /\ forallb band_ok (astuple p) = true
   /\ _on_equalizer_change (initialised self) [x08; x06; x03; x05; x07] []
      = Ok tt [Coro_publish_eq_profile p; Coro_publish_eq_preset (Some ROCK)]
   /\ run_coroutine self (Coro_publish_eq_profile p) w
      = Ok tt
          (logged w
             [ Published "stanmore2/info/eq_profile" (Some "8 6 3 5 7"%string) true;
               Published "stanmore2/info/eq_profile/160hz" (Some "8"%string) true;
               Published "stanmore2/info/eq_profile/400hz" (Some "6"%string) true;
               Published "stanmore2/info/eq_profile/1000hz" (Some "3"%string) true;
               Published "stanmore2/info/eq_profile/2500hz" (Some "5"%string) true;
               Published "stanmore2/info/eq_profile/6250hz" (Some "7"%string) true ])
   /\ run_coroutine self (Coro_publish_eq_preset (Some ROCK)) w
      = Ok tt (logged w [Published "stanmore2/info/eq_preset" (Some "rock"%string) true]))
  /\ ((exists b, In b [x08; x0b; x03; x05; x07] /\ 10 < int_of_byte b)
      /\ exists e,
           _on_equalizer_change (initialised self) [x08; x0b; x03; x05; x07] []
           = Raise e []).
Proof.
  intros self w p.
  assert (Habove : exists b, In b [x08; x0b; x03; x05; x07] /\ 10 < int_of_byte b)
    by (exists x0b; split; [cbn; tauto | cbn; lia]).
  split.
  - split; [reflexivity | split; [reflexivity |]].
    apply (proj1 (equalizer_event_published self [x08; x06; x03; x05; x07] [] w) p);
      reflexivity.
  - split; [exact Habove |].
    apply (proj2 (equalizer_event_published self [x08; x0b; x03; x05; x07] [] w)).
    right. exact Habove.
Defined.

Lemma status_event_published_witness :
  let self := mkMqttControl "stanmore2" true false in
  let w := Sim.fresh [] [] in
  let status := mkStatus BLUETOOTH PAUSED true in
  (_decode_status [x03; x01; xff; x01] (@nil Coroutine) = Ok status []
   /\ _on_status_change (initialised self) [x03; x01; xff; x01] []
      = Ok tt ([] ++ [Coro_publish_status status])
   /\ run_loop self [Coro_publish_status status] w
      = Ok tt (logged w (status_events self status)))
  /\ (_decode_status [x03; x01] (@nil Coroutine) = Raise IndexError []
      /\ _on_status_change (initialised self) [x03; x01] [] = Raise IndexError []).
Proof.
  intros self w status. split.
  - split; [reflexivity |].
    apply (proj1 (status_event_published self [x03; x01; xff; x01] [] w) status).
    reflexivity.
  - split; [reflexivity |].
    apply (proj2 (status_event_published self [x03; x01] [] w) IndexError).
    reflexivity.
Defined.





Lemma status_query_witness :
  let self := mkMqttControl "stanmore2" false false in
  let w := Sim.fresh [(control_characteristic, [x01; x00; x00; x00])] [] in
  let silent := Sim.fresh [] [] in
  let status := mkStatus AUX PLAYING false in
  (_decode_status (read_gatt_char control_characteristic (device w)) tt
     = Ok status tt
   /\ Commands.get_status self w
      = Ok tt (logged w (GattRead control_characteristic
                         :: status_events self status)))
  /\ (_decode_status (read_gatt_char control_characteristic (device silent)) tt
        = Raise IndexError tt
      /\ Commands.get_status self silent
         = Raise IndexError (logged silent [GattRead control_characteristic])).
Proof.
  intros self w silent status. split; split.
  - reflexivity.
  - apply (proj1 (status_query self w) status). reflexivity.
  - reflexivity.
  - apply (proj2 (status_query self silent) IndexError). reflexivity.
Defined.

Lemma source_and_sound_commands_witness :
  let self := mkMqttControl "stanmore2" false false in
  let w := Sim.fresh [(control_characteristic, [x01; x00; x00; x01])] [] in
  let aux := list_byte_of_string "aux" in
  let two := list_byte_of_string "2" in
  (utf8_ok 0 0x80 0xBF aux = true
   /\ AudioSource_by_name (upper_ascii (string_of_list_byte aux)) = Some AUX
   /\ Commands.set_source upper_ascii self aux w
      = Commands.get_status self
          (written w control_characteristic [command_byte (DoSource AUX)] [Slept]))
  /\ (AudioSource_by_name (upper_ascii (string_of_list_byte two)) = None
      /\ Commands.set_source upper_ascii self two w = Ok tt w)
  /\ (utf8_ok 0 0x80 0xBF two = true
      /\ int_of_ascii (string_of_list_byte two) = Some 2
      /\ Commands.set_interaction_sound int_of_ascii self two w
         = Commands.get_status self
             (written w control_characteristic
                [command_byte (DoInteractionSound (negb (2 =? 0)))] [Slept]))
  /\ (int_of_ascii (string_of_list_byte aux) = None
      /\ Commands.set_interaction_sound int_of_ascii self aux w = Ok tt w).
Proof.
  intros self w aux two.
  destruct (source_and_sound_commands int_of_ascii upper_ascii self aux w)
    as (Hsource & _ & _ & Hnosound).
  destruct (source_and_sound_commands int_of_ascii upper_ascii self two w)
    as (_ & Hnosource & Hsound & _).
  split; [| split; [| split]].
  - split; [reflexivity | split; [reflexivity |]].
    apply (Hsource AUX); reflexivity.
  - split; [reflexivity |]. apply Hnosource. right. reflexivity.
  - split; [reflexivity | split; [reflexivity |]].
    apply (Hsound 2); reflexivity.
  - split; [reflexivity |]. apply Hnosound. right. reflexivity.
Defined.
